(** * AgileRL: the multi-agent evolutionary training loop and its collaborators

    A shallow embedding of [agilerl/training/train_multi_agent.py] together
    with the parts of the evolvable-network and MATD3 agent contracts that the
    specification states and the repository's tests exercise.

    Conventions of the embedding.
    - Python [int] is [Z]; [//] and [%] are [Z.div] and [Z.modulo] (both
      floor towards minus infinity for a positive divisor, as Python does),
      with [ZeroDivisionError] written out.
    - Python [float] is an exact rational extended with nan
      ([Float := option Q], [None] is nan).  Rounding is outside the model.
    - A dict is an insertion-ordered association list with unique keys.
    - Exceptions, the state of the loop and the observable calls (warnings,
      saves, logging) are carried by a small monad [M]. *)

From Stdlib Require Import ZArith QArith List String Ascii Bool Lia.
From Stdlib Require Import DecimalString Lqa.
Import ListNotations.

Local Open Scope string_scope.
Local Open Scope list_scope.
Local Open Scope Z_scope.

Set Implicit Arguments.

(* ================================================================== *)
(** ** Python values *)
(* ================================================================== *)

(** Keys of the dictionaries the loop builds: agent identities are strings
    (PettingZoo style, ['agent_0']) or integers. *)
Inductive PyKey : Type :=
| KInt (z : Z)
| KStr (s : string).

Definition key_eqb (a b : PyKey) : bool :=
  match a, b with
  | KInt x, KInt y => Z.eqb x y
  | KStr x, KStr y => String.eqb x y
  | _, _ => false
  end.

Definition str_of_int (z : Z) : string := NilZero.string_of_int (Z.to_int z).

(** [str(key)], as an f-string formats it. *)
Definition str_of_key (k : PyKey) : string :=
  match k with
  | KInt z => str_of_int z
  | KStr s => s
  end.

Definition Dict (V : Type) : Type := list (PyKey * V).

Fixpoint dict_get {V} (d : Dict V) (k : PyKey) : option V :=
  match d with
  | [] => None
  | (k', v) :: d' => if key_eqb k k' then Some v else dict_get d' k
  end.

(** [d[k] = v]: overwrite in place, or append a new key. *)
Fixpoint dict_set {V} (d : Dict V) (k : PyKey) (v : V) : Dict V :=
  match d with
  | [] => [(k, v)]
  | (k', v') :: d' =>
      if key_eqb k k' then (k', v) :: d' else (k', v') :: dict_set d' k v
  end.

Definition dict_mem {V} (d : Dict V) (k : PyKey) : bool :=
  match dict_get d k with Some _ => true | None => false end.

Definition dict_keys {V} (d : Dict V) : list PyKey := map fst d.
Definition dict_values {V} (d : Dict V) : list V := map snd d.

(** [{k: v0 for k in ks}] *)
Definition dict_fromkeys {V} (ks : list PyKey) (v0 : V) : Dict V :=
  fold_left (fun d k => dict_set d k v0) ks [].

(** [d.update(e)] *)
Definition dict_update {V} (d e : Dict V) : Dict V :=
  fold_left (fun acc kv => dict_set acc (fst kv) (snd kv)) e d.

Definition key_in (k : PyKey) (ks : list PyKey) : bool := existsb (key_eqb k) ks.

(** The exceptions the loop itself can raise. *)
Inductive exn : Type :=
| UnboundLocalError (name : string)
| KeyError (k : PyKey)
| IndexError
| ZeroDivisionError
| ValueError.

(** Outcome of running Python code with a bound on the number of iterations
    of its [while] loop. *)
Inductive outcome (A : Type) : Type :=
| Ok (a : A)
| Raise (e : exn)
| OutOfFuel.

Arguments Ok {A} a.
Arguments Raise {A} e.
Arguments OutOfFuel {A}.

(* ------------------------------------------------------------------ *)
(** *** Lists as Python lists *)

(** [l[-1]] *)
Definition py_last {A} (l : list A) : outcome A :=
  match rev l with
  | [] => Raise IndexError
  | x :: _ => Ok x
  end.

(** [l[i]] for [i >= 0] *)
Definition py_index {A} (l : list A) (i : nat) : outcome A :=
  match nth_error l i with
  | Some x => Ok x
  | None => Raise IndexError
  end.

(** [l[i] = v] for [i >= 0] *)
Fixpoint list_set {A} (l : list A) (i : nat) (v : A) : list A :=
  match l, i with
  | [], _ => []
  | _ :: t, O => v :: t
  | h :: t, S j => h :: list_set t j v
  end.

(** [l[-n:]] *)
Definition py_lastn {A} (n : nat) (l : list A) : list A :=
  skipn (List.length l - n) l.

(** [l[-1] = v] on a non-empty list. *)
Definition set_last {A} (l : list A) (v : A) : list A :=
  match rev l with
  | [] => []
  | _ :: r => rev r ++ [v]
  end.

(** [range(n)] *)
Definition py_range (n : Z) : list Z := map Z.of_nat (seq 0 (Z.to_nat n)).

(** [a // b] *)
Definition py_floordiv (a b : Z) : outcome Z :=
  if Z.eqb b 0 then Raise ZeroDivisionError else Ok (a / b).

(** [a % b] *)
Definition py_mod (a b : Z) : outcome Z :=
  if Z.eqb b 0 then Raise ZeroDivisionError else Ok (a mod b).

(* ------------------------------------------------------------------ *)
(** *** Floats and the numpy calls of the loop *)

Definition Float : Type := option Q.

Definition fzero : Float := Some 0%Q.
Definition float_of_Z (z : Z) : Float := Some (inject_Z z).

Definition fadd (a b : Float) : Float :=
  match a, b with
  | Some x, Some y => Some (x + y)%Q
  | _, _ => None
  end.

Definition fsum (l : list Float) : Float := fold_left fadd l fzero.

(** [np.greater(a, b)]: strict, and false as soon as one side is nan. *)
Definition np_greater (a b : Float) : bool :=
  match a, b with
  | Some x, Some y => negb (Qle_bool x y)
  | _, _ => false
  end.

Definition fmax (a b : Float) : Float :=
  match a, b with
  | Some x, Some y => if Qle_bool x y then Some y else Some x
  | _, _ => None
  end.

(** [np.max(l)]: [ValueError] on the empty list. *)
Definition np_max (l : list Float) : outcome Float :=
  match l with
  | [] => Raise ValueError
  | x :: t => Ok (fold_left fmax t x)
  end.

(** A value of a per-agent dictionary returned by the environment: a Python
    scalar (single environment) or a one-dimensional array (one entry per
    parallel environment). *)
Inductive Cell (A : Type) : Type :=
| Scalar (a : A)
| Vec (l : list A).

Arguments Scalar {A} a.
Arguments Vec {A} l.

Inductive NdArray (A : Type) : Type :=
| Arr1 (l : list A)
| Arr2 (rows : list (list A)).

Arguments Arr1 {A} l.
Arguments Arr2 {A} rows.

Definition cell_scalar {A} (c : Cell A) : option A :=
  match c with Scalar a => Some a | Vec _ => None end.

Definition cell_vec {A} (c : Cell A) : option (list A) :=
  match c with Scalar _ => None | Vec l => Some l end.

Fixpoint all_some {A} (l : list (option A)) : option (list A) :=
  match l with
  | [] => Some []
  | Some a :: t =>
      match all_some t with Some r => Some (a :: r) | None => None end
  | None :: _ => None
  end.

(** [np.array(list(d.values()))] *)
Definition np_array {A} (vals : list (Cell A)) : outcome (NdArray A) :=
  match all_some (map cell_scalar vals) with
  | Some l => Ok (Arr1 l)
  | None =>
      match all_some (map cell_vec vals) with
      | Some (r :: rs) =>
          if forallb (fun r' => Nat.eqb (List.length r') (List.length r)) rs
          then Ok (Arr2 (r :: rs))
          else Raise ValueError
      | _ => Raise ValueError
      end
  end.

Fixpoint zip_cons {A} (r : list A) (cols : list (list A)) : list (list A) :=
  match r, cols with
  | a :: r', c :: cols' => (a :: c) :: zip_cons r' cols'
  | _, _ => []
  end.

Fixpoint transpose_rows {A} (m : nat) (rows : list (list A)) : list (list A) :=
  match rows with
  | [] => repeat [] m
  | r :: rs => zip_cons r (transpose_rows m rs)
  end.

(** [a.transpose()] *)
Definition np_transpose {A} (a : NdArray A) : NdArray A :=
  match a with
  | Arr1 l => Arr1 l
  | Arr2 rows => Arr2 (transpose_rows (List.length (hd [] rows)) rows)
  end.

(** Iterating over an array: scalars of a 1-D array, rows of a 2-D one.
    A scalar is returned as a one-element row, so that [np.any] reads both. *)
Definition np_iter {A} (a : NdArray A) : list (list A) :=
  match a with
  | Arr1 l => map (fun x => [x]) l
  | Arr2 rows => rows
  end.

Definition np_any (row : list bool) : bool := existsb (fun b => b) row.

(** [np.sum(a, axis=-1)] *)
Definition np_sum_last (a : NdArray Float) : Cell Float :=
  match a with
  | Arr1 l => Scalar (fsum l)
  | Arr2 rows => Vec (map fsum rows)
  end.

(** [np.zeros(n)] *)
Definition np_zeros (n : Z) : outcome (list Float) :=
  if Z.ltb n 0 then Raise ValueError else Ok (repeat fzero (Z.to_nat n)).

(** [scores += x] on a 1-D array [scores] (in place: the shape of [scores]
    is kept, [x] is broadcast to it or the call raises). *)
Definition np_iadd (scores : list Float) (x : Cell Float) : outcome (list Float) :=
  match x with
  | Scalar s => Ok (map (fun a => fadd a s) scores)
  | Vec v =>
      if Nat.eqb (List.length v) (List.length scores)
      then Ok (map (fun p => fadd (fst p) (snd p)) (combine scores v))
      else
        match v with
        | [s] => Ok (map (fun a => fadd a s) scores)
        | _ => Raise ValueError
        end
  end.

(** [s.split(".pt")[0]]: the text before the first occurrence of [".pt"]. *)
Fixpoint split_pt_head (s : string) : string :=
  match s with
  | EmptyString => EmptyString
  | String c s' =>
      if String.prefix ".pt" s then EmptyString else String c (split_pt_head s')
  end.

(** [".pt" in s] *)
Fixpoint contains_pt (s : string) : bool :=
  match s with
  | EmptyString => false
  | String _ s' => String.prefix ".pt" s || contains_pt s'
  end.

(* ================================================================== *)
(** ** The collaborators of the training loop *)
(* ================================================================== *)

(** The types the collaborators own.  The loop never looks inside them. *)
Class Domain : Type := {
  Ext : Type;          (* the outside world: environment, replay memory,
                          random source, clock, file system *)
  Obs : Type;          (* a state dictionary, one observation per agent id *)
  Act : Type;          (* an action dictionary *)
  InfoVal : Type;      (* a value of the environment's info dictionary *)
  Core : Type;         (* networks, optimizers and noise state of an agent *)
  Experiences : Type;  (* a sampled batch *)
  CfgVal : Type;       (* a value of a hyperparameter dictionary *)
  Tournament : Type;   (* the tournament selection object *)
  Mutations : Type     (* the mutation object *)
}.

(** The attributes of an agent that the loop reads or writes. *)
Record Agent `{Domain} : Type := {
  steps : list Z;
  scores : list Float;
  fitness : list Float;
  learn_step : Z;
  batch_size : Z;
  discrete_actions : bool;
  index : Z;
  mut : string;
  lr_actor : Float;
  lr_critic : Float;
  core : Core
}.

Definition set_steps `{Domain} (a : Agent) (v : list Z) : Agent :=
  {| steps := v; scores := scores a; fitness := fitness a;
     learn_step := learn_step a; batch_size := batch_size a;
     discrete_actions := discrete_actions a; index := index a; mut := mut a;
     lr_actor := lr_actor a; lr_critic := lr_critic a; core := core a |}.

Definition set_scores `{Domain} (a : Agent) (v : list Float) : Agent :=
  {| steps := steps a; scores := v; fitness := fitness a;
     learn_step := learn_step a; batch_size := batch_size a;
     discrete_actions := discrete_actions a; index := index a; mut := mut a;
     lr_actor := lr_actor a; lr_critic := lr_critic a; core := core a |}.

(** What [env.step] returns. *)
Record StepResult `{Domain} : Type := {
  next_state : Obs;
  reward : Dict (Cell Float);
  done : Dict (Cell bool);
  truncation : Dict (Cell bool);
  step_info : Dict InfoVal
}.

(** The environment handle: [env.agents], and [env.num_envs] when the
    environment is an instance of [PettingZooVectorizationParallelWrapper]. *)
Record Env : Type := {
  agents : list PyKey;
  wrapper_num_envs : option Z
}.

(** The accelerator of distributed runs. *)
Record Accelerator : Type := {
  is_main_process : bool;
  is_local_main_process : bool;
  num_processes : Z;
  device : string
}.

(** One entry of the loss report of [learn]: the actor loss ([None] on a call
    that does not update the actor) and the critic loss. *)
Definition LossEntry : Type := (option Float * Float)%type.

(** The loss dictionary of a window has no key [0]. *)
Definition no_key_zero (losses : Dict (list LossEntry)) : Prop :=
  dict_get losses (KInt 0) = None.

(** The calls the loop makes on its collaborators.  Each takes the outside
    world and returns the new one; an agent method also returns the agent. *)
Class Collaborators `{Domain} : Type := {
  env_reset : Ext -> Ext * (Obs * Dict InfoVal);
  env_step : Ext -> Act -> Ext * StepResult;
  getAction : Ext -> Agent -> Obs -> option InfoVal -> option InfoVal ->
              Ext * Agent * (Act * Act);
  learn : Ext -> Agent -> Experiences -> Ext * Agent * Dict LossEntry;
  test : Ext -> Agent -> bool -> option Z -> Z -> Ext * Agent * Float;
  reset_action_noise : Agent -> list nat -> Agent;
  unwrap_models : Agent -> Agent;
  wrap_models : Agent -> Agent;
  saveCheckpoint : Ext -> Agent -> string -> Ext;
  loadCheckpoint : Ext -> Agent -> string -> Ext * Agent;
  save2memory : Ext -> Obs -> Act -> Dict (Cell Float) -> Obs ->
                Dict (Cell bool) -> bool -> Ext;
  memory_len : Ext -> Z;
  memory_counter : Ext -> Z;
  (* [sampler.sample(batch_size)]; the first argument is the batch size of
     the replay dataset when the sampler is the distributed one *)
  sample : Ext -> option Z -> Z -> Ext * Experiences;
  tournament_select : Tournament -> Ext -> list Agent ->
                      Ext * (Agent * list Agent);
  (* [mutation.mutation(pop, pre_training_mut)] *)
  mutation_mutation : Mutations -> Ext -> list Agent -> bool ->
                      Ext * list Agent;
  moveaxis : Obs -> Obs;      (* np.moveaxis(s, [-1], [-3]) on every entry *)
  expand_dims : Obs -> Obs;   (* np.expand_dims(s, 0) on every entry *)
  squeeze : Obs -> Obs;       (* np.squeeze(s) on every entry *)
  datetime_now : Ext -> Ext * string;
  wandb_has_api : Ext -> bool;
  path_exists : Ext -> string -> bool;
  makedirs : Ext -> string -> Ext;
  (* [np.mean(l)] on a flat list, in the floating-point arithmetic of numpy:
     the sum and the division are rounded, so the result is whatever the
     library returns and not the exact mean of the entries *)
  np_mean : list Float -> Float;
  np_mean_nil : np_mean [] = None    (* nan on the empty list *)
}.

(** [np.mean] of a list of lists: numpy refuses a ragged list. *)
Definition np_mean_nested `{Collaborators} (ll : list (list Float))
  : outcome Float :=
  match ll with
  | [] => Ok None
  | r :: rs =>
      if forallb (fun r' => Nat.eqb (List.length r') (List.length r)) rs
      then Ok (np_mean (List.concat ll))
      else Raise ValueError
  end.

(** The arguments of [train_multi_agent] other than [env], [pop] and
    [memory] (the memory lives in the outside world). *)
Record Params `{Domain} : Type := {
  env_name : string;
  algo : string;
  INIT_HP : option (Dict CfgVal);
  MUT_P : option (Dict CfgVal);
  net_config : option (Dict CfgVal);
  swap_channels : bool;
  max_steps : Z;
  evo_steps : Z;
  eval_steps : option Z;
  eval_loop : Z;
  learning_delay : Z;
  target : option Float;
  tournament : option Tournament;
  mutation : option Mutations;
  checkpoint : option Z;
  checkpoint_path : option string;
  save_elite : bool;
  elite_path : option string;
  wb : bool;
  verbose : bool;
  accelerator : option Accelerator;
  wandb_api_key : option string
}.

(** The calls of the loop that are observable from outside. *)
Inductive Event `{Domain} : Type :=
| Warn (msg : string)
| WandbLogin (key : string)
| WandbInit (name : string) (config : Dict CfgVal)
| WandbLog (metrics : Dict Float)
| WandbFinish
| WaitForEveryone
| Makedirs (path : string)
| PrintTraining (device : option string)
| PrintStats (total : Z) (fits : list Float) (mean_scores : Float)
             (avg_fitness avg_score : list Float) (idxs num_steps : list Z)
             (muts : list string)
| PrintSavedCheckpoint
| PbarUpdate (n : Z)
| EnvReset
| EnvStep
| Save2Memory
| Learn (agent_idx : nat)
| SaveCheckpoint (path : string) (a : Agent)
| LoadCheckpoint (path : string).

(** The locals of [train_multi_agent] that live across iterations. *)
Record St `{Domain} : Type := {
  ext : Ext;
  pop : list Agent;
  total_steps : Z;
  checkpoint_count : Z;
  pop_fitnesses : list (list Float);
  pop_actor_loss : list (Dict (list Float));
  pop_critic_loss : list (Dict (list Float))
}.

Section Monad.
Context `{Domain}.

Definition M (A : Type) : Type := St -> outcome A * St * list Event.

Definition ret {A} (a : A) : M A := fun s => (Ok a, s, []).

Definition bind {A B} (m : M A) (f : A -> M B) : M B :=
  fun s =>
    match m s with
    | (Ok a, s1, ev1) =>
        match f a s1 with
        | (r, s2, ev2) => (r, s2, ev1 ++ ev2)
        end
    | (Raise e, s1, ev1) => (Raise e, s1, ev1)
    | (OutOfFuel, s1, ev1) => (OutOfFuel, s1, ev1)
    end.

Definition raise {A} (e : exn) : M A := fun s => (Raise e, s, []).

Definition out_of_fuel {A} : M A := fun s => (OutOfFuel, s, []).

Definition emit (e : Event) : M unit := fun s => (Ok tt, s, [e]).

Definition get : M St := fun s => (Ok s, s, []).

Definition put (s : St) : M unit := fun _ => (Ok tt, s, []).

Definition lift {A} (o : outcome A) : M A := fun s => (o, s, []).

Definition set_ext (s : St) (e : Ext) : St :=
  {| ext := e; pop := pop s; total_steps := total_steps s;
     checkpoint_count := checkpoint_count s;
     pop_fitnesses := pop_fitnesses s; pop_actor_loss := pop_actor_loss s;
     pop_critic_loss := pop_critic_loss s |}.

Definition set_pop (s : St) (p : list Agent) : St :=
  {| ext := ext s; pop := p; total_steps := total_steps s;
     checkpoint_count := checkpoint_count s;
     pop_fitnesses := pop_fitnesses s; pop_actor_loss := pop_actor_loss s;
     pop_critic_loss := pop_critic_loss s |}.

Definition set_total_steps (s : St) (n : Z) : St :=
  {| ext := ext s; pop := pop s; total_steps := n;
     checkpoint_count := checkpoint_count s;
     pop_fitnesses := pop_fitnesses s; pop_actor_loss := pop_actor_loss s;
     pop_critic_loss := pop_critic_loss s |}.

Definition set_checkpoint_count (s : St) (n : Z) : St :=
  {| ext := ext s; pop := pop s; total_steps := total_steps s;
     checkpoint_count := n;
     pop_fitnesses := pop_fitnesses s; pop_actor_loss := pop_actor_loss s;
     pop_critic_loss := pop_critic_loss s |}.

Definition set_pop_fitnesses (s : St) (v : list (list Float)) : St :=
  {| ext := ext s; pop := pop s; total_steps := total_steps s;
     checkpoint_count := checkpoint_count s;
     pop_fitnesses := v; pop_actor_loss := pop_actor_loss s;
     pop_critic_loss := pop_critic_loss s |}.

Definition set_pop_actor_loss (s : St) (v : list (Dict (list Float))) : St :=
  {| ext := ext s; pop := pop s; total_steps := total_steps s;
     checkpoint_count := checkpoint_count s;
     pop_fitnesses := pop_fitnesses s; pop_actor_loss := v;
     pop_critic_loss := pop_critic_loss s |}.

Definition set_pop_critic_loss (s : St) (v : list (Dict (list Float))) : St :=
  {| ext := ext s; pop := pop s; total_steps := total_steps s;
     checkpoint_count := checkpoint_count s;
     pop_fitnesses := pop_fitnesses s; pop_actor_loss := pop_actor_loss s;
     pop_critic_loss := v |}.

(** A call on the outside world. *)
Definition call {A} (f : Ext -> Ext * A) : M A :=
  fun s => let '(e, a) := f (ext s) in (Ok a, set_ext s e, []).

Definition call_ (f : Ext -> Ext) : M unit :=
  fun s => (Ok tt, set_ext s (f (ext s)), []).

Definition ask {A} (f : Ext -> A) : M A := fun s => (Ok (f (ext s)), s, []).

Definition get_pop : M (list Agent) := fun s => (Ok (pop s), s, []).

Definition put_pop (p : list Agent) : M unit :=
  fun s => (Ok tt, set_pop s p, []).

(** [pop[i]] *)
Definition get_agent (i : nat) : M Agent :=
  fun s => (py_index (pop s) i, s, []).

(** The agent object at position [i] is mutated in place. *)
Definition put_agent (i : nat) (a : Agent) : M unit :=
  fun s => (Ok tt, set_pop s (list_set (pop s) i a), []).

(** An agent method that reads the outside world and mutates the agent. *)
Definition agent_call {A} (i : nat) (f : Ext -> Agent -> Ext * Agent * A)
  : M A :=
  fun s =>
    match py_index (pop s) i with
    | Ok a =>
        let '(e, a', r) := f (ext s) a in
        (Ok r, set_pop (set_ext s e) (list_set (pop s) i a'), [])
    | Raise x => (Raise x, s, [])
    | OutOfFuel => (OutOfFuel, s, [])
    end.

(** [for x in l: acc = body(acc, x)] *)
Fixpoint for_each {A B} (l : list A) (acc : B) (body : B -> A -> M B) : M B :=
  match l with
  | [] => ret acc
  | x :: t => bind (body acc x) (fun acc' => for_each t acc' body)
  end.

(** [enumerate(l)] *)
Definition enumerate {A} (l : list A) : list (nat * A) :=
  combine (seq 0 (List.length l)) l.

(** A computation whose events all satisfy [P]. *)
Definition emits_only {A} (P : Event -> Prop) (m : M A) : Prop :=
  forall s, Forall P (snd (m s)).

(** A computation whose normal results all satisfy [Q]. *)
Definition returns {A} (Q : A -> Prop) (m : M A) : Prop :=
  forall s, match fst (fst (m s)) with Ok a => Q a | _ => True end.

(** Every event but the write to the replay memory. *)
Definition not_save (e : Event) : Prop := e <> Save2Memory.

End Monad.

Notation "x <- c1 ;; c2" := (bind c1 (fun x => c2))
  (at level 61, c1 at next level, right associativity).
Notation "' pat <- c1 ;; c2" :=
  (bind c1 (fun x => match x with pat => c2 end))
  (at level 61, pat pattern, c1 at next level, right associativity).
Notation "c1 ;; c2" := (bind c1 (fun _ => c2))
  (at level 61, right associativity).
Infix "+++" := String.append (right associativity, at level 60).

Fixpoint map_outcome {A B} (f : A -> outcome B) (l : list A) : outcome (list B) :=
  match l with
  | [] => Ok []
  | x :: t =>
      match f x with
      | Ok y =>
          match map_outcome f t with
          | Ok r => Ok (y :: r)
          | Raise e => Raise e
          | OutOfFuel => OutOfFuel
          end
      | Raise e => Raise e
      | OutOfFuel => OutOfFuel
      end
  end.

(* ================================================================== *)
(** ** [train_multi_agent] *)
(* ================================================================== *)

(** The locals of one agent's rollout window (source lines 231-235). *)
Record Rollout `{Domain} : Type := {
  r_state : Obs;
  r_info : Dict InfoVal;
  r_scores : list Float;
  r_losses : Dict (list LossEntry);
  r_completed : list Float;   (* completed_episode_scores *)
  r_steps : Z
}.

Section TrainMultiAgent.
Context `{C : Collaborators}.
Variable p : Params.
Variable env : Env.

Definition warn_save_elite : string :=
  "'save_elite' set to False but 'elite_path' has been defined, elite will not                      be saved unless 'save_elite' is set to True.".

Definition warn_checkpoint : string :=
  "'checkpoint' set to None but 'checkpoint_path' has been defined, checkpoint will not                      be saved unless 'checkpoint' is defined.".

Definition warn_wandb_login : string := "Must login to wandb with API key.".

(** Lines 114-123: a save path without its flag is a warning. *)
Definition check_save_flags : M unit :=
  (match save_elite p, elite_path p with
   | false, Some _ => emit (Warn warn_save_elite)
   | _, _ => ret tt
   end) ;;
  (match checkpoint p, checkpoint_path p with
   | None, Some _ => emit (Warn warn_checkpoint)
   | _, _ => ret tt
   end).

(** The warnings of lines 114-123, in the order the code emits them. *)
Definition save_flag_warnings : list Event :=
  (match save_elite p, elite_path p with
   | false, Some _ => [Warn warn_save_elite]
   | _, _ => []
   end) ++
  (match checkpoint p, checkpoint_path p with
   | None, Some _ => [Warn warn_checkpoint]
   | _, _ => []
   end).

Definition config_dict : Dict CfgVal :=
  let d0 := [] in
  let d1 := match INIT_HP p with Some h => dict_update d0 h | None => d0 end in
  let d2 := match MUT_P p with Some h => dict_update d1 h | None => d1 end in
  match net_config p with Some h => dict_update d2 h | None => d2 end.

Definition wandb_init : M unit :=
  stamp <- call datetime_now ;;
  emit (WandbInit (env_name p +++ "-MAEvoHPO-" +++ algo p +++ "-" +++ stamp)
                  config_dict).

(** Lines 125-162. *)
Definition wandb_setup : M unit :=
  if wb p then
    has_api <- ask wandb_has_api ;;
    (if has_api then ret tt
     else match wandb_api_key p with
          | Some k => emit (WandbLogin k)
          | None => emit (Warn warn_wandb_login)
          end) ;;
    match accelerator p with
    | Some acc =>
        emit WaitForEveryone ;;
        (if is_main_process acc then wandb_init else ret tt) ;;
        emit WaitForEveryone
    | None => wandb_init
    end
  else ret tt.

Definition accel_temp_models_path : string := "models/" +++ env_name p.

(** Lines 164-168. *)
Definition make_models_dir : M unit :=
  match accelerator p with
  | Some acc =>
      if is_main_process acc then
        there <- ask (fun e => path_exists e accel_temp_models_path) ;;
        if there then ret tt
        else call_ (fun e => makedirs e accel_temp_models_path) ;;
             emit (Makedirs accel_temp_models_path)
      else ret tt
  | None => ret tt
  end.

(** Lines 170-174.  [is_vectorised] is assigned on the [else] branch only:
    for a wrapper instance the local stays unbound ([None]). *)
Definition num_envs : Z :=
  match wrapper_num_envs env with
  | Some n => n
  | None => 1
  end.

Definition is_vectorised : option bool :=
  match wrapper_num_envs env with
  | Some _ => None
  | None => Some false
  end.

(** Reading the local [is_vectorised]. *)
Definition read_is_vectorised : M bool :=
  match is_vectorised with
  | Some b => ret b
  | None => raise (UnboundLocalError "is_vectorised")
  end.

(** Lines 176-182. *)
Definition compute_save_path : M string :=
  match checkpoint_path p with
  | Some cp => ret (split_pt_head cp)
  | None =>
      stamp <- call datetime_now ;;
      ret (env_name p +++ "-EvoHPO-" +++ algo p +++ "-" +++ stamp)
  end.

(** Lines 184-193: the sampler is the distributed one, built on
    [pop[0].batch_size], exactly when an accelerator is given. *)
Definition make_sampler : M (option Z) :=
  match accelerator p with
  | Some _ => a <- get_agent 0 ;; ret (Some (batch_size a))
  | None => ret None
  end.

Definition agent_ids : list PyKey := agents env.

(** Lines 213-218. *)
Definition init_locals : M unit :=
  s <- get ;;
  put {| ext := ext s; pop := pop s; total_steps := 0; checkpoint_count := 0;
         pop_fitnesses := [];
         pop_actor_loss := map (fun _ => dict_fromkeys agent_ids []) (pop s);
         pop_critic_loss := map (fun _ => dict_fromkeys agent_ids []) (pop s) |}.

(** Lines 221-223. *)
Definition pre_training_mutation : M unit :=
  match accelerator p, mutation p with
  | None, Some m =>
      pop0 <- get_pop ;;
      pop1 <- call (fun e => mutation_mutation m e pop0 true) ;;
      put_pop pop1
  | _, _ => ret tt
  end.

(** Line 226: [np.less([agent.steps[-1] for agent in pop], max_steps).all()] *)
Definition steps_below (pop0 : list Agent) : outcome bool :=
  match map_outcome (fun a => py_last (steps a)) pop0 with
  | Ok l => Ok (forallb (fun s => s <? max_steps p) l)
  | Raise e => Raise e
  | OutOfFuel => OutOfFuel
  end.

Definition loop_guard : M bool :=
  pop0 <- get_pop ;; lift (steps_below pop0).

(* ------------------------------------------------------------------ *)
(** *** The rollout window of one agent (lines 231-346) *)

(** Lines 231-247. *)
Definition rollout_init : M Rollout :=
  '(state, info) <- call env_reset ;;
  emit EnvReset ;;
  scores0 <- lift (np_zeros num_envs) ;;
  state <- (if swap_channels p then
              b <- read_is_vectorised ;;
              if b then ret (moveaxis state)
              else ret (moveaxis (expand_dims state))
            else ret state) ;;
  ret {| r_state := state; r_info := info; r_scores := scores0;
         r_losses := dict_fromkeys agent_ids []; r_completed := [];
         r_steps := 0 |}.

(** Lines 305-309 and 316-320: sample, learn, and file the loss report. *)
Definition learn_once (sampler : option Z) (agent_idx : nat)
  (losses : Dict (list LossEntry)) : M (Dict (list LossEntry)) :=
  agent <- get_agent agent_idx ;;
  experiences <- call (fun e => sample e sampler (batch_size agent)) ;;
  loss <- agent_call agent_idx (fun e a => learn e a experiences) ;;
  emit (Learn agent_idx) ;;
  for_each agent_ids losses (fun losses agent_id =>
    match dict_get losses agent_id with
    | None => raise (KeyError agent_id)
    | Some l =>
        match dict_get loss agent_id with
        | None => raise (KeyError agent_id)
        | Some x => ret (dict_set losses agent_id (l ++ [x]))
        end
    end).

(** Lines 295-320. *)
Definition learn_phase (sampler : option Z) (agent_idx : nat) (idx_step : Z)
  (losses : Dict (list LossEntry)) : M (Dict (list LossEntry)) :=
  agent <- get_agent agent_idx ;;
  if num_envs <? learn_step agent then
    learn_step' <- lift (py_floordiv (learn_step agent) num_envs) ;;
    m <- lift (py_mod idx_step learn_step') ;;
    if Z.eqb m 0 then
      len <- ask memory_len ;;
      if batch_size agent <=? len then
        counter <- ask memory_counter ;;
        if learning_delay p <? counter
        then learn_once sampler agent_idx losses
        else ret losses
      else ret losses
    else ret losses
  else
    len <- ask memory_len ;;
    if batch_size agent <=? len then
      counter <- ask memory_counter ;;
      if learning_delay p <? counter then
        n <- lift (py_floordiv num_envs (learn_step agent)) ;;
        for_each (py_range n) losses
          (fun losses _ => learn_once sampler agent_idx losses)
      else ret losses
    else ret losses.

(** Lines 331-346: episode boundaries. *)
Definition episode_ends (agent_idx : nat) (dn tr : Dict (Cell bool))
  (r : Rollout) : M Rollout :=
  d_arr <- lift (np_array (dict_values dn)) ;;
  t_arr <- lift (np_array (dict_values tr)) ;;
  '(r, reset_noise_indices) <-
    for_each
      (enumerate (combine (np_iter (np_transpose d_arr))
                          (np_iter (np_transpose t_arr))))
      (r, [])
      (fun acc item =>
         let '(r, reset_noise_indices) := acc in
         let '(idx, (d, t)) := item in
         if np_any d || np_any t then
           sc <- lift (py_index (r_scores r) idx) ;;
           agent <- get_agent agent_idx ;;
           put_agent agent_idx (set_scores agent (scores agent ++ [sc])) ;;
           let r1 := {| r_state := r_state r; r_info := r_info r;
                        r_scores := list_set (r_scores r) idx fzero;
                        r_losses := r_losses r;
                        r_completed := r_completed r ++ [sc];
                        r_steps := r_steps r |} in
           b <- read_is_vectorised ;;
           if negb b then
             '(state, info) <- call env_reset ;;
             emit EnvReset ;;
             ret ({| r_state := state; r_info := info;
                     r_scores := r_scores r1; r_losses := r_losses r1;
                     r_completed := r_completed r1; r_steps := r_steps r1 |},
                  reset_noise_indices ++ [idx])
           else ret (r1, reset_noise_indices ++ [idx])
         else ret acc) ;;
  agent <- get_agent agent_idx ;;
  put_agent agent_idx (reset_action_noise agent reset_noise_indices) ;;
  ret r.

(** Lines 250-273: act, step the environment, accumulate the score. *)
Definition act_in_env (agent_idx : nat) (r : Rollout)
  : M (Act * StepResult * list Float) :=
  let agent_mask := dict_get (r_info r) (KStr "agent_mask") in
  let env_defined_actions := dict_get (r_info r) (KStr "env_defined_actions") in
  '(cont_actions, discrete_action) <-
    agent_call agent_idx
      (fun e a => getAction e a (r_state r) agent_mask env_defined_actions) ;;
  agent <- get_agent agent_idx ;;
  let action := if discrete_actions agent then discrete_action
                else cont_actions in
  res <- call (fun e => env_step e action) ;;
  emit EnvStep ;;
  r_arr <- lift (np_array (dict_values (reward res))) ;;
  scores1 <- lift (np_iadd (r_scores r)
                           (np_sum_last (np_transpose r_arr))) ;;
  s <- get ;;
  put (set_total_steps s (total_steps s + num_envs)) ;;
  ret (cont_actions, res, scores1).

(** Lines 275-293: save the transition to the replay buffer.  The keyword
    argument [is_vectorised=is_vectorised] reads the local before the call.
    Returns [next_state] as the rest of the iteration sees it. *)
Definition save_experience (r : Rollout) (cont_actions : Act)
  (res : StepResult) : M Obs :=
  '(state, next_state) <-
    (if swap_channels p then
       b <- read_is_vectorised ;;
       ret (if negb b then squeeze (r_state r) else r_state r,
            moveaxis (next_state res))
     else ret (r_state r, next_state res)) ;;
  is_vec <- read_is_vectorised ;;
  call_ (fun e => save2memory e state cont_actions (reward res) next_state
                              (done res) is_vec) ;;
  emit Save2Memory ;;
  ret next_state.

(** Lines 250-346: one iteration of [for idx_step in range(...)]. *)
Definition rollout_step (sampler : option Z) (agent_idx : nat)
  (r : Rollout) (idx_step : Z) : M Rollout :=
  '(cont_actions, res, scores1) <- act_in_env agent_idx r ;;
  let steps1 := r_steps r + num_envs in
  next_state <- save_experience r cont_actions res ;;
  (* learn according to the learning frequency *)
  losses1 <- learn_phase sampler agent_idx idx_step (r_losses r) ;;
  (* update the state *)
  next_state <-
    (if swap_channels p then
       b <- read_is_vectorised ;;
       ret (if negb b then expand_dims next_state else next_state)
     else ret next_state) ;;
  episode_ends agent_idx (done res) (truncation res)
    {| r_state := next_state; r_info := step_info res; r_scores := scores1;
       r_losses := losses1; r_completed := r_completed r;
       r_steps := steps1 |}.

(** Lines 231-346. *)
Definition rollout (sampler : option Z) (agent_idx : nat) : M Rollout :=
  r0 <- rollout_init ;;
  n <- lift (py_floordiv (evo_steps p) num_envs) ;;
  for_each (py_range n) r0 (rollout_step sampler agent_idx).


(* ------------------------------------------------------------------ *)
(** *** After the window: step counter and loss aggregation (348-366) *)

(** [actor_losses, critic_losses = list(zip( *losses[agent_id]))] followed by
    the filter on [None]. *)
Definition actor_losses_of (l : list LossEntry) : list Float :=
  flat_map (fun e => match fst e with Some x => [x] | None => [] end) l.

Definition critic_losses_of (l : list LossEntry) : list Float := map snd l.

(** [d[i][k].append(v)] on a list of dictionaries of lists. *)
Definition append_loss (d : list (Dict (list Float))) (i : nat) (k : PyKey)
  (v : Float) : outcome (list (Dict (list Float))) :=
  match nth_error d i with
  | None => Raise IndexError
  | Some di =>
      match dict_get di k with
      | None => Raise (KeyError k)
      | Some l => Ok (list_set d i (dict_set di k (l ++ [v])))
      end
  end.

(** Lines 353-366.  The first test indexes [losses] with the literal [0]. *)
Definition aggregate_losses (agent_idx : nat) (losses : Dict (list LossEntry))
  : M unit :=
  match dict_get losses (KInt 0) with
  | None => raise (KeyError (KInt 0))
  | Some l0 =>
      if (0 <? List.length l0)%nat then
        ls <- lift (map_outcome
                      (fun a_id => match dict_get losses a_id with
                                   | Some l => Ok l
                                   | None => Raise (KeyError a_id)
                                   end) agent_ids) ;;
        if forallb (fun l => negb (Nat.eqb (List.length l) 0)) ls then
          for_each agent_ids tt (fun _ agent_id =>
            match dict_get losses agent_id with
            | None => raise (KeyError agent_id)
            | Some l =>
                let actor_losses := actor_losses_of l in
                let critic_losses := critic_losses_of l in
                (match actor_losses with
                 | [] => ret tt
                 | _ =>
                     s <- get ;;
                     d <- lift (append_loss (pop_actor_loss s) agent_idx
                                            agent_id (np_mean actor_losses)) ;;
                     put (set_pop_actor_loss s d)
                 end) ;;
                s <- get ;;
                d <- lift (append_loss (pop_critic_loss s) agent_idx agent_id
                                       (np_mean critic_losses)) ;;
                put (set_pop_critic_loss s d)
            end)
        else ret tt
      else ret tt
  end.

(** [agent.steps[-1] += steps] *)
Definition add_steps (a : Agent) (n : Z) : outcome Agent :=
  match py_last (steps a) with
  | Ok s => Ok (set_steps a (set_last (steps a) (s + n)))
  | Raise e => Raise e
  | OutOfFuel => OutOfFuel
  end.

(** Lines 230-366: the body of [for agent_idx, agent in enumerate(pop)].
    It returns the completed episode scores of the window. *)
Definition agent_iteration (sampler : option Z) (agent_idx : nat)
  : M (list Float) :=
  r <- rollout sampler agent_idx ;;
  pop0 <- get_pop ;;
  n <- lift (py_floordiv (evo_steps p) (Z.of_nat (List.length pop0))) ;;
  emit (PbarUpdate n) ;;
  agent <- get_agent agent_idx ;;
  agent' <- lift (add_steps agent (r_steps r)) ;;
  put_agent agent_idx agent' ;;
  aggregate_losses agent_idx (r_losses r) ;;
  ret (r_completed r).

(* ------------------------------------------------------------------ *)
(** *** Evaluation and metrics (368-433) *)

(** Lines 369-375. *)
Definition evaluate_population : M (list Float) :=
  pop0 <- get_pop ;;
  fitnesses <-
    for_each (seq 0 (List.length pop0)) [] (fun acc i =>
      f <- agent_call i (fun e a =>
             test e a (swap_channels p) (eval_steps p) (eval_loop p)) ;;
      ret (acc ++ [f])) ;;
  s <- get ;;
  put (set_pop_fitnesses s (pop_fitnesses s ++ [fitnesses])) ;;
  ret fitnesses.

Definition fmul_Z (a : Z) (b : Z) : Float := float_of_Z (a * b).

(** Lines 378-388. *)
Definition base_metrics (fitnesses : list Float) (mean_scores : Float)
  : M (Dict Float) :=
  s <- get ;;
  let global_step :=
    match accelerator p with
    | Some acc => if is_main_process acc
                  then fmul_Z (total_steps s) (num_processes acc)
                  else float_of_Z (total_steps s)
    | None => float_of_Z (total_steps s)
    end in
  last_scores <- lift (map_outcome (fun a => py_last (scores a)) (pop s)) ;;
  best_score <- lift (np_max last_scores) ;;
  best_fitness <- lift (np_max fitnesses) ;;
  ret [ (KStr "global_step", global_step);
        (KStr "train/mean_score", mean_scores);
        (KStr "train/best_score", best_score);
        (KStr "eval/mean_fitness", np_mean fitnesses);
        (KStr "eval/best_fitness", best_fitness) ].

Definition loss_key (agent_idx : nat) (agent_id : PyKey) (what : string)
  : PyKey :=
  KStr ("train/agent_" +++ str_of_int (Z.of_nat agent_idx) +++ "_"
        +++ str_of_key agent_id +++ what).

(** Lines 390-409. *)
Definition loss_metrics (wandb_dict : Dict Float) : M (Dict Float) :=
  s <- get ;;
  '(_, _, wandb_dict) <-
    for_each (seq 0 (List.length (pop s))) ([], [], wandb_dict)
      (fun acc agent_idx =>
         al <- lift (py_index (pop_actor_loss s) agent_idx) ;;
         cl <- lift (py_index (pop_critic_loss s) agent_idx) ;;
         for_each (combine (dict_keys al)
                           (combine (dict_values al) (dict_values cl)))
           acc
           (fun acc item =>
              let '(actor_loss_dict, critic_loss_dict, wandb_dict) := acc in
              let '(agent_id, (actor_loss, critic_loss)) := item in
              match actor_loss with
              | [] => ret acc
              | _ =>
                  let ad := dict_set actor_loss_dict
                              (loss_key agent_idx agent_id "_actor_loss")
                              (np_mean (py_lastn 10 actor_loss)) in
                  let cd := dict_set critic_loss_dict
                              (loss_key agent_idx agent_id "_critic_loss")
                              (np_mean (py_lastn 10 critic_loss)) in
                  ret (ad, cd, dict_update (dict_update wandb_dict ad) cd)
              end)) ;;
  ret wandb_dict.

Definition agent_metrics (idx : nat) (a : Agent) : outcome (Dict Float) :=
  let i := str_of_int (Z.of_nat idx) in
  match py_last (fitness a) with
  | Ok f =>
      Ok [ (KStr ("learn_step_agent_" +++ i), float_of_Z (learn_step a));
           (KStr ("learning_rate_actor_agent_" +++ i), lr_actor a);
           (KStr ("learning_rate_critic_agent_" +++ i), lr_critic a);
           (KStr ("batch_size_agent_" +++ i), float_of_Z (batch_size a));
           (KStr ("indi_fitness_agent_" +++ i), f) ]
  | Raise e => Raise e
  | OutOfFuel => OutOfFuel
  end.

(** Lines 411-429. *)
Definition log_metrics (wandb_dict : Dict Float) : M unit :=
  if wb p then
    (match accelerator p with
     | Some acc =>
         emit WaitForEveryone ;;
         (if is_main_process acc then emit (WandbLog wandb_dict)
          else ret tt) ;;
         emit WaitForEveryone
     | None => emit (WandbLog wandb_dict)
     end) ;;
    pop0 <- get_pop ;;
    for_each (enumerate pop0) tt (fun _ ia =>
      d <- lift (agent_metrics (fst ia) (snd ia)) ;;
      emit (WandbLog d))
  else ret tt.

(** Lines 431-433: [agent.steps.append(agent.steps[-1])] for every agent. *)
Definition append_step (a : Agent) : outcome Agent :=
  match py_last (steps a) with
  | Ok s => Ok (set_steps a (steps a ++ [s]))
  | Raise e => Raise e
  | OutOfFuel => OutOfFuel
  end.

Definition update_step_counters : M unit :=
  pop0 <- get_pop ;;
  for_each (seq 0 (List.length pop0)) tt (fun _ i =>
    a <- get_agent i ;;
    a' <- lift (append_step a) ;;
    put_agent i a').

(* ------------------------------------------------------------------ *)
(** *** Early stop (435-445) *)

(** [np.mean(agent.fitness[-10:])] *)
Definition recent_mean_fitness (a : Agent) : Float :=
  np_mean (py_lastn 10 (fitness a)).

(** The test of lines 437-442; [and] evaluates [pop[0]] only when the
    comparison holds for every agent. *)
Definition early_stop_test (tgt : Float) (pop0 : list Agent) : outcome bool :=
  if forallb (fun a => np_greater (recent_mean_fitness a) tgt) pop0 then
    match py_index pop0 0 with
    | Ok a0 => Ok (100 <=? List.length (steps a0))%nat
    | Raise e => Raise e
    | OutOfFuel => OutOfFuel
    end
  else Ok false.

(** Lines 436-445: [Some] is the value returned from inside the loop. *)
Definition early_stop : M (option (list Agent * list (list Float))) :=
  match target p with
  | Some tgt =>
      pop0 <- get_pop ;;
      stop <- lift (early_stop_test tgt pop0) ;;
      if stop then
        (if wb p then emit WandbFinish else ret tt) ;;
        s <- get ;;
        ret (Some (pop s, pop_fitnesses s))
      else ret None
  | None => ret None
  end.

(* ------------------------------------------------------------------ *)
(** *** Tournament selection and mutation (447-480) *)

(** [for model in pop: model.f()] *)
Definition for_all_models (f : Agent -> Agent) : M unit :=
  pop0 <- get_pop ;; put_pop (map f pop0).

Definition save_agent (a : Agent) (path : string) : M unit :=
  call_ (fun e => saveCheckpoint e a path) ;;
  emit (SaveCheckpoint path a).

Definition temp_model_path (pop_i : nat) : string :=
  accel_temp_models_path +++ "/" +++ algo p +++ "_"
  +++ str_of_int (Z.of_nat pop_i) +++ ".pt".

(** Lines 455-456 and 471-472. *)
Definition select_and_mutate (t : Tournament) (m : Mutations) : M Agent :=
  pop0 <- get_pop ;;
  '(elite, pop1) <- call (fun e => tournament_select t e pop0) ;;
  pop2 <- call (fun e => mutation_mutation m e pop1 false) ;;
  put_pop pop2 ;;
  ret elite.

(** Lines 474-480.  [elite] is [None] while the local is unbound. *)
Definition save_elite_checkpoint (elite : option Agent) : M unit :=
  if save_elite p then
    match elite_path p with
    | Some ep =>
        match elite with
        | Some el => save_agent el (split_pt_head ep +++ ".pt")
        | None => raise (UnboundLocalError "elite")
        end
    | None =>
        match elite with
        | Some el =>
            n <- lift (py_last (steps el)) ;;
            save_agent el (env_name p +++ "-elite_" +++ algo p +++ "-"
                           +++ str_of_int n +++ ".pt")
        | None => raise (UnboundLocalError "elite")
        end
    end
  else ret tt.

(** Lines 448-480.  The local [elite] survives from one generation to the
    next, so it is passed in and returned. *)
Definition selection_phase (elite : option Agent) : M (option Agent) :=
  match tournament p, mutation p with
  | Some t, Some m =>
      elite' <-
        match accelerator p with
        | Some acc =>
            emit WaitForEveryone ;;
            for_all_models unwrap_models ;;
            emit WaitForEveryone ;;
            elite' <-
              (if is_main_process acc then
                 el <- select_and_mutate t m ;;
                 pop0 <- get_pop ;;
                 for_each (enumerate pop0) tt (fun _ im =>
                   save_agent (snd im) (temp_model_path (fst im))) ;;
                 ret (Some el)
               else ret elite) ;;
            emit WaitForEveryone ;;
            (if negb (is_main_process acc) then
               pop0 <- get_pop ;;
               for_each (seq 0 (List.length pop0)) tt (fun _ pop_i =>
                 agent_call pop_i (fun e a =>
                   let '(e', a') := loadCheckpoint e a (temp_model_path pop_i)
                   in (e', a', tt)) ;;
                 emit (LoadCheckpoint (temp_model_path pop_i)))
             else ret tt) ;;
            emit WaitForEveryone ;;
            for_all_models wrap_models ;;
            ret elite'
        | None =>
            el <- select_and_mutate t m ;;
            ret (Some el)
        end ;;
      save_elite_checkpoint elite' ;;
      ret elite'
  | _, _ => ret elite
  end.

(* ------------------------------------------------------------------ *)
(** *** Progress report (482-503) *)

Definition print_stats (fitnesses : list Float) (mean_scores : Float)
  : M unit :=
  if verbose p then
    s <- get ;;
    let avg_fitness :=
      map (fun a => np_mean (py_lastn 5 (fitness a))) (pop s) in
    let avg_score :=
      map (fun a => np_mean (py_lastn 10 (scores a))) (pop s) in
    let agents_ := map index (pop s) in
    num_steps <- lift (map_outcome (fun a => py_last (steps a)) (pop s)) ;;
    let muts := map mut (pop s) in
    emit (PbarUpdate 0) ;;
    emit (PrintStats (total_steps s) fitnesses mean_scores avg_fitness
                     avg_score agents_ num_steps muts)
  else ret tt.

(* ------------------------------------------------------------------ *)
(** *** Checkpoint (505-527) *)

Definition checkpoint_file (save_path : string) (i : nat) (n : Z) : string :=
  save_path +++ "_" +++ str_of_int (Z.of_nat i) +++ "_" +++ str_of_int n
  +++ ".pt".

(** [for i, agent in enumerate(pop): agent.saveCheckpoint(...)] *)
Definition save_population (save_path : string) : M unit :=
  pop0 <- get_pop ;;
  for_each (enumerate pop0) tt (fun _ ia =>
    n <- lift (py_last (steps (snd ia))) ;;
    save_agent (snd ia) (checkpoint_file save_path (fst ia) n)) ;;
  emit PrintSavedCheckpoint.

(** [agent.steps[-1]] of an agent whose step history is not empty. *)
Definition last_step (a : Agent) : Z :=
  match rev (steps a) with
  | n :: _ => n
  | [] => 0
  end.


(** The test of line 507: [pop[0].steps[-1] // checkpoint > checkpoint_count] *)
Definition checkpoint_due (ck : Z) (pop0 : list Agent) (count : Z)
  : outcome bool :=
  match py_index pop0 0 with
  | Ok a0 =>
      match py_last (steps a0) with
      | Ok n =>
          match py_floordiv n ck with
          | Ok q => Ok (count <? q)
          | Raise e => Raise e
          | OutOfFuel => OutOfFuel
          end
      | Raise e => Raise e
      | OutOfFuel => OutOfFuel
      end
  | Raise e => Raise e
  | OutOfFuel => OutOfFuel
  end.

Definition checkpoint_phase (save_path : string) : M unit :=
  match checkpoint p with
  | Some ck =>
      s <- get ;;
      due <- lift (checkpoint_due ck (pop s) (checkpoint_count s)) ;;
      if due then
        (match accelerator p with
         | Some acc =>
             emit WaitForEveryone ;;
             for_all_models unwrap_models ;;
             emit WaitForEveryone ;;
             (if is_main_process acc then save_population save_path
              else ret tt) ;;
             emit WaitForEveryone ;;
             for_all_models wrap_models ;;
             emit WaitForEveryone
         | None => save_population save_path
         end) ;;
        s <- get ;;
        put (set_checkpoint_count s (checkpoint_count s + 1))
      else ret tt
  | None => ret tt
  end.

(* ------------------------------------------------------------------ *)
(** *** The loop (226-527) and the function *)

(** Lines 227-527: the body of the [while] loop.  [inl v]: the function
    returned [v] from inside the loop; [inr elite]: fall through. *)
Definition generation (save_path : string) (sampler : option Z)
  (elite : option Agent)
  : M (list Agent * list (list Float) + option Agent) :=
  (match accelerator p with
   | Some _ => emit WaitForEveryone
   | None => ret tt
   end) ;;
  pop0 <- get_pop ;;
  pop_episode_scores <-
    for_each (seq 0 (List.length pop0)) [] (fun acc agent_idx =>
      completed <- agent_iteration sampler agent_idx ;;
      ret (acc ++ [completed])) ;;
  fitnesses <- evaluate_population ;;
  mean_scores <- lift (np_mean_nested pop_episode_scores) ;;
  wandb_dict <- base_metrics fitnesses mean_scores ;;
  wandb_dict <- loss_metrics wandb_dict ;;
  log_metrics wandb_dict ;;
  update_step_counters ;;
  stop <- early_stop ;;
  match stop with
  | Some v => ret (inl v)
  | None =>
      elite' <- selection_phase elite ;;
      print_stats fitnesses mean_scores ;;
      checkpoint_phase save_path ;;
      ret (inr elite')
  end.

(** Lines 227-433: the part of the loop body before the early-stop test,
    from the barrier to the step-counter update.  It returns the fitnesses
    and the mean score of the generation, which the progress report reads
    later on. *)
Definition generation_head (sampler : option Z) : M (list Float * Float) :=
  (match accelerator p with
   | Some _ => emit WaitForEveryone
   | None => ret tt
   end) ;;
  pop0 <- get_pop ;;
  pop_episode_scores <-
    for_each (seq 0 (List.length pop0)) [] (fun acc agent_idx =>
      completed <- agent_iteration sampler agent_idx ;;
      ret (acc ++ [completed])) ;;
  fitnesses <- evaluate_population ;;
  mean_scores <- lift (np_mean_nested pop_episode_scores) ;;
  wandb_dict <- base_metrics fitnesses mean_scores ;;
  wandb_dict <- loss_metrics wandb_dict ;;
  log_metrics wandb_dict ;;
  update_step_counters ;;
  ret (fitnesses, mean_scores).

(** Lines 447-527: the part of the loop body after the early-stop test. *)
Definition generation_tail (save_path : string) (elite : option Agent)
  (fitnesses : list Float) (mean_scores : Float) : M (option Agent) :=
  elite' <- selection_phase elite ;;
  print_stats fitnesses mean_scores ;;
  checkpoint_phase save_path ;;
  ret elite'.

(** Lines 529-538. *)
Definition finish : M (list Agent * list (list Float)) :=
  (if wb p then
     match accelerator p with
     | Some acc =>
         emit WaitForEveryone ;;
         (if is_main_process acc then emit WandbFinish else ret tt) ;;
         emit WaitForEveryone
     | None => emit WandbFinish
     end
   else ret tt) ;;
  s <- get ;;
  ret (pop s, pop_fitnesses s).

(** The [while] loop, bounded by [fuel] tests of its condition. *)
Fixpoint training_loop (fuel : nat) (save_path : string)
  (sampler : option Z) (elite : option Agent)
  : M (list Agent * list (list Float)) :=
  match fuel with
  | O => out_of_fuel
  | S fuel' =>
      continue <- loop_guard ;;
      if continue then
        r <- generation save_path sampler elite ;;
        match r with
        | inl v => ret v
        | inr elite' => training_loop fuel' save_path sampler elite'
        end
      else finish
  end.

(** Lines 125-223: from the tracker's setup to the pre-training mutation. *)
Definition setup_after_checks : M (string * option Z) :=
  wandb_setup ;;
  make_models_dir ;;
  save_path <- compute_save_path ;;
  sampler <- make_sampler ;;
  emit (PrintTraining (option_map device (accelerator p))) ;;
  init_locals ;;
  pre_training_mutation ;;
  ret (save_path, sampler).

(** Lines 125-538: the function after the checks of lines 114-123. *)
Definition train_after_checks (fuel : nat)
  : M (list Agent * list (list Float)) :=
  '(save_path, sampler) <- setup_after_checks ;;
  training_loop fuel save_path sampler None.

Definition train_body (fuel : nat) : M (list Agent * list (list Float)) :=
  check_save_flags ;;
  train_after_checks fuel.

Definition initial_state (e : Ext) (pop0 : list Agent) : St :=
  {| ext := e; pop := pop0; total_steps := 0; checkpoint_count := 0;
     pop_fitnesses := []; pop_actor_loss := []; pop_critic_loss := [] |}.

(** [train_multi_agent(env, env_name, algo, pop, memory, ...)] run in the
    outside world [e]. *)
Definition train_multi_agent (fuel : nat) (pop0 : list Agent) (e : Ext)
  : outcome (list Agent * list (list Float)) * St * list Event :=
  train_body fuel (initial_state e pop0).

End TrainMultiAgent.

(* ================================================================== *)
(** ** What a run may be observed to do *)
(* ================================================================== *)

Section Observables.
Context {D : Domain} {C : Collaborators}.
Variable p : Params.

Definition is_some {A} (o : option A) : bool :=
  match o with Some _ => true | None => false end.

(** The process that writes files and initialises the tracker: the only
    process of a single-process run, the main one of a distributed run. *)
Definition writes_files : bool :=
  match accelerator p with
  | Some acc => is_main_process acc
  | None => true
  end.

(** The events the arguments of the call leave room for: the tracker is
    used under [wb], barriers and reloads belong to distributed runs, files
    are written for a checkpoint interval, for the elite, or to hand the new
    population to the other processes. *)
Definition permitted (e : Event) : bool :=
  match e with
  | WandbLogin _ | WandbLog _ | WandbFinish => wb p
  | WandbInit _ _ => wb p && writes_files
  | WaitForEveryone => is_some (accelerator p)
  | Makedirs _ => is_some (accelerator p) && writes_files
  | LoadCheckpoint _ =>
      is_some (accelerator p) && negb writes_files
      && is_some (tournament p) && is_some (mutation p)
  | SaveCheckpoint _ _ =>
      (is_some (checkpoint p) && writes_files)
      || (is_some (tournament p) && is_some (mutation p)
          && (save_elite p || (is_some (accelerator p) && writes_files)))
  | PrintSavedCheckpoint => is_some (checkpoint p) && writes_files
  | PrintStats _ _ _ _ _ _ _ _ => verbose p
  | Warn _ | PrintTraining _ | PbarUpdate _ | EnvReset | EnvStep
  | Save2Memory | Learn _ => true
  end.

Definition is_tracker_event (e : Event) : bool :=
  match e with
  | WandbLogin _ | WandbInit _ _ | WandbLog _ | WandbFinish => true
  | _ => false
  end.

Definition is_distributed_event (e : Event) : bool :=
  match e with
  | WaitForEveryone | Makedirs _ | LoadCheckpoint _ => true
  | _ => false
  end.

Definition is_checkpoint_write (e : Event) : bool :=
  match e with
  | SaveCheckpoint _ _ | PrintSavedCheckpoint => true
  | _ => false
  end.

Definition is_env_step (e : Event) : bool :=
  match e with EnvStep => true | _ => false end.

Definition is_memory_write (e : Event) : bool :=
  match e with Save2Memory => true | _ => false end.

Definition count_events (f : Event -> bool) (ev : list Event) : nat :=
  List.length (filter f ev).

(** The history of an agent after the step counter update. *)
Definition repeat_last_step (a : Agent) : Agent :=
  set_steps a (steps a ++ [last_step a]).

(** A computation that always returns normally and keeps the population. *)
Definition steady {A} (m : M A) : Prop :=
  forall s, exists a s' ev, m s = (Ok a, s', ev) /\ pop s' = pop s.

(** What a computation that returns has done to the step total, and how
    many environment steps and replay-memory writes it has emitted. *)
Definition accounts {A} (dt : Z) (ke km : nat) (Q : A -> Prop) (m : M A)
  : Prop :=
  forall s a s' ev, m s = (Ok a, s', ev) ->
    total_steps s' = total_steps s + dt /\
    count_events is_env_step ev = ke /\
    count_events is_memory_write ev = km /\
    Q a.

(** What [test] returns for each agent of a population when it is called
    on the agents one after the other, in order: the outside world after
    the calls, the agents after them, and their fitnesses. *)
Fixpoint test_each (e : Ext) (l : list Agent)
  : Ext * list Agent * list Float :=
  match l with
  | [] => (e, [], [])
  | a :: t =>
      let '(e1, a1, f) :=
        test e a (swap_channels p) (eval_steps p) (eval_loop p) in
      let '(e2, t', fs) := test_each e1 t in
      (e2, a1 :: t', f :: fs)
  end.

(** The recent mean fitness of an agent as it was [j] generations ago: the
    mean of the last ten of the fitnesses it had then. *)
Definition recent_mean_fitness_ago (j : nat) (a : Agent) : Float :=
  np_mean (py_lastn 10 (firstn (List.length (fitness a) - j) (fitness a))).

(** The early-stop condition as the spec words it: the target has been
    sustained across [k] generations, that is, the recent mean fitness was
    strictly greater than the target at the end of each of the last [k]
    generations. *)
Definition sustained (tgt : Float) (k : nat) (a : Agent) : bool :=
  forallb (fun j => np_greater (recent_mean_fitness_ago j a) tgt) (seq 0 k).


(** Two computations that do the same from every state. *)
Definition same {A} (m1 m2 : M A) : Prop := forall s, m1 s = m2 s.

End Observables.

(* ================================================================== *)
(** ** A scripted world, to run the loop on concrete inputs *)
(* ================================================================== *)

Module Scripted.

(** The outside world of the scripted runs: an environment whose episodes
    last [episode_len] steps, a replay memory that only counts, a clock. *)
Record World : Type := {
  ids : list PyKey;        (* env.agents *)
  episode_len : Z;         (* an episode ends every [episode_len] steps;
                              0: never *)
  flags_as_arrays : bool;  (* done/truncation values are 1-element arrays *)
  t : Z;                   (* steps since the last reset *)
  mem_len : Z;
  mem_counter : Z;
  clock : Z
}.

Definition tick (w : World) : World :=
  {| ids := ids w; episode_len := episode_len w;
     flags_as_arrays := flags_as_arrays w; t := t w + 1;
     mem_len := mem_len w; mem_counter := mem_counter w; clock := clock w |}.

Definition reset_t (w : World) : World :=
  {| ids := ids w; episode_len := episode_len w;
     flags_as_arrays := flags_as_arrays w; t := 0;
     mem_len := mem_len w; mem_counter := mem_counter w; clock := clock w |}.

Definition store (w : World) : World :=
  {| ids := ids w; episode_len := episode_len w;
     flags_as_arrays := flags_as_arrays w; t := t w;
     mem_len := mem_len w + 1; mem_counter := mem_counter w + 1;
     clock := clock w |}.

Definition advance_clock (w : World) : World :=
  {| ids := ids w; episode_len := episode_len w;
     flags_as_arrays := flags_as_arrays w; t := t w;
     mem_len := mem_len w; mem_counter := mem_counter w;
     clock := clock w + 1 |}.

#[export] Instance domain : Domain := {|
  Ext := World;
  Obs := Dict (list Float);
  Act := Dict (list Float);
  InfoVal := unit;
  Core := unit;
  Experiences := unit;
  CfgVal := unit;
  Tournament := unit;
  Mutations := unit
|}.

(** A 6-dimensional continuous observation and a 2-dimensional continuous
    action for every agent identity. *)
Definition zeros_obs (w : World) : Dict (list Float) :=
  dict_fromkeys (ids w) (repeat fzero 6).

Definition zeros_act (w : World) : Dict (list Float) :=
  dict_fromkeys (ids w) (repeat fzero 2).

Definition flag (w : World) (b : bool) : Cell bool :=
  if flags_as_arrays w then Vec [b] else Scalar b.

Definition scripted_step (w : World) (_ : Dict (list Float))
  : World * StepResult :=
  let w' := tick w in
  let over := negb (Z.eqb (episode_len w) 0)
              && Z.eqb (t w') (episode_len w) in
  (w', {| next_state := zeros_obs w;
          reward := dict_fromkeys (ids w) (Scalar (Some 1%Q));
          done := dict_fromkeys (ids w) (flag w false);
          truncation := dict_fromkeys (ids w) (flag w over);
          step_info := [] |}).

(** [test] returns the fitness 1.0 and, as the agents of the repository
    do, appends it to the agent's fitness history. *)
Definition scripted_test (w : World) (a : Agent) (_ : bool) (_ : option Z)
  (_ : Z) : World * Agent * Float :=
  (w,
   {| steps := steps a; scores := scores a;
      fitness := fitness a ++ [Some 1%Q];
      learn_step := learn_step a; batch_size := batch_size a;
      discrete_actions := discrete_actions a; index := index a;
      mut := mut a; lr_actor := lr_actor a; lr_critic := lr_critic a;
      core := core a |},
   Some 1%Q).

(** The mean of the scripted world: exact on the rationals.  The runs below
    average fitnesses and scores that are small integers, ten at most at a
    time, and compare the result with targets well apart from it, so that
    the comparisons come out as they do in binary64. *)
Definition exact_mean (l : list Float) : Float :=
  match l with
  | [] => None
  | _ =>
      match fsum l with
      | Some s => Some (s / inject_Z (Z.of_nat (List.length l)))%Q
      | None => None
      end
  end.

#[export] Instance collaborators : Collaborators := {|
  env_reset := fun w => (reset_t w, (zeros_obs w, []));
  env_step := scripted_step;
  getAction := fun w a _ _ _ => (w, a, (zeros_act w, zeros_act w));
  learn := fun w a _ =>
    (w, a, dict_fromkeys (ids w) (Some (Some 1%Q), Some 1%Q));
  test := scripted_test;
  reset_action_noise := fun a _ => a;
  unwrap_models := fun a => a;
  wrap_models := fun a => a;
  saveCheckpoint := fun w _ _ => w;
  loadCheckpoint := fun w a _ => (w, a);
  save2memory := fun w _ _ _ _ _ _ => store w;
  memory_len := mem_len;
  memory_counter := mem_counter;
  sample := fun w _ _ => (w, tt);
  tournament_select := fun _ w l =>
    (w, (hd {| steps := []; scores := []; fitness := []; learn_step := 1;
               batch_size := 1; discrete_actions := false; index := 0;
               mut := ""; lr_actor := None; lr_critic := None;
               core := tt |} l, l));
  mutation_mutation := fun _ w l _ => (w, l);
  moveaxis := fun o => o;
  expand_dims := fun o => o;
  squeeze := fun o => o;
  datetime_now := fun w => (advance_clock w, str_of_int (clock w));
  wandb_has_api := fun _ => true;
  path_exists := fun _ _ => true;
  makedirs := fun w _ => w;
  np_mean := exact_mean;
  np_mean_nil := eq_refl
|}.

Definition world (agent_ids : list PyKey) (episode_len : Z)
  (flags_as_arrays : bool) : World :=
  {| ids := agent_ids; episode_len := episode_len;
     flags_as_arrays := flags_as_arrays; t := 0; mem_len := 0;
     mem_counter := 0; clock := 0 |}.

(** A freshly initialised agent: no score, no fitness, step counter [0]. *)
Definition new_agent (i : Z) : Agent :=
  {| steps := [0]; scores := []; fitness := []; learn_step := 5;
     batch_size := 64; discrete_actions := false; index := i; mut := "None";
     lr_actor := Some (1 # 1000)%Q; lr_critic := Some (1 # 100)%Q;
     core := tt |}.

(** Default arguments of [train_multi_agent], with the step budget, the
    evolution window and the checkpoint interval as given. *)
Definition params (max_steps evo_steps : Z) (tgt : option Float)
  (ck : option Z) : Params :=
  {| env_name := "env"; algo := "MATD3"; INIT_HP := None; MUT_P := None;
     net_config := None; swap_channels := false; max_steps := max_steps;
     evo_steps := evo_steps; eval_steps := None; eval_loop := 1;
     learning_delay := 0; target := tgt; tournament := None;
     mutation := None; checkpoint := ck; checkpoint_path := None;
     save_elite := false; elite_path := None; wb := false; verbose := true;
     accelerator := None; wandb_api_key := None |}.

(** The same call with both save paths given and neither flag set. *)
Definition params_with_paths : Params :=
  {| env_name := "env"; algo := "MATD3"; INIT_HP := None; MUT_P := None;
     net_config := None; swap_channels := false; max_steps := 200;
     evo_steps := 25; eval_steps := None; eval_loop := 1;
     learning_delay := 0; target := None; tournament := None;
     mutation := None; checkpoint := None; checkpoint_path := Some "run.pt";
     save_elite := false; elite_path := Some "elite.pt"; wb := false;
     verbose := true; accelerator := None; wandb_api_key := None |}.

Definition plain_env (agent_ids : list PyKey) : Env :=
  {| agents := agent_ids; wrapper_num_envs := None |}.

Definition vector_env (agent_ids : list PyKey) (n : Z) : Env :=
  {| agents := agent_ids; wrapper_num_envs := Some n |}.

Definition string_ids : list PyKey := [KStr "agent_0"; KStr "other_agent_0"].
Definition int_ids : list PyKey := [KInt 0; KInt 1].

(** The end-to-end scenario: two agents, [max_steps=200], [evo_steps=25],
    a single non-vectorised environment. *)
Definition scenario (agent_ids : list PyKey) (episode_len : Z)
  (flags_as_arrays : bool) (ck : option Z) :=
  train_multi_agent (params 200 25 None ck) (plain_env agent_ids) 20
    [new_agent 0; new_agent 1] (world agent_ids episode_len flags_as_arrays).

(** The scenario with both save paths given and neither flag set. *)
Definition scenario_with_paths :=
  train_multi_agent params_with_paths (plain_env int_ids) 20
    [new_agent 0; new_agent 1] (world int_ids 25 true).

(** The scenario on four parallel environments behind the vectorisation
    wrapper. *)
Definition scenario_vectorised :=
  train_multi_agent (params 200 25 None None) (vector_env string_ids 4) 20
    [new_agent 0; new_agent 1] (world string_ids 25 true).

(** The scenario started on agents that have used up their step budget. *)
Definition trained_agent (i : Z) : Agent :=
  {| steps := [200; 200]; scores := [Some 25%Q]; fitness := [Some 1%Q];
     learn_step := 5; batch_size := 64; discrete_actions := false;
     index := i; mut := "None"; lr_actor := Some (1 # 1000)%Q;
     lr_critic := Some (1 # 100)%Q; core := tt |}.

Definition scenario_budget_spent :=
  train_multi_agent (params 200 25 None None) (plain_env string_ids) 20
    [trained_agent 0; trained_agent 1] (world string_ids 25 true).

(** The locals at the end of the second generation of a run with
    [checkpoint=50]: both agents at 50 steps, no round written yet. *)
Definition two_generations_in : St :=
  {| ext := world int_ids 25 true;
     pop := [set_steps (new_agent 0) [25; 50];
             set_steps (new_agent 1) [25; 50]];
     total_steps := 100; checkpoint_count := 0;
     pop_fitnesses := [[Some 1%Q; Some 1%Q]; [Some 1%Q; Some 1%Q]];
     pop_actor_loss := []; pop_critic_loss := [] |}.

(** The number of checkpoint rounds written at the end of each generation
    of a verbose run, read off the events: a generation ends with its
    progress report, and a round with its confirmation. *)
Definition written_per_generation (ev : list Event) : list nat :=
  snd (fold_right
         (fun e acc =>
            match e with
            | PrintSavedCheckpoint => (S (fst acc), snd acc)
            | PrintStats _ _ _ _ _ _ _ _ => (O, fst acc :: snd acc)
            | _ => acc
            end)
         (O, []) ev).

(** The checkpoint claim as the spec words it: one round each time the
    interval has elapsed.  [elapsed] lists, generation by generation, how
    much has elapsed at its end, in the unit of the interval; by then the
    rounds written so far are as many as the whole intervals elapsed. *)
Definition once_per_interval (interval : Z) (elapsed : list Z)
  (written : list nat) : Prop :=
  forall g e, nth_error elapsed g = Some e ->
              Z.of_nat (fold_right Nat.add O (firstn (S g) written))
              = e / interval.

Definition elapsed_steps : list Z := [25; 50; 75; 100; 125; 150; 175; 200].



(** The locals of a rollout window after its first step: one running score,
    no episode completed yet. *)
Definition first_step_rollout : Rollout :=
  {| r_state := zeros_obs (world int_ids 25 true); r_info := [];
     r_scores := [Some 1%Q]; r_losses := dict_fromkeys int_ids [];
     r_completed := []; r_steps := 1 |}.

(** An agent that comes with a history: 98 generations played elsewhere,
    each evaluated to the fitness 0, and a step history of 99 entries. *)
Definition veteran (i : Z) : Agent :=
  {| steps := repeat 0 99; scores := []; fitness := repeat (Some 0%Q) 98;
     learn_step := 5; batch_size := 64; discrete_actions := false;
     index := i; mut := "None"; lr_actor := Some (1 # 1000)%Q;
     lr_critic := Some (1 # 100)%Q; core := tt |}.

(** The scenario with the target 0.05, started on two such agents. *)
Definition scenario_veterans :=
  train_multi_agent (params 200 25 (Some (Some (1 # 20)%Q)) None)
    (plain_env int_ids) 20 [veteran 0; veteran 1] (world int_ids 25 true).

(** The scenario with the target 0.5, started on fresh agents. *)
Definition scenario_with_target :=
  train_multi_agent (params 200 25 (Some (Some (1 # 2)%Q)) None)
    (plain_env int_ids) 20 [new_agent 0; new_agent 1] (world int_ids 25 true).

(** The locals of that call when it reaches the loop. *)
Definition veterans_at_loop : St :=
  snd (fst (setup_after_checks (params 200 25 (Some (Some (1 # 20)%Q)) None)
              (plain_env int_ids)
              (initial_state (world int_ids 25 true)
                             [veteran 0; veteran 1]))).


End Scripted.

(* ================================================================== *)
(** ** The MATD3 agent: soft update, delayed policy update, action scaling *)
(* ================================================================== *)

Module MATD3.

Section Networks.

(** Tensors and their arithmetic belong to the tensor library: the agent
    only combines them. *)
Variable Tensor : Type.
Variable Num : Type.
Variable Batch : Type.
Variable Loss : Type.
Variable scale : Num -> Tensor -> Tensor.     (* c * t *)
Variable tadd : Tensor -> Tensor -> Tensor.      (* t + u *)
Variable tmin : Tensor -> Tensor -> Tensor.      (* elementwise minimum *)
Variable ssub : Num -> Num -> Num.      (* a - b *)
Variable sone : Num.                          (* 1.0 *)

(** A network, as [parameters()] lists it. *)
Definition Net : Type := list Tensor.

(** Modelled from the spec: [soft_update] and the agent that owns it
    (agilerl/algorithms/matd3.py) are not among the sources; the spec gives
    the update as [target = tau*live + (1-tau)*target] for every parameter
    tensor, and the repository's test pairs the parameters with [zip]. *)
Definition blend (tau : Num) (theta theta' : Tensor) : Tensor :=
  tadd (scale tau theta) (scale (ssub sone tau) theta').

Fixpoint soft_update (tau : Num) (net target : Net) : Net :=
  match net, target with
  | theta :: net', theta' :: target' =>
      blend tau theta theta' :: soft_update tau net' target'
  | _, _ => target
  end.

(** The networks of one agent identity. *)
Record Nets : Type := {
  actor : Net;
  actor_target : Net;
  critic_1 : Net;
  critic_target_1 : Net;
  critic_2 : Net;
  critic_target_2 : Net
}.

(** [soft_update] applied to the actor and to both critics. *)
Definition soft_update_targets (tau : Num) (n : Nets) : Nets :=
  {| actor := actor n;
     actor_target := soft_update tau (actor n) (actor_target n);
     critic_1 := critic_1 n;
     critic_target_1 := soft_update tau (critic_1 n) (critic_target_1 n);
     critic_2 := critic_2 n;
     critic_target_2 := soft_update tau (critic_2 n) (critic_target_2 n) |}.

(** The forward passes, losses and optimizer steps are the tensor
    library's. *)
Variable target_q : Net -> Net -> Batch -> Tensor.
  (* a target critic evaluated on the target actor's action *)
Variable bellman : Batch -> Tensor -> Tensor.
  (* reward + gamma * (1 - done) * q *)
Variable critic_step : Net -> Tensor -> Batch -> Net.
Variable critic_loss : Net -> Net -> Tensor -> Batch -> Loss.
Variable actor_step : Net -> Net -> Net -> Batch -> Net.
  (* the actor, then the two critics it is scored by *)
Variable actor_loss : Net -> Net -> Net -> Batch -> Loss.

Record Agent : Type := {
  agent_ids : list PyKey;
  nets : list Nets;        (* one entry per agent identity *)
  learn_counter : Z;
  policy_freq : Z;
  tau : Num
}.

(** The learning target: the minimum over the twin target critics. *)
Definition learning_target (n : Nets) (b : Batch) : Tensor :=
  bellman b (tmin (target_q (critic_target_1 n) (actor_target n) b)
                  (target_q (critic_target_2 n) (actor_target n) b)).

(** The critic update of one identity. *)
Definition update_critics (n : Nets) (b : Batch) : Nets :=
  let y := learning_target n b in
  {| actor := actor n; actor_target := actor_target n;
     critic_1 := critic_step (critic_1 n) y b;
     critic_target_1 := critic_target_1 n;
     critic_2 := critic_step (critic_2 n) y b;
     critic_target_2 := critic_target_2 n |}.

(** The actor update of one identity, on the critics as they are now. *)
Definition update_actor (n : Nets) (b : Batch) : Nets :=
  {| actor := actor_step (actor n) (critic_1 n) (critic_2 n) b;
     actor_target := actor_target n;
     critic_1 := critic_1 n; critic_target_1 := critic_target_1 n;
     critic_2 := critic_2 n; critic_target_2 := critic_target_2 n |}.

(** Modelled from the spec: [learn] (agilerl/algorithms/matd3.py) is not
    among the sources.  One call regresses both critics; the actor is
    updated only when the update counter is a multiple of [policy_freq], and
    after the critic update; the targets are soft-updated on the calls that
    update the actor; the loss report has the critic loss always and the
    actor loss on update calls only. *)
Definition learn_individual (update : bool) (t : Num) (n : Nets)
  (b : Batch) : Nets * (option Loss * Loss) :=
  let y := learning_target n b in
  let n1 := update_critics n b in
  let closs := critic_loss (critic_1 n) (critic_2 n) y b in
  if update then
    let aloss := actor_loss (actor n1) (critic_1 n1) (critic_2 n1) b in
    (soft_update_targets t (update_actor n1 b), (Some aloss, closs))
  else (n1, (None, closs)).

Definition learn (a : Agent) (b : Batch)
  : outcome (Agent * list (PyKey * (option Loss * Loss))) :=
  match py_mod (learn_counter a) (policy_freq a) with
  | Ok m =>
      let update := Z.eqb m 0 in
      let results := map (fun n => learn_individual update (tau a) n b)
                         (nets a) in
      Ok ({| agent_ids := agent_ids a; nets := map fst results;
             learn_counter := learn_counter a + 1;
             policy_freq := policy_freq a; tau := tau a |},
          combine (agent_ids a) (map snd results))
  | Raise e => Raise e
  | OutOfFuel => OutOfFuel
  end.

(** A sequence of [learn] calls; the result lists the agent after each. *)
Fixpoint learn_all (a : Agent) (bs : list Batch) : outcome (list Agent) :=
  match bs with
  | [] => Ok []
  | b :: bs' =>
      match learn a b with
      | Ok (a', _) =>
          match learn_all a' bs' with
          | Ok l => Ok (a' :: l)
          | Raise e => Raise e
          | OutOfFuel => OutOfFuel
          end
      | Raise e => Raise e
      | OutOfFuel => OutOfFuel
      end
  end.

End Networks.

(** A toy tensor library on integers, to run the agent on concrete
    batches: a tensor is an integer, a batch the reward it carries. *)
Definition toy_target_q (critic actor_t : Net Z) (_ : Z) : Z :=
  hd 0 critic + hd 0 actor_t.

Definition toy_critic_step (critic : Net Z) (y : Z) (_ : Z) : Net Z :=
  map (fun w => w + y) critic.

Definition toy_actor_step (act c1 c2 : Net Z) (_ : Z) : Net Z :=
  map (fun w => w + hd 0 c1 + hd 0 c2) act.

Definition toy_learn_all :=
  learn_all Z.mul Z.add Z.min Z.sub 1 toy_target_q Z.add toy_critic_step
            (fun _ _ y _ => y) toy_actor_step (fun _ c1 _ _ => hd 0 c1).

Definition toy_nets : Nets Z :=
  {| actor := [1; 2]; actor_target := [1; 2];
     critic_1 := [3]; critic_target_1 := [3];
     critic_2 := [5]; critic_target_2 := [5] |}.

Definition toy_agent : Agent Z Z :=
  {| agent_ids := [KStr "agent_0"; KStr "agent_1"];
     nets := [toy_nets; toy_nets];
     learn_counter := 0; policy_freq := 2; tau := 1 |}.

(** The output activations the spec's action scaling covers. *)
Inductive Activation : Type := Tanh | Sigmoid | GumbelSoftmax.

(** The range an activation's output lies in before scaling. *)
Definition pre_scaled_range (act : Activation) : Q * Q :=
  match act with
  | Tanh => ((-1)%Q, 1%Q)
  | Sigmoid | GumbelSoftmax => (0%Q, 1%Q)
  end.

(** The position of [v] inside the pre-scaled range, between 0 and 1. *)
Definition fraction (act : Activation) (v : Q) : Q :=
  ((v - fst (pre_scaled_range act))
   / (snd (pre_scaled_range act) - fst (pre_scaled_range act)))%Q.

(** Modelled from the spec: [scale_to_action_space]
    (agilerl/algorithms/matd3.py) is not among the sources.  A Tanh output
    in [-1,1] is mapped linearly onto [min,max]; a Sigmoid or GumbelSoftmax
    output in [0,1] by [value*(max-min)+min]. *)
Definition scale_value (act : Activation) (mn mx v : Q) : Q :=
  match act with
  | Tanh => (mn + (mx - mn) * (v - (-1)) / (1 - (-1)))%Q
  | Sigmoid | GumbelSoftmax => (v * (mx - mn) + mn)%Q
  end.

(** The per-agent configuration the scaling reads. *)
Record ActionSpace : Type := {
  output_activation : list Activation;   (* actors[idx].mlp_output_activation *)
  min_action : list Q;
  max_action : list Q
}.

Definition scale_to_action_space (sp : ActionSpace) (action : list Q)
  (idx : nat) : outcome (list Q) :=
  match nth_error (output_activation sp) idx,
        nth_error (min_action sp) idx, nth_error (max_action sp) idx with
  | Some act, Some mn, Some mx => Ok (map (scale_value act mn mx) action)
  | _, _, _ => Raise IndexError
  end.

(** The agent of the repository's scaling test: five identities. *)
Definition test_space : ActionSpace :=
  {| output_activation := [Tanh; Tanh; Sigmoid; GumbelSoftmax; Tanh];
     min_action := [-1; -2; 0; 0; -1]%Q;
     max_action := [1; 2; 1; 2; 2]%Q |}.

End MATD3.

(* ================================================================== *)
(** ** Evolvable networks: the parameter-preserving rebuild *)
(* ================================================================== *)

Module Evolvable.

Local Open Scope nat_scope.

(** The layers of a multi-layer perceptron and the parameters they own. *)
Inductive LayerName : Type :=
| Hidden (i : nat)
| Output.

Inductive ParamName : Type :=
| Weight (l : LayerName)
| Bias (l : LayerName).

Definition layer_eqb (a b : LayerName) : bool :=
  match a, b with
  | Hidden i, Hidden j => Nat.eqb i j
  | Output, Output => true
  | _, _ => false
  end.

Definition param_eqb (a b : ParamName) : bool :=
  match a, b with
  | Weight x, Weight y => layer_eqb x y
  | Bias x, Bias y => layer_eqb x y
  | _, _ => false
  end.

(** The descriptor of a perceptron and the bounds of its mutations. *)
Record Arch : Type := {
  num_inputs : nat;
  num_outputs : nat;
  hidden_size : list nat
}.

Record Bounds : Type := {
  min_hidden_layers : nat;
  max_hidden_layers : nat;
  min_mlp_nodes : nat;
  max_mlp_nodes : nat
}.

Definition with_hidden_size (a : Arch) (hs : list nat) : Arch :=
  {| num_inputs := num_inputs a; num_outputs := num_outputs a;
     hidden_size := hs |}.

Section Rebuild.

(** A parameter value: the bit pattern of a float.  The rebuild copies
    values and never computes with them. *)
Variable V : Type.

(** A parameter tensor, as rows: a weight has one row per output feature, a
    bias one single-entry row per output feature. *)
Definition Tensor : Type := list (list V).

Definition Network : Type := list (ParamName * Tensor).

(** The values a freshly built network is initialised with, by seed,
    parameter and position. *)
Variable Seed : Type.
Variable fresh : Seed -> ParamName -> nat -> nat -> V.

Definition entry (t : Tensor) (i j : nat) : option V :=
  match nth_error t i with
  | Some row => nth_error row j
  | None => None
  end.

Fixpoint lookup (net : Network) (name : ParamName) : option Tensor :=
  match net with
  | [] => None
  | (n, t) :: net' => if param_eqb name n then Some t else lookup net' name
  end.

Definition matrix (rows cols : nat) (f : nat -> nat -> V) : Tensor :=
  map (fun i => map (fun j => f i j) (seq 0 cols)) (seq 0 rows).

(** The layers of a descriptor with their (out, in) sizes. *)
Fixpoint hidden_layers (i fan_in : nat) (hs : list nat)
  : list (LayerName * nat * nat) :=
  match hs with
  | [] => [(Output, 0, fan_in)]
  | h :: hs' => (Hidden i, h, fan_in) :: hidden_layers (S i) h hs'
  end.

Definition layers (a : Arch) : list (LayerName * nat * nat) :=
  map (fun l => match l with
                | (Output, _, fan_in) => (Output, num_outputs a, fan_in)
                | other => other
                end)
      (hidden_layers 0 (num_inputs a) (hidden_size a)).

(** Step (3) of the rebuild protocol: a fresh network for a descriptor. *)
Definition build (sd : Seed) (a : Arch) : Network :=
  flat_map (fun l =>
              let '(name, out, fan_in) := l in
              [ (Weight name, matrix out fan_in (fresh sd (Weight name)));
                (Bias name, matrix out 1 (fresh sd (Bias name))) ])
           (layers a).

(** The old values laid over the new ones wherever both have a position:
    the result has the shape of [new]. *)
Fixpoint overlay {A} (old new : list A) : list A :=
  match old, new with
  | o :: old', _ :: new' => o :: overlay old' new'
  | _, _ => new
  end.

Fixpoint overlay2 (old new : Tensor) : Tensor :=
  match old, new with
  | o :: old', n :: new' => overlay o n :: overlay2 old' new'
  | _, _ => new
  end.

(** Modelled from the spec: the rebuild of [MakeEvolvable]
    (agilerl/wrappers/make_evolvable.py) is not among the sources.  Step (4)
    of the rebuild protocol: every old parameter tensor is copied into the
    corresponding slice of the new tensor of the same name; growth keeps the
    freshly initialised values outside the slice, shrink truncates. *)
Definition preserve_parameters (old new : Network) : Network :=
  map (fun nt =>
         match lookup old (fst nt) with
         | Some t_old => (fst nt, overlay2 t_old (snd nt))
         | None => nt
         end) new.

Record EvolvableMLP : Type := {
  arch : Arch;
  bounds : Bounds;
  value_net : Network
}.

(** [recreate_nets]: rebuild the live network from the current descriptor,
    keeping the old parameters. *)
Definition recreate_nets (sd : Seed) (e : EvolvableMLP) : EvolvableMLP :=
  {| arch := arch e; bounds := bounds e;
     value_net := preserve_parameters (value_net e) (build sd (arch e)) |}.

(** Steps (2)-(5): change the descriptor, then rebuild. *)
Definition rebuild_with (sd : Seed) (e : EvolvableMLP) (hs : list nat)
  : EvolvableMLP :=
  recreate_nets sd {| arch := with_hidden_size (arch e) hs;
                      bounds := bounds e; value_net := value_net e |}.

Fixpoint insert_at {A} (pos : nat) (x : A) (l : list A) : list A :=
  match pos, l with
  | O, _ => x :: l
  | S k, h :: t => h :: insert_at k x t
  | S _, [] => [x]
  end.

Fixpoint remove_at {A} (pos : nat) (l : list A) : list A :=
  match pos, l with
  | _, [] => []
  | O, _ :: t => t
  | S k, h :: t => h :: remove_at k t
  end.

(** The width of a layer next to position [pos]. *)
Definition adjacent_width (pos : nat) (hs : list nat) : option nat :=
  match nth_error hs (pos - 1) with
  | Some w => Some w
  | None => nth_error hs 0
  end.

(** Modelled from the spec: the mutation operators of section 4.2.  The
    random choices (position, layer, number of nodes) are arguments; a
    mutation outside the bounds leaves the network unchanged. *)
Definition add_mlp_layer (sd : Seed) (pos : nat) (e : EvolvableMLP)
  : EvolvableMLP :=
  let hs := hidden_size (arch e) in
  if (List.length hs <? max_hidden_layers (bounds e))%nat then
    match adjacent_width pos hs with
    | Some w => rebuild_with sd e (insert_at pos w hs)
    | None => e
    end
  else e.

Definition remove_mlp_layer (sd : Seed) (pos : nat) (e : EvolvableMLP)
  : EvolvableMLP :=
  let hs := hidden_size (arch e) in
  if (min_hidden_layers (bounds e) <? List.length hs)%nat
     && (pos <? List.length hs)%nat
  then rebuild_with sd e (remove_at pos hs)
  else e.

Definition add_mlp_node (sd : Seed) (layer numb_new_nodes : nat)
  (e : EvolvableMLP) : EvolvableMLP :=
  let hs := hidden_size (arch e) in
  match nth_error hs layer with
  | Some w =>
      if (w + numb_new_nodes <=? max_mlp_nodes (bounds e))%nat
      then rebuild_with sd e (list_set hs layer (w + numb_new_nodes)%nat)
      else e
  | None => e
  end.

Definition remove_mlp_node (sd : Seed) (layer numb_new_nodes : nat)
  (e : EvolvableMLP) : EvolvableMLP :=
  let hs := hidden_size (arch e) in
  match nth_error hs layer with
  | Some w =>
      if (numb_new_nodes <? w)%nat
         && (min_mlp_nodes (bounds e) <=? w - numb_new_nodes)%nat
      then rebuild_with sd e (list_set hs layer (w - numb_new_nodes)%nat)
      else e
  | None => e
  end.

(** The supported mutations of a perceptron. *)
Inductive Mutation : Type :=
| AddLayer (pos : nat)
| RemoveLayer (pos : nat)
| AddNode (layer numb_new_nodes : nat)
| RemoveNode (layer numb_new_nodes : nat)
| Recreate (new_hidden_size : list nat).
  (* the hidden-size list grown or shrunk by hand, then [recreate_nets] *)

Definition mutate (sd : Seed) (m : Mutation) (e : EvolvableMLP)
  : EvolvableMLP :=
  match m with
  | AddLayer pos => add_mlp_layer sd pos e
  | RemoveLayer pos => remove_mlp_layer sd pos e
  | AddNode layer n => add_mlp_node sd layer n e
  | RemoveNode layer n => remove_mlp_node sd layer n e
  | Recreate hs => rebuild_with sd e hs
  end.

(** An evolvable network made from a descriptor. *)
Definition make_evolvable (sd : Seed) (a : Arch) (b : Bounds) : EvolvableMLP :=
  {| arch := a; bounds := b; value_net := build sd a |}.

End Rebuild.

(** The perceptron of the repository's rebuild tests:
    [Linear(10,20), ReLU, Linear(20,10), ReLU, Linear(10,1), Tanh]; its
    values are tagged by the seed that created them. *)
Definition simple_mlp : Arch :=
  {| num_inputs := 10; num_outputs := 1; hidden_size := [20; 10]%nat |}.

Definition default_bounds : Bounds :=
  {| min_hidden_layers := 1; max_hidden_layers := 3;
     min_mlp_nodes := 8; max_mlp_nodes := 500 |}.

Definition tagged (sd : nat) (name : ParamName) (i j : nat)
  : nat * ParamName * nat * nat := (sd, name, i, j).

Definition test_net : EvolvableMLP (nat * ParamName * nat * nat) :=
  make_evolvable tagged 0 simple_mlp default_bounds.

(** [add_mlp_layer] on the test network, rebuilt with seed 1. *)
Definition grown_net : EvolvableMLP (nat * ParamName * nat * nat) :=
  mutate tagged 1 (AddLayer 2) test_net.

End Evolvable.

(* ================================================================== *)
(** * Properties *)
(* ================================================================== *)

(* ------------------------------------------------------------------ *)
(** ** Evolvable networks *)

Section EvolvableFacts.
Import Evolvable.
Variable V : Type.
Variable Seed : Type.
Variable fresh : Seed -> ParamName -> nat -> nat -> V.

Lemma layer_eqb_eq (a b : LayerName) : layer_eqb a b = true -> a = b.
Proof.
  destruct a, b; simpl; try discriminate; auto.
  intros E. apply Nat.eqb_eq in E. now subst.
Qed.

Lemma param_eqb_eq (a b : ParamName) : param_eqb a b = true -> a = b.
Proof.
  destruct a, b; simpl; try discriminate; intros E;
    apply layer_eqb_eq in E; now subst.
Qed.

Lemma overlay_nth {A} (old new : list A) (j : nat) (v0 v : A) :
  nth_error old j = Some v0 ->
  nth_error (overlay old new) j = Some v -> v = v0.
Proof.
  revert new j. induction old as [|o old IH]; intros new j H0 H1.
  - destruct j; discriminate.
  - destruct new as [|n new]; simpl in H1.
    + destruct j; discriminate.
    + destruct j as [|j]; simpl in *.
      * congruence.
      * eapply IH; eauto.
Qed.

Lemma entry_overlay2 (old new : Tensor V) (i j : nat) (v0 v : V) :
  entry old i j = Some v0 ->
  entry (overlay2 old new) i j = Some v -> v = v0.
Proof.
  unfold entry. revert new i.
  induction old as [|o old IH]; intros new i H0 H1.
  - destruct i; discriminate.
  - destruct new as [|n new]; simpl in H1.
    + destruct i; discriminate.
    + destruct i as [|i]; simpl in *.
      * eapply overlay_nth; eauto.
      * eapply IH; eauto.
Qed.

Lemma lookup_preserve (old new : Network V) (name : ParamName) :
  lookup (preserve_parameters old new) name =
  match lookup new name with
  | Some t => Some (match lookup old name with
                    | Some t0 => overlay2 t0 t
                    | None => t
                    end)
  | None => None
  end.
Proof.
  induction new as [|[n t] new IH]; simpl; [reflexivity|].
  destruct (lookup old n) as [t0|] eqn:E; simpl;
    destruct (param_eqb name n) eqn:En; auto;
    apply param_eqb_eq in En; subst; now rewrite E.
Qed.

(** Every position that the old and the rebuilt tensor of one name both have
    holds the old value. *)
Lemma rebuild_preserves (sd : Seed) (e : EvolvableMLP V) (hs : list nat)
  (name : ParamName) (t_old t_new : Tensor V) (i j : nat) (v_old v_new : V) :
  lookup (value_net e) name = Some t_old ->
  lookup (value_net (rebuild_with fresh sd e hs)) name = Some t_new ->
  entry t_old i j = Some v_old ->
  entry t_new i j = Some v_new ->
  v_new = v_old.
Proof.
  unfold rebuild_with, recreate_nets. simpl. intros Ho Hn Eo En.
  rewrite lookup_preserve, Ho in Hn.
  destruct (lookup (build fresh sd (with_hidden_size (arch e) hs)) name);
    [|discriminate].
  injection Hn as <-. eapply entry_overlay2; eauto.
Qed.

(** C1.  For every supported mutation of an evolvable perceptron (add or
    remove a hidden layer, add or remove nodes, and [recreate_nets] after the
    hidden-size list was grown or shrunk), every entry that the old and the
    new tensor of the same name both have is identical after the rebuild. *)
Theorem mutation_preserves_parameters (sd : Seed) (m : Mutation)
  (e : EvolvableMLP V) (name : ParamName) (t_old t_new : Tensor V)
  (i j : nat) (v_old v_new : V) :
  lookup (value_net e) name = Some t_old ->
  lookup (value_net (mutate fresh sd m e)) name = Some t_new ->
  entry t_old i j = Some v_old ->
  entry t_new i j = Some v_new ->
  v_new = v_old.
Proof.
  intros Ho Hn Eo En.
  assert (Same : lookup (value_net e) name = Some t_new -> v_new = v_old)
    by (intros H; congruence).
  destruct m as [pos|pos|layer n|layer n|hs]; simpl in Hn; revert Hn.
  - unfold add_mlp_layer.
    destruct (_ <? _)%nat; [|exact Same].
    destruct (adjacent_width _ _); [|exact Same].
    intros Hn; exact (rebuild_preserves _ _ _ _ _ _ Ho Hn Eo En).
  - unfold remove_mlp_layer.
    destruct (_ && _); [|exact Same].
    intros Hn; exact (rebuild_preserves _ _ _ _ _ _ Ho Hn Eo En).
  - unfold add_mlp_node.
    destruct (nth_error _ _); [|exact Same].
    destruct (_ <=? _)%nat; [|exact Same].
    intros Hn; exact (rebuild_preserves _ _ _ _ _ _ Ho Hn Eo En).
  - unfold remove_mlp_node.
    destruct (nth_error _ _); [|exact Same].
    destruct (_ && _); [|exact Same].
    intros Hn; exact (rebuild_preserves _ _ _ _ _ _ Ho Hn Eo En).
  - intros Hn; exact (rebuild_preserves _ _ _ _ _ _ Ho Hn Eo En).
Qed.

End EvolvableFacts.

(** Adding a hidden layer to the perceptron of the repository's test keeps
    the first weight of the first layer: it still carries seed 0. *)
Lemma mutation_preserves_parameters_witness :
  exists t_old t_new,
    Evolvable.lookup (Evolvable.value_net Evolvable.test_net)
      (Evolvable.Weight (Evolvable.Hidden 0)) = Some t_old /\
    Evolvable.lookup (Evolvable.value_net Evolvable.grown_net)
      (Evolvable.Weight (Evolvable.Hidden 0)) = Some t_new /\
    Evolvable.entry t_old 0 0
    = Some (Evolvable.tagged 0 (Evolvable.Weight (Evolvable.Hidden 0)) 0 0) /\
    Evolvable.entry t_new 0 0
    = Some (Evolvable.tagged 0 (Evolvable.Weight (Evolvable.Hidden 0)) 0 0).
Proof.
  destruct (Evolvable.lookup (Evolvable.value_net Evolvable.test_net)
              (Evolvable.Weight (Evolvable.Hidden 0))) as [t_old|] eqn:Ho;
    [|vm_compute in Ho; discriminate Ho].
  destruct (Evolvable.lookup (Evolvable.value_net Evolvable.grown_net)
              (Evolvable.Weight (Evolvable.Hidden 0))) as [t_new|] eqn:Hn;
    [|vm_compute in Hn; discriminate Hn].
  assert (Eo : Evolvable.entry t_old 0 0
               = Some (Evolvable.tagged 0
                         (Evolvable.Weight (Evolvable.Hidden 0)) 0 0)).
  { vm_compute in Ho. injection Ho as <-. reflexivity. }
  destruct (Evolvable.entry t_new 0 0) as [v_new|] eqn:En.
  - exists t_old, t_new. repeat split; auto.
    rewrite En. f_equal.
    exact (mutation_preserves_parameters Evolvable.tagged 1%nat
             (Evolvable.AddLayer 2) Evolvable.test_net _ 0 0 Ho Hn Eo En).
  - vm_compute in Hn. injection Hn as <-. vm_compute in En. discriminate En.
Defined.

(* ------------------------------------------------------------------ *)
(** ** The MATD3 agent *)

Section MATD3Facts.
Import MATD3.
Variable Tensor : Type.
Variable Num : Type.
Variable Batch : Type.
Variable Loss : Type.
Variable scale : Num -> Tensor -> Tensor.
Variable tadd : Tensor -> Tensor -> Tensor.
Variable tmin : Tensor -> Tensor -> Tensor.
Variable ssub : Num -> Num -> Num.
Variable sone : Num.
Variable target_q : Net Tensor -> Net Tensor -> Batch -> Tensor.
Variable bellman : Batch -> Tensor -> Tensor.
Variable critic_step : Net Tensor -> Tensor -> Batch -> Net Tensor.
Variable critic_loss : Net Tensor -> Net Tensor -> Tensor -> Batch -> Loss.
Variable actor_step : Net Tensor -> Net Tensor -> Net Tensor -> Batch -> Net Tensor.
Variable actor_loss : Net Tensor -> Net Tensor -> Net Tensor -> Batch -> Loss.

Local Abbreviation soft_update := (MATD3.soft_update scale tadd ssub sone).
Local Abbreviation soft_update_targets := (MATD3.soft_update_targets scale tadd ssub sone).
Local Abbreviation learning_target := (MATD3.learning_target tmin target_q bellman).
Local Abbreviation learn :=
  (MATD3.learn scale tadd tmin ssub sone target_q bellman critic_step
               critic_loss actor_step actor_loss).
Local Abbreviation learn_all :=
  (MATD3.learn_all scale tadd tmin ssub sone target_q bellman critic_step
                   critic_loss actor_step actor_loss).

(** The parameter at position [i] of the target after one soft update. *)
Lemma soft_update_nth (tau : Num) (net target : Net Tensor) (i : nat) :
  nth_error (soft_update tau net target) i =
  match nth_error net i, nth_error target i with
  | Some theta, Some theta' =>
      Some (tadd (scale tau theta) (scale (ssub sone tau) theta'))
  | _, other => other
  end.
Proof.
  revert target i. induction net as [|theta net IH]; intros target i.
  - simpl. now destruct (nth_error target i); destruct i.
  - destruct target as [|theta' target]; simpl.
    + destruct i; simpl; [reflexivity|]. now destruct (nth_error net i).
    + destruct i as [|i]; simpl; [reflexivity|]. apply IH.
Qed.

Lemma soft_update_length (tau : Num) (net target : Net Tensor) :
  List.length (soft_update tau net target) = List.length target.
Proof.
  revert target. induction net as [|theta net IH]; intros [|theta' target];
    simpl; auto.
Qed.

(** C5.  One soft update sets every target parameter that has a live
    counterpart to [tau*theta + (1-tau)*theta'], for the actor and for both
    critics; the live networks are left as they are. *)
Theorem soft_update_exact (tau : Num) (n : Nets Tensor) (i : nat) :
  let blended (live target : Net Tensor) :=
    match nth_error live i, nth_error target i with
    | Some theta, Some theta' =>
        Some (tadd (scale tau theta) (scale (ssub sone tau) theta'))
    | _, other => other
    end in
  let n' := soft_update_targets tau n in
  nth_error (actor_target n') i = blended (actor n) (actor_target n) /\
  nth_error (critic_target_1 n') i
  = blended (critic_1 n) (critic_target_1 n) /\
  nth_error (critic_target_2 n') i
  = blended (critic_2 n) (critic_target_2 n) /\
  actor n' = actor n /\ critic_1 n' = critic_1 n /\ critic_2 n' = critic_2 n.
Proof.
  simpl. repeat split; apply soft_update_nth.
Qed.

(** One [learn] call, identity by identity. *)
Lemma learn_one_call (a a' : Agent Tensor Num) (b : Batch)
  (report : list (PyKey * (option Loss * Loss))) :
  learn a b = Ok (a', report) ->
  learn_counter a' = learn_counter a + 1 /\
  policy_freq a' = policy_freq a /\
  policy_freq a <> 0 /\
  map (@critic_1 _) (nets a')
  = map (fun n => critic_step (critic_1 n) (learning_target n b) b) (nets a) /\
  map (@critic_2 _) (nets a')
  = map (fun n => critic_step (critic_2 n) (learning_target n b) b) (nets a) /\
  (learn_counter a mod policy_freq a <> 0 ->
   map (@actor _) (nets a') = map (@actor _) (nets a) /\
   map (@actor_target _) (nets a') = map (@actor_target _) (nets a) /\
   Forall (fun r => fst (snd r) = None) report) /\
  (learn_counter a mod policy_freq a = 0 ->
   map (@actor _) (nets a')
   = map (fun n => actor_step (actor n)
                     (critic_step (critic_1 n) (learning_target n b) b)
                     (critic_step (critic_2 n) (learning_target n b) b) b)
         (nets a) /\
   Forall (fun r => fst (snd r) <> None) report).
Proof.
  unfold MATD3.learn, py_mod.
  destruct (policy_freq a =? 0) eqn:Epf; [discriminate|].
  apply Z.eqb_neq in Epf.
  intros H. injection H as <- <-. simpl.
  rewrite !map_map.
  split; [reflexivity|]. split; [reflexivity|]. split; [assumption|].
  split.
  { apply map_ext. intros n. unfold learn_individual.
    now destruct (_ =? 0). }
  split.
  { apply map_ext. intros n. unfold learn_individual.
    now destruct (_ =? 0). }
  split; intros Hm.
  - apply Z.eqb_neq in Hm. rewrite Hm.
    split; [|split]; try (apply map_ext; intros n; reflexivity).
    generalize (agent_ids a). induction (nets a) as [|n l IH];
      intros [|k ks]; simpl; constructor; auto.
  - apply Z.eqb_eq in Hm. rewrite Hm.
    split; [apply map_ext; intros n; reflexivity|].
    generalize (agent_ids a). induction (nets a) as [|n l IH];
      intros [|k ks]; simpl; constructor; auto. simpl. discriminate.
Qed.

Lemma learn_ok (a : Agent Tensor Num) (b : Batch) :
  policy_freq a <> 0 -> exists a' report, learn a b = Ok (a', report).
Proof.
  intros Hpf. unfold MATD3.learn, py_mod.
  apply Z.eqb_neq in Hpf. rewrite Hpf. eauto.
Qed.

(** C4.  Across any sequence of [learn] calls (k-th call: from [prev] to
    [cur] on batch [b]): both critics take an optimizer step on every call;
    the actor and its target are untouched unless the update counter is a
    multiple of [policy_freq], and when it is, the actor's step is taken on
    the critics as the same call has just updated them. *)
Theorem delayed_policy_update (a : Agent Tensor Num) (bs : list Batch) :
  policy_freq a <> 0 ->
  exists trace,
    learn_all a bs = Ok trace /\
    List.length trace = List.length bs /\
    forall (k : nat) (prev cur : Agent Tensor Num) (b : Batch),
      nth_error (a :: trace) k = Some prev ->
      nth_error trace k = Some cur ->
      nth_error bs k = Some b ->
      learn_counter prev = learn_counter a + Z.of_nat k /\
      map (@critic_1 _) (nets cur)
      = map (fun n => critic_step (critic_1 n) (learning_target n b) b)
            (nets prev) /\
      map (@critic_2 _) (nets cur)
      = map (fun n => critic_step (critic_2 n) (learning_target n b) b)
            (nets prev) /\
      (learn_counter prev mod policy_freq a <> 0 ->
       map (@actor _) (nets cur) = map (@actor _) (nets prev) /\
       map (@actor_target _) (nets cur) = map (@actor_target _) (nets prev)) /\
      (learn_counter prev mod policy_freq a = 0 ->
       map (@actor _) (nets cur)
       = map (fun n => actor_step (actor n)
                         (critic_step (critic_1 n) (learning_target n b) b)
                         (critic_step (critic_2 n) (learning_target n b) b) b)
             (nets prev)).
Proof.
  revert a. induction bs as [|b0 bs IH]; intros a Hpf.
  - exists []. split; [reflexivity|]. split; [reflexivity|].
    intros [|k] prev cur b _ Hcur; discriminate Hcur.
  - destruct (learn_ok a b0 Hpf) as (a1 & report & E).
    pose proof (learn_one_call _ _ E) as (Hc & Hp & _ & Hc1 & Hc2 & Hno & Hyes).
    assert (Hpf1 : policy_freq a1 <> 0) by congruence.
    destruct (IH a1 Hpf1) as (trace & Et & Hlen & Hall).
    exists (a1 :: trace). simpl. rewrite E, Et.
    split; [reflexivity|]. split; [simpl; congruence|].
    intros k prev cur b Hprev Hcur Hb.
    destruct k as [|k]; simpl in Hprev, Hcur, Hb.
    + injection Hprev as <-. injection Hcur as <-. injection Hb as <-.
      split; [lia|]. split; [exact Hc1|]. split; [exact Hc2|].
      split; [|exact (fun H => proj1 (Hyes H))].
      intros H. destruct (Hno H) as (? & ? & _). now split.
    + destruct (Hall k prev cur b Hprev Hcur Hb) as (Q1 & Q2 & Q3 & Q4 & Q5).
      rewrite Hp in Q4, Q5.
      split; [lia|]. split; [exact Q2|]. split; [exact Q3|].
      split; assumption.
Qed.

End MATD3Facts.

(** Four calls with [policy_freq = 2] on the toy agent. *)
Lemma delayed_policy_update_witness :
  MATD3.policy_freq MATD3.toy_agent <> 0 /\
  exists trace,
    MATD3.toy_learn_all MATD3.toy_agent [1; 1; 1; 1] = Ok trace /\
    List.length trace = 4%nat.
Proof.
  assert (Hpf : MATD3.policy_freq MATD3.toy_agent <> 0) by discriminate.
  split; [exact Hpf|].
  destruct (@delayed_policy_update Z Z Z Z Z.mul Z.add Z.min Z.sub 1
              MATD3.toy_target_q Z.add MATD3.toy_critic_step
              (fun _ _ y _ => y) MATD3.toy_actor_step
              (fun _ c1 _ _ => hd 0 c1) MATD3.toy_agent [1; 1; 1; 1] Hpf)
    as (trace & E & L & _).
  exists trace. split; [exact E|exact L].
Defined.

(* ------------------------------------------------------------------ *)
(** ** Action scaling *)

Section ActionScaling.
Import MATD3.
Local Open Scope Q_scope.

Lemma scale_tanh_affine (mn mx v : Q) :
  scale_value Tanh mn mx v == (mx - mn) / 2 * v + (mx + mn) / 2.
Proof. unfold scale_value. field. Qed.

Lemma scale_endpoints (act : Activation) (mn mx : Q) :
  scale_value act mn mx (fst (pre_scaled_range act)) == mn /\
  scale_value act mn mx (snd (pre_scaled_range act)) == mx.
Proof. destruct act; simpl; split; field. Qed.

Lemma scale_by_fraction (act : Activation) (mn mx v : Q) :
  scale_value act mn mx v == mn + (mx - mn) * fraction act v.
Proof. destruct act; unfold scale_value, fraction; simpl; field. Qed.

Lemma fraction_bounds (act : Activation) (v : Q) :
  fst (pre_scaled_range act) <= v <= snd (pre_scaled_range act) ->
  0 <= fraction act v <= 1.
Proof.
  destruct act; unfold fraction; simpl; intros [Hl Hh]; split;
    try (apply Qle_shift_div_l; [reflexivity|lra]);
    apply Qle_shift_div_r; try reflexivity; lra.
Qed.

Lemma scale_in_range (act : Activation) (mn mx v : Q) :
  mn <= mx ->
  fst (pre_scaled_range act) <= v <= snd (pre_scaled_range act) ->
  mn <= scale_value act mn mx v <= mx.
Proof.
  intros Hb Hv. rewrite scale_by_fraction.
  destruct (@fraction_bounds act v Hv) as [H0 H1].
  set (f := fraction act v) in *.
  assert (0 <= (mx - mn) * f) by (apply Qmult_le_0_compat; lra).
  assert (0 <= (mx - mn) * (1 - f)) by (apply Qmult_le_0_compat; lra).
  split; [lra|]. 
  setoid_replace ((mx - mn) * f) with ((mx - mn) - (mx - mn) * (1 - f))
    by ring.
  lra.
Qed.

Lemma scale_onto (act : Activation) (mn mx y : Q) :
  mn < mx -> mn <= y <= mx ->
  exists v, fst (pre_scaled_range act) <= v <= snd (pre_scaled_range act) /\
            scale_value act mn mx v == y.
Proof.
  intros Hb [Hl Hh].
  set (f := (y - mn) / (mx - mn)).
  assert (Hf : 0 <= f <= 1).
  { unfold f. split.
    - apply Qle_shift_div_l; lra.
    - apply Qle_shift_div_r; lra. }
  assert (Hne : ~ mx - mn == 0) by lra.
  destruct act.
  - exists (2 * f - 1). simpl. split; [lra|].
    unfold f. field. exact Hne.
  - exists f. simpl. split; [lra|]. unfold f. field. exact Hne.
  - exists f. simpl. split; [lra|]. unfold f. field. exact Hne.
Qed.

(** C6.  With the bounds of agent [idx], [scale_to_action_space] scales
    every entry of the action; a Tanh output is mapped by the linear map
    that sends [-1,1] onto [min,max], a Sigmoid or GumbelSoftmax output by
    [value*(max-min)+min], which sends [0,1] onto [min,max]. *)
Theorem scale_to_action_space_maps (sp : ActionSpace) (idx : nat)
  (act : Activation) (mn mx : Q) (action : list Q) :
  nth_error (output_activation sp) idx = Some act ->
  nth_error (min_action sp) idx = Some mn ->
  nth_error (max_action sp) idx = Some mx ->
  scale_to_action_space sp action idx
  = Ok (map (scale_value act mn mx) action) /\
  (forall v,
     match act with
     | Tanh => scale_value act mn mx v == (mx - mn) / 2 * v + (mx + mn) / 2
     | Sigmoid | GumbelSoftmax => scale_value act mn mx v = v * (mx - mn) + mn
     end) /\
  pre_scaled_range act
  = match act with Tanh => (-1, 1) | _ => (0, 1) end /\
  (let (lo, hi) := pre_scaled_range act in
   scale_value act mn mx lo == mn /\
   scale_value act mn mx hi == mx /\
   (mn <= mx -> forall v, lo <= v <= hi ->
                          mn <= scale_value act mn mx v <= mx) /\
   (mn < mx -> forall y, mn <= y <= mx ->
                         exists v, lo <= v <= hi /\
                                   scale_value act mn mx v == y)).
Proof.
  intros Ha Hmn Hmx. split.
  { unfold scale_to_action_space. now rewrite Ha, Hmn, Hmx. }
  split.
  { intros v. destruct act; [apply scale_tanh_affine|reflexivity..]. }
  split; [now destruct act|].
  pose proof (scale_endpoints act mn mx) as [E0 E1].
  pose proof (fun H v => @scale_in_range act mn mx v H) as R.
  pose proof (fun H y => @scale_onto act mn mx y H) as O.
  destruct (pre_scaled_range act) as [lo hi]. simpl in *.
  repeat split; auto; try apply R; auto.
Qed.

(** The last case of the repository's scaling test: a Tanh actor with
    bounds [-1, 2]. *)
Lemma scale_to_action_space_maps_witness :
  scale_to_action_space test_space [1 # 10; -1 # 10] 4
  = Ok (map (scale_value Tanh (-1) 2) [1 # 10; -1 # 10]) /\
  scale_value Tanh (-1) 2 (1 # 10) == (55 # 100) * 3 - 1.
Proof.
  destruct (@scale_to_action_space_maps test_space 4 Tanh (-1) 2
              [1 # 10; -1 # 10] eq_refl eq_refl eq_refl) as (E & L & _).
  split; [exact E|]. rewrite (L (1 # 10)). reflexivity.
Defined.

(** The other cases of the repository's scaling test. *)
Example scale_test_vectors :
  scale_value Tanh (-1) 1 (1 # 10) == 1 # 10 /\
  scale_value Tanh (-2) 2 (1 # 10) == 2 # 10 /\
  scale_value Tanh (-2) 2 (-3 # 10) == -6 # 10 /\
  scale_value Sigmoid 0 1 (3 # 10) == 3 # 10 /\
  scale_value GumbelSoftmax 0 2 (1 # 10) == 2 # 10 /\
  scale_value GumbelSoftmax 0 2 0 == 0 /\
  scale_value Tanh (-1) 2 (-3 # 10) == (35 # 100) * 3 - 1.
Proof. repeat split; reflexivity. Qed.

End ActionScaling.

(* ------------------------------------------------------------------ *)
(** ** The training loop: reasoning about [M] *)

Section MonadFacts.
Context `{D : Domain}.

Lemma bind_ok {A B} (m : M A) (f : A -> M B) (s s1 : St) (a : A)
  (ev1 : list Event) :
  m s = (Ok a, s1, ev1) ->
  bind m f s = (let '(r, s2, ev2) := f a s1 in (r, s2, ev1 ++ ev2)).
Proof. intros E. unfold bind. rewrite E. reflexivity. Qed.

Lemma bind_raise {A B} (m : M A) (f : A -> M B) (s s1 : St) (e : exn)
  (ev1 : list Event) :
  m s = (Raise e, s1, ev1) -> bind m f s = (Raise e, s1, ev1).
Proof. intros E. unfold bind. now rewrite E. Qed.

Lemma emits_bind {A B} P (m : M A) (f : A -> M B) :
  emits_only P m -> (forall a, emits_only P (f a)) ->
  emits_only P (bind m f).
Proof.
  intros Hm Hf s. unfold bind. specialize (Hm s).
  destruct (m s) as [[[a|e|] s1] ev1]; simpl in *; auto.
  specialize (Hf a s1). destruct (f a s1) as [[r s2] ev2]; simpl in *.
  apply Forall_app; auto.
Qed.

Lemma emits_for_each {A B} P (l : list A) (body : B -> A -> M B) :
  (forall acc x, emits_only P (body acc x)) ->
  forall acc, emits_only P (for_each l acc body).
Proof.
  intros Hb. induction l as [|x l IH]; intros acc; simpl.
  - intros s. constructor.
  - apply emits_bind; auto.
Qed.

Lemma emits_silent {A} P (m : M A) :
  (forall s, snd (m s) = []) -> emits_only P m.
Proof. intros H s. rewrite H. constructor. Qed.

Lemma emits_emit P (e : Event) : P e -> emits_only P (emit e).
Proof. intros H s. simpl. auto. Qed.

Lemma returns_bind {A B} (Q : A -> Prop) (R : B -> Prop) (m : M A)
  (f : A -> M B) :
  returns Q m -> (forall a, Q a -> returns R (f a)) ->
  returns R (bind m f).
Proof.
  intros Hm Hf s. unfold bind. specialize (Hm s).
  destruct (m s) as [[[a|e|] s1] ev1]; simpl in *; auto.
  specialize (Hf a Hm s1). destruct (f a s1) as [[r s2] ev2]; simpl in *.
  exact Hf.
Qed.

Lemma returns_weaken {A} (Q R : A -> Prop) (m : M A) :
  returns Q m -> (forall a, Q a -> R a) -> returns R m.
Proof.
  intros Hm H s. specialize (Hm s).
  destruct (fst (fst (m s))); auto.
Qed.

Lemma returns_any {A} (m : M A) : returns (fun _ => True) m.
Proof. intros s. now destruct (fst (fst (m s))). Qed.

Lemma returns_ret {A} (Q : A -> Prop) (a : A) : Q a -> returns Q (ret a).
Proof. intros H s. exact H. Qed.

Lemma returns_raise {A} (Q : A -> Prop) (e : exn) : returns Q (raise e).
Proof. intros s. exact I. Qed.

Lemma returns_for_each {A B} (Q : B -> Prop) (l : list A)
  (body : B -> A -> M B) :
  (forall acc x, Q acc -> returns Q (body acc x)) ->
  forall acc, Q acc -> returns Q (for_each l acc body).
Proof.
  intros Hb. induction l as [|x l IH]; intros acc Hacc; simpl.
  - now apply returns_ret.
  - eapply returns_bind; [apply Hb; exact Hacc|]. intros a Ha. now apply IH.
Qed.

End MonadFacts.

(** Splits a computation along its binds and case distinctions down to the
    primitive calls, which emit nothing. *)
Ltac emits_step :=
  match goal with
  | |- emits_only _ (bind _ _) => apply emits_bind; [|intros ?]
  | |- emits_only _ (for_each _ _ _) => apply emits_for_each; intros ? ?
  | |- emits_only _ (emit _) => apply emits_emit
  | |- emits_only _ (match ?x with _ => _ end) => destruct x
  | |- emits_only _ (let '(_, _) := ?x in _) => destruct x
  | |- emits_only _ _ => apply emits_silent; intros ?; reflexivity
  end.

(* ------------------------------------------------------------------ *)
(** ** The training loop: warnings, termination, early stop *)

Section LoopFacts.
Context {D : Domain} {C : Collaborators}.
Variable p : Params.
Variable env : Env.

Lemma check_save_flags_run (s : St) :
  check_save_flags p s = (Ok tt, s, save_flag_warnings p).
Proof.
  unfold check_save_flags, save_flag_warnings, bind.
  destruct (save_elite p), (elite_path p), (checkpoint p),
    (checkpoint_path p); reflexivity.
Qed.

(** C8.  A save path given without its flag (an [elite_path] with
    [save_elite=False], a [checkpoint_path] with [checkpoint=None]) makes the
    function warn and go on: the checks return normally, leave the state
    untouched, and the call behaves as the rest of the function does, with
    the warnings in front of what it emits. *)
Theorem save_path_without_flag_warns (fuel : nat) (pop0 : list Agent)
  (e : Ext) :
  (save_elite p = false /\ elite_path p <> None) \/
  (checkpoint p = None /\ checkpoint_path p <> None) ->
  save_flag_warnings p <> [] /\
  Forall (fun ev => exists msg, ev = Warn msg) (save_flag_warnings p) /\
  (save_elite p = false -> elite_path p <> None ->
   In (Warn warn_save_elite) (save_flag_warnings p)) /\
  (checkpoint p = None -> checkpoint_path p <> None ->
   In (Warn warn_checkpoint) (save_flag_warnings p)) /\
  check_save_flags p (initial_state e pop0)
  = (Ok tt, initial_state e pop0, save_flag_warnings p) /\
  train_multi_agent p env fuel pop0 e
  = (let '(r, s, ev) := train_after_checks p env fuel (initial_state e pop0)
     in (r, s, save_flag_warnings p ++ ev)).
Proof.
  intros H. split; [|split; [|split; [|split; [|split]]]].
  - unfold save_flag_warnings.
    destruct H as [[H1 H2]|[H1 H2]]; rewrite H1.
    + destruct (elite_path p); [discriminate|congruence].
    + destruct (checkpoint_path p); [|congruence].
      destruct (save_elite p), (elite_path p); discriminate.
  - unfold save_flag_warnings.
    destruct (save_elite p), (elite_path p), (checkpoint p),
      (checkpoint_path p); simpl; repeat constructor; eauto.
  - intros H1 H2. unfold save_flag_warnings. rewrite H1.
    destruct (elite_path p); [left; reflexivity|congruence].
  - intros H1 H2. unfold save_flag_warnings. rewrite H1.
    destruct (checkpoint_path p); [|congruence].
    apply in_or_app. right. left. reflexivity.
  - apply check_save_flags_run.
  - unfold train_multi_agent, train_body.
    erewrite bind_ok by apply check_save_flags_run. reflexivity.
Qed.

(* ---------------- the loop condition ---------------- *)

Lemma map_outcome_ok {A B} (f : A -> outcome B) (l : list A) (r : list B) :
  map_outcome f l = Ok r ->
  List.length r = List.length l /\
  forall b, In b r <-> exists a, In a l /\ f a = Ok b.
Proof.
  revert r. induction l as [|x l IH]; simpl; intros r H.
  - injection H as <-. split; [reflexivity|]. intros b. split.
    + intros [].
    + intros (a & [] & _).
  - destruct (f x) as [y| |] eqn:Ex; try discriminate.
    destruct (map_outcome f l) as [r0| |]; try discriminate.
    injection H as <-. destruct (IH r0 eq_refl) as [L I].
    split; [simpl; congruence|]. intros b. simpl. split.
    + intros [<-|Hb]; [eauto|]. apply I in Hb as (a & Ha & Ea). eauto.
    + intros (a & [<-|Ha] & Ea); [left; congruence|].
      right. apply I. eauto.
Qed.

(** The loop goes on exactly as long as every agent's step counter is
    below [max_steps]. *)
Lemma steps_below_spec (pop0 : list Agent) (b : bool) :
  steps_below p pop0 = Ok b ->
  (b = true <->
   forall a, In a pop0 ->
             exists n, py_last (steps a) = Ok n /\ n < max_steps p).
Proof.
  unfold steps_below.
  destruct (map_outcome _ pop0) as [l| |] eqn:E; try discriminate.
  intros H. injection H as <-.
  destruct (map_outcome_ok _ _ E) as [_ I].
  rewrite forallb_forall. split.
  - intros H a Ha.
    assert (exists n, py_last (steps a) = Ok n) as [n En].
    { clear -E Ha. revert l E. induction pop0 as [|x l0 IH]; [easy|].
      simpl. intros l E.
      destruct (py_last (steps x)) as [y| |] eqn:Ex; try discriminate.
      destruct (map_outcome _ l0) as [r0| |] eqn:E0; try discriminate.
      destruct Ha as [<-|Ha]; eauto. }
    exists n. split; [exact En|]. apply Z.ltb_lt. apply H. apply I. eauto.
  - intros H n Hn. apply I in Hn as (a & Ha & Ea).
    destruct (H a Ha) as (n' & En' & Hlt). apply Z.ltb_lt. congruence.
Qed.

Lemma steps_below_all_reached (pop0 : list Agent) :
  pop0 <> [] ->
  (forall a, In a pop0 ->
             exists n, py_last (steps a) = Ok n /\ max_steps p <= n) ->
  steps_below p pop0 = Ok false.
Proof.
  intros Hne H.
  assert (exists l, map_outcome (fun a => py_last (steps a)) pop0 = Ok l)
    as [l E].
  { clear Hne. induction pop0 as [|x l0 IH]; simpl; [eauto|].
    destruct (H x (or_introl eq_refl)) as (n & -> & _).
    destruct IH as [r ->]; [intros a Ha; apply H; now right|]. eauto. }
  pose proof (steps_below_spec pop0) as S.
  unfold steps_below in *. rewrite E in *.
  destruct (forallb _ l) eqn:F; [|reflexivity]. exfalso.
  destruct pop0 as [|x l0]; [congruence|].
  destruct (proj1 (S true eq_refl) eq_refl x (or_introl eq_refl))
    as (n & En & Hlt).
  destruct (H x (or_introl eq_refl)) as (n' & En' & Hge).
  assert (n = n') by congruence. lia.
Qed.

Lemma finish_ok (s : St) :
  exists ev, finish p s = (Ok (pop s, pop_fitnesses s), s, ev).
Proof.
  unfold finish, bind.
  destruct (wb p); [destruct (accelerator p) as [acc|];
                    [destruct (is_main_process acc)|]|];
    simpl; eauto.
Qed.

Lemma loop_exits (fuel : nat) (save_path : string) (sampler : option Z)
  (elite : option Agent) (s : St) :
  steps_below p (pop s) = Ok false ->
  training_loop p env (S fuel) save_path sampler elite s = finish p s.
Proof.
  intros G. simpl. unfold loop_guard, bind, get_pop, lift. rewrite G.
  simpl. now destruct (finish p s) as [[r s'] ev].
Qed.

(* ---------------- early stop ---------------- *)

Lemma np_greater_spec (a b : Float) :
  np_greater a b = true <->
  exists x y, a = Some x /\ b = Some y /\ (y < x)%Q.
Proof.
  unfold np_greater. destruct a as [x|], b as [y|]; split;
    try discriminate; try (intros (x' & y' & Hx & Hy & _); discriminate).
  - intros H. exists x, y. repeat split.
    apply Qnot_le_lt. intros Hle. apply Qle_bool_iff in Hle.
    rewrite Hle in H. discriminate.
  - intros (x' & y' & Hx & Hy & Hlt). injection Hx as <-.
    injection Hy as <-. destruct (Qle_bool x y) eqn:E; [|reflexivity].
    apply Qle_bool_iff in E. exfalso. eapply Qlt_not_le; eauto.
Qed.

Lemma early_stop_test_spec (tgt : Float) (pop0 : list Agent) :
  early_stop_test tgt pop0 = Ok true <->
  (forall a, In a pop0 ->
             exists m t, recent_mean_fitness a = Some m /\ tgt = Some t /\
                         (t < m)%Q) /\
  exists a0, hd_error pop0 = Some a0 /\
             (100 <= List.length (steps a0))%nat.
Proof.
  unfold early_stop_test.
  destruct (forallb _ pop0) eqn:F.
  - rewrite forallb_forall in F.
    assert (G : forall a, In a pop0 ->
                exists m t, recent_mean_fitness a = Some m /\ tgt = Some t /\
                            (t < m)%Q)
      by (intros a Ha; apply np_greater_spec; auto).
    destruct pop0 as [|a0 l]; unfold py_index; cbn [nth_error hd_error].
    + split; [discriminate|]. intros (_ & a0 & H0 & _). discriminate.
    + split.
      * intros H.
        assert (H' : (100 <=? List.length (steps a0))%nat = true)
          by congruence.
        apply Nat.leb_le in H'. eauto.
      * intros (_ & a1 & H1 & Hlen). injection H1 as <-.
        f_equal. now apply Nat.leb_le.
  - split; [discriminate|]. intros (G & _). exfalso.
    assert (forallb (fun a => np_greater (recent_mean_fitness a) tgt) pop0
            = true); [|congruence].
    apply forallb_forall. intros a Ha. apply np_greater_spec. auto.
Qed.

Lemma early_stop_run (tgt : Float) (s : St) :
  target p = Some tgt ->
  match early_stop_test tgt (pop s) with
  | Ok true =>
      exists ev, early_stop p s = (Ok (Some (pop s, pop_fitnesses s)), s, ev)
  | Ok false => early_stop p s = (Ok None, s, [])
  | Raise e => early_stop p s = (Raise e, s, [])
  | OutOfFuel => early_stop p s = (OutOfFuel, s, [])
  end.
Proof.
  intros T. unfold early_stop. rewrite T.
  unfold bind, get_pop, lift, get, ret, emit.
  destruct (early_stop_test tgt (pop s)) as [[|]| |]; simpl; auto.
  destruct (wb p); simpl; eauto.
Qed.

End LoopFacts.

(* ------------------------------------------------------------------ *)
(** ** The training loop: what a run never does *)

Section Primitives.
Context {D : Domain} {C : Collaborators}.
Variable P : Event -> Prop.

Lemma emits_call {A} (f : Ext -> Ext * A) : emits_only P (call f).
Proof. intros s. unfold call. destruct (f (ext s)). constructor. Qed.

Lemma emits_agent_call {A} (i : nat) (f : Ext -> Agent -> Ext * Agent * A) :
  emits_only P (agent_call i f).
Proof.
  intros s. unfold agent_call.
  destruct (py_index (pop s) i); try constructor.
  destruct (f (ext s) a) as [[e a'] r]. constructor.
Qed.

End Primitives.

Ltac emits_prim :=
  match goal with
  | |- emits_only _ (call _) => apply emits_call
  | |- emits_only _ (agent_call _ _) => apply emits_agent_call
  | |- emits_only _ (bind _ _) => apply emits_bind; [|intros ?]
  | |- emits_only _ (for_each _ _ _) => apply emits_for_each; intros ? ?
  | |- emits_only _ (emit _) => apply emits_emit; try discriminate
  | |- emits_only _ (match ?x with _ => _ end) => destruct x
  | |- emits_only _ (ret _) => apply emits_silent; intros ?; reflexivity
  | |- emits_only _ (raise _) => apply emits_silent; intros ?; reflexivity
  | |- emits_only _ (lift _) => apply emits_silent; intros ?; reflexivity
  | |- emits_only _ get => apply emits_silent; intros ?; reflexivity
  | |- emits_only _ (put _) => apply emits_silent; intros ?; reflexivity
  | |- emits_only _ (call_ _) => apply emits_silent; intros ?; reflexivity
  | |- emits_only _ (ask _) => apply emits_silent; intros ?; reflexivity
  | |- emits_only _ get_pop => apply emits_silent; intros ?; reflexivity
  | |- emits_only _ (put_pop _) => apply emits_silent; intros ?; reflexivity
  | |- emits_only _ (get_agent _) => apply emits_silent; intros ?; reflexivity
  | |- emits_only _ (put_agent _ _) =>
      apply emits_silent; intros ?; reflexivity
  | |- emits_only _ out_of_fuel => apply emits_silent; intros ?; reflexivity
  end.

Create HintDb quiet discriminated.

Ltac emits := repeat first [emits_prim | solve [eauto with quiet]].

Section NoSave.
Context {D : Domain} {C : Collaborators}.
Variable p : Params.
Variable env : Env.

Lemma quiet_check_save_flags : emits_only not_save (check_save_flags p).
Proof. unfold check_save_flags, not_save. emits. Qed.

Lemma quiet_wandb_setup : emits_only not_save (wandb_setup p).
Proof. unfold wandb_setup, wandb_init, not_save. emits. Qed.

Lemma quiet_make_models_dir : emits_only not_save (make_models_dir p).
Proof. unfold make_models_dir, not_save. emits. Qed.

Lemma quiet_setup : emits_only not_save (setup_after_checks p env).
Proof.
  pose proof quiet_wandb_setup. pose proof quiet_make_models_dir.
  unfold setup_after_checks, compute_save_path, make_sampler, init_locals,
    pre_training_mutation. unfold not_save in *. emits.
Qed.

Lemma quiet_read_is_vectorised :
  emits_only not_save (read_is_vectorised env).
Proof. unfold read_is_vectorised, not_save. emits. Qed.

Lemma quiet_rollout_init : emits_only not_save (rollout_init p env).
Proof.
  pose proof quiet_read_is_vectorised.
  unfold rollout_init. unfold not_save in *. emits.
Qed.

Lemma quiet_learn_once sampler agent_idx losses :
  emits_only not_save (learn_once env sampler agent_idx losses).
Proof. unfold learn_once, not_save. emits. Qed.

Lemma quiet_learn_phase sampler agent_idx idx_step losses :
  emits_only not_save (learn_phase p env sampler agent_idx idx_step losses).
Proof.
  pose proof quiet_learn_once.
  unfold learn_phase. unfold not_save in *. emits.
Qed.

Lemma quiet_episode_ends agent_idx dn tr r :
  emits_only not_save (episode_ends env agent_idx dn tr r).
Proof.
  pose proof quiet_read_is_vectorised.
  unfold episode_ends. unfold not_save in *. emits.
Qed.

Lemma quiet_act_in_env agent_idx r :
  emits_only not_save (act_in_env env agent_idx r).
Proof. unfold act_in_env, not_save. emits. Qed.

Lemma quiet_aggregate_losses agent_idx losses :
  emits_only not_save (aggregate_losses env agent_idx losses).
Proof. unfold aggregate_losses, not_save. emits. Qed.

Lemma quiet_evaluate_population :
  emits_only not_save (evaluate_population p).
Proof. unfold evaluate_population, not_save. emits. Qed.

Lemma quiet_base_metrics fitnesses mean_scores :
  emits_only not_save (base_metrics p fitnesses mean_scores).
Proof. unfold base_metrics, not_save. emits. Qed.

Lemma quiet_loss_metrics wandb_dict :
  emits_only not_save (loss_metrics wandb_dict).
Proof. unfold loss_metrics, not_save. emits. Qed.

Lemma quiet_log_metrics wandb_dict :
  emits_only not_save (log_metrics p wandb_dict).
Proof. unfold log_metrics, not_save. emits. Qed.

Lemma quiet_update_step_counters :
  emits_only not_save update_step_counters.
Proof. unfold update_step_counters, not_save. emits. Qed.

Lemma quiet_early_stop : emits_only not_save (early_stop p).
Proof. unfold early_stop, not_save. emits. Qed.

Lemma quiet_save_agent a path : emits_only not_save (save_agent a path).
Proof. unfold save_agent, not_save. emits. Qed.

Lemma quiet_selection_phase elite :
  emits_only not_save (selection_phase p elite).
Proof.
  pose proof quiet_save_agent.
  unfold selection_phase, save_elite_checkpoint, select_and_mutate,
    for_all_models. unfold not_save in *. emits.
Qed.

Lemma quiet_print_stats fitnesses mean_scores :
  emits_only not_save (print_stats p fitnesses mean_scores).
Proof. unfold print_stats, not_save. emits. Qed.

Lemma quiet_checkpoint_phase save_path :
  emits_only not_save (checkpoint_phase p save_path).
Proof.
  pose proof quiet_save_agent.
  unfold checkpoint_phase, save_population, for_all_models.
  unfold not_save in *. emits.
Qed.

Lemma quiet_finish : emits_only not_save (finish p).
Proof. unfold finish, not_save. emits. Qed.

(* ---------------- the vectorised case ---------------- *)

Section Vectorised.
Variable n : Z.
Hypothesis wrapped : wrapper_num_envs env = Some n.

Lemma is_vectorised_unbound : is_vectorised env = None.
Proof. unfold is_vectorised. now rewrite wrapped. Qed.

(** The write to the replay memory reads the unbound local first. *)
Lemma save_experience_unbound r cont_actions res s :
  save_experience p env r cont_actions res s
  = (Raise (UnboundLocalError "is_vectorised"), s, []).
Proof.
  unfold save_experience, read_is_vectorised. rewrite is_vectorised_unbound.
  destruct (swap_channels p); reflexivity.
Qed.

Lemma rollout_step_unbound sampler agent_idx r idx_step s cont res sc s1 ev1 :
  act_in_env env agent_idx r s = (Ok (cont, res, sc), s1, ev1) ->
  rollout_step p env sampler agent_idx r idx_step s
  = (Raise (UnboundLocalError "is_vectorised"), s1, ev1).
Proof.
  intros E. unfold rollout_step. erewrite bind_ok by exact E.
  cbv beta iota.
  erewrite bind_raise by apply save_experience_unbound.
  now rewrite app_nil_r.
Qed.

Lemma rollout_step_never_returns sampler agent_idx r idx_step :
  returns (fun _ => False) (rollout_step p env sampler agent_idx r idx_step).
Proof.
  intros s.
  destruct (act_in_env env agent_idx r s) as [[[[[cont res] sc]|e|] s1] ev1]
    eqn:E.
  - erewrite rollout_step_unbound by exact E. exact I.
  - unfold rollout_step. erewrite bind_raise by exact E. exact I.
  - unfold rollout_step, bind. rewrite E. exact I.
Qed.

Lemma quiet_rollout_step sampler agent_idx r idx_step :
  emits_only not_save (rollout_step p env sampler agent_idx r idx_step).
Proof.
  intros s.
  destruct (act_in_env env agent_idx r s) as [[[[[cont res] sc]|e|] s1] ev1]
    eqn:E; pose proof (quiet_act_in_env agent_idx r s) as Q;
    rewrite E in Q; simpl in Q.
  - erewrite rollout_step_unbound by exact E. exact Q.
  - unfold rollout_step. erewrite bind_raise by exact E. exact Q.
  - unfold rollout_step, bind. rewrite E. exact Q.
Qed.

Lemma quiet_rollout sampler agent_idx :
  emits_only not_save (rollout p env sampler agent_idx).
Proof.
  pose proof quiet_rollout_init. pose proof quiet_rollout_step.
  unfold rollout. emits.
Qed.

Lemma quiet_agent_iteration sampler agent_idx :
  emits_only not_save (agent_iteration p env sampler agent_idx).
Proof.
  pose proof quiet_rollout. pose proof quiet_aggregate_losses.
  unfold agent_iteration. unfold not_save in *. emits.
Qed.

Lemma quiet_generation save_path sampler elite :
  emits_only not_save (generation p env save_path sampler elite).
Proof.
  pose proof quiet_agent_iteration. pose proof quiet_evaluate_population.
  pose proof quiet_base_metrics. pose proof quiet_loss_metrics.
  pose proof quiet_log_metrics. pose proof quiet_update_step_counters.
  pose proof quiet_early_stop. pose proof quiet_selection_phase.
  pose proof quiet_print_stats. pose proof quiet_checkpoint_phase.
  unfold generation. unfold not_save in *. emits.
Qed.

Lemma quiet_training_loop fuel save_path sampler elite :
  emits_only not_save (training_loop p env fuel save_path sampler elite).
Proof.
  revert elite. induction fuel as [|fuel IH]; intros elite; simpl.
  - emits.
  - pose proof quiet_generation. pose proof quiet_finish.
    unfold loop_guard. emits.
Qed.

Lemma quiet_train (fuel : nat) (pop0 : list Agent) (e : Ext) :
  Forall not_save (snd (train_multi_agent p env fuel pop0 e)).
Proof.
  unfold train_multi_agent.
  assert (Q : emits_only not_save (train_body p env fuel)); [|apply Q].
  pose proof quiet_check_save_flags. pose proof quiet_setup.
  pose proof quiet_training_loop.
  unfold train_body, train_after_checks. emits.
Qed.

End Vectorised.

(** C9.  When the environment is an instance of the vectorisation wrapper,
    the local [is_vectorised] is never assigned; the attempt to save a
    transition reads it and raises [UnboundLocalError] before the replay
    memory is called, so the first rollout step that gets that far ends the
    run with that error, no rollout step ever completes, and no run writes
    to the replay memory. *)
Theorem vectorised_save_raises_unbound_local (n : Z) :
  wrapper_num_envs env = Some n ->
  is_vectorised env = None /\
  (forall r cont_actions res s,
      save_experience p env r cont_actions res s
      = (Raise (UnboundLocalError "is_vectorised"), s, [])) /\
  (forall sampler agent_idx r idx_step s cont res sc s1 ev1,
      act_in_env env agent_idx r s = (Ok (cont, res, sc), s1, ev1) ->
      rollout_step p env sampler agent_idx r idx_step s
      = (Raise (UnboundLocalError "is_vectorised"), s1, ev1)) /\
  (forall sampler agent_idx r idx_step,
      returns (fun _ => False)
              (rollout_step p env sampler agent_idx r idx_step)) /\
  (forall fuel pop0 e,
      Forall not_save (snd (train_multi_agent p env fuel pop0 e))).
Proof.
  intros W. split; [|split; [|split; [|split]]].
  - exact (is_vectorised_unbound W).
  - intros. exact (save_experience_unbound W _ _ _ _).
  - intros. eapply rollout_step_unbound; eauto.
  - intros. eapply rollout_step_never_returns; eauto.
  - intros. eapply quiet_train; eauto.
Qed.

End NoSave.

(* ------------------------------------------------------------------ *)
(** ** The training loop: the loss report is indexed with [0] *)

Section DictFacts.
Variable V : Type.

Lemma dict_set_absent_other (d : Dict V) (k k0 : PyKey) (v : V) :
  dict_get d k0 = None -> key_eqb k0 k = false ->
  dict_get (dict_set d k v) k0 = None.
Proof.
  induction d as [|[k' v'] d IH]; simpl; intros Hn Hk.
  - now rewrite Hk.
  - destruct (key_eqb k0 k') eqn:E0; [discriminate|].
    destruct (key_eqb k k'); simpl; rewrite E0; auto.
Qed.

Lemma dict_set_absent_present (d : Dict V) (k k0 : PyKey) (v l : V) :
  dict_get d k0 = None -> dict_get d k = Some l ->
  dict_get (dict_set d k v) k0 = None.
Proof.
  induction d as [|[k' v'] d IH]; simpl; intros Hn Hk; [discriminate|].
  destruct (key_eqb k0 k') eqn:E0; [discriminate|].
  destruct (key_eqb k k'); simpl; rewrite E0; auto.
Qed.

Lemma dict_fromkeys_absent (ks : list PyKey) (k0 : PyKey) (v : V) :
  key_in k0 ks = false -> dict_get (dict_fromkeys ks v) k0 = None.
Proof.
  unfold dict_fromkeys.
  assert (G : forall d, dict_get d k0 = None -> key_in k0 ks = false ->
              dict_get (fold_left (fun d k => dict_set d k v) ks d) k0 = None).
  { induction ks as [|k ks IH]; simpl; intros d Hd Hk; [assumption|].
    apply Bool.orb_false_iff in Hk as [Hk Hks].
    apply IH; [|assumption]. now apply dict_set_absent_other. }
  intros Hk. now apply G.
Qed.

End DictFacts.

Ltac returns_skip :=
  eapply returns_bind; [apply returns_any|intros ? _].

Tactic Notation "returns_skip" "as" ident(x) :=
  eapply returns_bind; [apply returns_any|intros x _].

Section KeyZero.
Context {D : Domain} {C : Collaborators}.
Variable p : Params.
Variable env : Env.
Hypothesis no_zero : key_in (KInt 0) (agents env) = false.

Lemma aggregate_losses_key_error agent_idx losses s :
  no_key_zero losses ->
  aggregate_losses env agent_idx losses s = (Raise (KeyError (KInt 0)), s, []).
Proof. intros Hn. unfold aggregate_losses. now rewrite Hn. Qed.

Lemma learn_once_no_zero sampler agent_idx losses :
  no_key_zero losses ->
  returns no_key_zero (learn_once env sampler agent_idx losses).
Proof.
  intros Hn. unfold learn_once. do 2 returns_skip.
  returns_skip as loss. returns_skip.
  apply returns_for_each; [|assumption].
  intros acc agent_id Hacc.
  destruct (dict_get acc agent_id) as [l|] eqn:El; [|apply returns_raise].
  destruct (dict_get loss agent_id); [|apply returns_raise].
  apply returns_ret. eapply dict_set_absent_present; eauto.
Qed.

Lemma learn_phase_no_zero sampler agent_idx idx_step losses :
  no_key_zero losses ->
  returns no_key_zero (learn_phase p env sampler agent_idx idx_step losses).
Proof.
  intros Hn. unfold learn_phase. returns_skip.
  destruct (_ <? _).
  - do 2 returns_skip. destruct (_ =? _); [|now apply returns_ret].
    returns_skip. destruct (_ <=? _); [|now apply returns_ret].
    returns_skip. destruct (_ <? _); [|now apply returns_ret].
    now apply learn_once_no_zero.
  - returns_skip. destruct (_ <=? _); [|now apply returns_ret].
    returns_skip. destruct (_ <? _); [|now apply returns_ret].
    returns_skip. apply returns_for_each; [|assumption].
    intros acc _ Hacc. now apply learn_once_no_zero.
Qed.

Lemma episode_ends_no_zero agent_idx dn tr r :
  no_key_zero (r_losses r) ->
  returns (fun r' => no_key_zero (r_losses r'))
          (episode_ends env agent_idx dn tr r).
Proof.
  intros Hn. unfold episode_ends. do 2 returns_skip.
  eapply returns_bind with (Q := fun acc => no_key_zero (r_losses (fst acc))).
  - apply returns_for_each; [|assumption].
    intros [r0 idxs] [idx [d t]] Hacc. simpl in Hacc.
    destruct (_ || _); [|now apply returns_ret].
    do 3 returns_skip. returns_skip as b. destruct (negb b).
    + returns_skip as si. destruct si. returns_skip. now apply returns_ret.
    + now apply returns_ret.
  - intros [r0 idxs] Hacc. simpl in Hacc. do 2 returns_skip.
    now apply returns_ret.
Qed.

Lemma rollout_step_no_zero sampler agent_idx r idx_step :
  no_key_zero (r_losses r) ->
  returns (fun r' => no_key_zero (r_losses r'))
          (rollout_step p env sampler agent_idx r idx_step).
Proof.
  intros Hn. unfold rollout_step. returns_skip as x.
  destruct x as [[cont res] sc]. returns_skip.
  eapply returns_bind; [now apply learn_phase_no_zero|].
  intros losses1 Hl. returns_skip. now apply episode_ends_no_zero.
Qed.

Lemma rollout_no_zero sampler agent_idx :
  returns (fun r => no_key_zero (r_losses r))
          (rollout p env sampler agent_idx).
Proof.
  unfold rollout.
  eapply returns_bind with (Q := fun r => no_key_zero (r_losses r)).
  - unfold rollout_init. returns_skip as x. destruct x as [state info].
    do 3 returns_skip. apply returns_ret. simpl.
    now apply dict_fromkeys_absent.
  - intros r0 Hr. returns_skip. apply returns_for_each; [|assumption].
    intros acc x Hacc. now apply rollout_step_no_zero.
Qed.

Lemma agent_iteration_never_returns sampler agent_idx :
  returns (fun _ => False) (agent_iteration p env sampler agent_idx).
Proof.
  unfold agent_iteration.
  eapply returns_bind; [apply rollout_no_zero|]. intros r Hr.
  do 6 returns_skip.
  eapply returns_bind with (Q := fun _ => False); [|intros ? []].
  intros s. now rewrite aggregate_losses_key_error.
Qed.

(** After a window that ended normally, with the agent in place, the
    aggregation raises. *)
Lemma agent_iteration_key_error sampler agent_idx s r s1 ev1 a :
  rollout p env sampler agent_idx s = (Ok r, s1, ev1) ->
  py_index (pop s1) agent_idx = Ok a ->
  steps a <> [] ->
  exists s2 ev2,
    agent_iteration p env sampler agent_idx s
    = (Raise (KeyError (KInt 0)), s2, ev2).
Proof.
  intros E Ha Hs.
  pose proof (rollout_no_zero sampler agent_idx s) as Hr.
  rewrite E in Hr. simpl in Hr.
  unfold agent_iteration. erewrite bind_ok by exact E.
  unfold bind at 1, get_pop. 
  assert (Hlen : (Z.of_nat (List.length (pop s1)) =? 0) = false).
  { apply Z.eqb_neq. destruct (pop s1); [destruct agent_idx; discriminate|].
    simpl. lia. }
  unfold bind at 1, lift, py_floordiv. rewrite Hlen.
  unfold bind at 1, emit. unfold bind at 1, get_agent. rewrite Ha.
  unfold bind at 1, add_steps, py_last.
  destruct (rev (steps a)) as [|x l] eqn:Er.
  { exfalso. apply Hs. apply (f_equal (@rev _)) in Er.
    now rewrite rev_involutive in Er. }
  unfold bind at 1, put_agent. unfold bind.
  rewrite aggregate_losses_key_error by assumption. simpl. eauto.
Qed.

Lemma bind_ok_inv {A B} (m : M A) (f : A -> M B) (s s2 : St) (b : B)
  (ev : list Event) :
  bind m f s = (Ok b, s2, ev) ->
  exists a s1 ev1 ev2,
    m s = (Ok a, s1, ev1) /\ f a s1 = (Ok b, s2, ev2) /\ ev = ev1 ++ ev2.
Proof.
  unfold bind. destruct (m s) as [[[a|e|] s1] ev1]; try discriminate.
  destruct (f a s1) as [[r s2'] ev2] eqn:E. intros H0.
  injection H0 as -> -> <-. eauto 8.
Qed.

(** A generation never runs to its end: with an empty population the
    metrics fail, otherwise the first agent's aggregation does. *)
Lemma generation_never_returns save_path sampler elite :
  returns (fun _ => False) (generation p env save_path sampler elite).
Proof.
  intros s. unfold generation.
  assert (B : exists evb,
             (match accelerator p with
              | Some _ => emit WaitForEveryone
              | None => ret tt
              end) s = (Ok tt, s, evb))
    by (destruct (accelerator p); unfold emit, ret; eauto).
  destruct B as [evb B]. erewrite bind_ok by exact B.
  erewrite bind_ok by reflexivity.
  destruct (pop s) as [|a0 l] eqn:Ep.
  - destruct s as [e0 pop0 ts cc pf pal pcl]. simpl in Ep. subst pop0.
    cbv. exact I.
  - match goal with
    | |- context [bind ?m ?f s] =>
        assert (R : returns (fun _ => False) (bind m f))
    end.
    { simpl. eapply returns_bind with (Q := fun _ => False);
        [|intros ? []].
      eapply returns_bind with (Q := fun _ => False); [|intros ? []].
      eapply returns_bind with (Q := fun _ => False); [|intros ? []].
      apply agent_iteration_never_returns. }
    specialize (R s).
    match goal with
    | R : match fst (fst ?x) with _ => _ end |- _ =>
        destruct x as [[r s2] ev2]
    end.
    simpl in *. exact R.
Qed.

(** The loop returns normally only when its condition fails at once. *)
Lemma training_loop_returns_at_once fuel save_path sampler elite s v s' ev :
  training_loop p env fuel save_path sampler elite s = (Ok v, s', ev) ->
  steps_below p (pop s) = Ok false /\ v = (pop s, pop_fitnesses s).
Proof.
  destruct fuel as [|fuel]; simpl; [discriminate|].
  unfold loop_guard. unfold bind at 1. unfold bind at 1, get_pop, lift.
  destruct (steps_below p (pop s)) as [[|]| |] eqn:G; simpl;
    try discriminate.
  - pose proof (generation_never_returns save_path sampler elite s) as R.
    unfold bind.
    destruct (generation p env save_path sampler elite s)
      as [[[r|e|] s1] ev1]; simpl in R; try discriminate. destruct R.
  - destruct (finish_ok p s) as [ev' F]. rewrite F. intros E.
    injection E as <- _ _. auto.
Qed.

Lemma setup_resets_fitnesses s r s1 ev :
  setup_after_checks p env s = (Ok r, s1, ev) -> pop_fitnesses s1 = [].
Proof.
  unfold setup_after_checks. intros E.
  do 5 (apply bind_ok_inv in E;
        destruct E as (? & ? & ? & ? & _ & E & _)).
  revert E. unfold init_locals, pre_training_mutation.
  intros E. apply bind_ok_inv in E.
  destruct E as (u & s2 & ev2 & ev3 & E1 & E2 & _).
  assert (F : pop_fitnesses s2 = []).
  { revert E1. unfold bind, get, put. simpl. intros E1.
    injection E1 as _ <- _. reflexivity. }
  apply bind_ok_inv in E2.
  destruct E2 as (u' & s3 & ev4 & ev5 & E3 & E4 & _).
  injection E4 as _ <- _. revert E3.
  destruct (accelerator p), (mutation p); unfold ret; intros E3;
    try (injection E3 as _ <- _; exact F).
  unfold bind, get_pop, call, put_pop in E3.
  destruct (mutation_mutation _ _ _ _). simpl in E3.
  injection E3 as _ <- _. exact F.
Qed.

(** C10.  When the environment's agent identities do not include the integer
    [0], the loss dictionary of a rollout window has no key [0], so the
    aggregation after each agent's window raises [KeyError]: no agent's
    iteration and no generation ever completes, and a call that returns has
    not evaluated a single generation. *)
Theorem losses_indexed_by_zero_raise_key_error :
  (forall sampler agent_idx,
      returns (fun r => dict_get (r_losses r) (KInt 0) = None)
              (rollout p env sampler agent_idx)) /\
  (forall agent_idx losses s,
      dict_get losses (KInt 0) = None ->
      aggregate_losses env agent_idx losses s
      = (Raise (KeyError (KInt 0)), s, [])) /\
  (forall sampler agent_idx s r s1 ev1 a,
      rollout p env sampler agent_idx s = (Ok r, s1, ev1) ->
      py_index (pop s1) agent_idx = Ok a ->
      steps a <> [] ->
      exists s2 ev2,
        agent_iteration p env sampler agent_idx s
        = (Raise (KeyError (KInt 0)), s2, ev2)) /\
  (forall sampler agent_idx,
      returns (fun _ => False) (agent_iteration p env sampler agent_idx)) /\
  (forall save_path sampler elite,
      returns (fun _ => False) (generation p env save_path sampler elite)) /\
  (forall fuel pop0 e v s ev,
      train_multi_agent p env fuel pop0 e = (Ok v, s, ev) -> snd v = []).
Proof.
  split; [|split; [|split; [|split; [|split]]]].
  - apply rollout_no_zero.
  - intros. now apply aggregate_losses_key_error.
  - intros. eapply agent_iteration_key_error; eauto.
  - apply agent_iteration_never_returns.
  - apply generation_never_returns.
  - intros fuel pop0 e v s ev E.
    unfold train_multi_agent, train_body in E.
    apply bind_ok_inv in E. destruct E as (u & s0 & ev0 & ev1 & _ & E & _).
    unfold train_after_checks in E. apply bind_ok_inv in E.
    destruct E as ([sp sm] & s1 & ev2 & ev3 & E1 & E2 & _).
    apply setup_resets_fitnesses in E1.
    apply training_loop_returns_at_once in E2. destruct E2 as [_ ->].
    exact E1.
Qed.

End KeyZero.

(* ------------------------------------------------------------------ *)
(** ** The training loop: checkpoints *)

Section Checkpoints.
Context {D : Domain} {C : Collaborators}.
Variable p : Params.

Lemma py_last_last_step (a : Agent) :
  steps a <> [] -> py_last (steps a) = Ok (last_step a).
Proof.
  intros Hs. unfold py_last, last_step.
  destruct (rev (steps a)) eqn:Er; [|reflexivity].
  exfalso. apply Hs. apply (f_equal (@rev _)) in Er.
  now rewrite rev_involutive in Er.
Qed.


End Checkpoints.

(* ------------------------------------------------------------------ *)
(** ** Runs of the scripted world *)

#[local] Existing Instance Scripted.domain.
#[local] Existing Instance Scripted.collaborators.

(** C2.  The end-to-end scenario (two agents, [max_steps=200],
    [evo_steps=25], one non-vectorised environment) on an environment whose
    agent identities are strings: the run does not complete.  The first
    agent's window of 25 steps is played, then the loss aggregation raises
    [KeyError(0)]; no agent reaches 200 steps and no fitness is recorded. *)
Theorem end_to_end_scenario_key_error :
  let run := Scripted.scenario Scripted.string_ids 0 false None in
  fst (fst run) = Raise (KeyError (KInt 0)) /\
  map (@steps _) (pop (snd (fst run))) = [[25]; [0]] /\
  map (@fitness _) (pop (snd (fst run))) = [[]; []] /\
  pop_fitnesses (snd (fst run)) = [].
Proof. vm_compute. repeat split. Qed.

(** The same scenario completes when the identities are the integers 0 and
    1 and the environment reports its flags as one-element arrays: every
    agent ends at 200 steps with 8 fitness entries. *)
Example end_to_end_scenario_integer_ids :
  let run := Scripted.scenario Scripted.int_ids 25 true None in
  (exists v, fst (fst run) = Ok v /\ List.length (snd v) = 8%nat) /\
  map (fun a => py_last (steps a)) (pop (snd (fst run))) = [Ok 200; Ok 200] /\
  map (fun a => List.length (fitness a)) (pop (snd (fst run)))
  = [8%nat; 8%nat].
Proof. vm_compute. split; [eexists; split; reflexivity|split; reflexivity]. Qed.

(** With scalar flags the same scenario stops at the first episode end:
    the second agent's flag indexes the one-entry score array. *)
Example end_to_end_scenario_scalar_flags :
  fst (fst (Scripted.scenario Scripted.int_ids 25 false None))
  = Raise IndexError.
Proof. vm_compute. reflexivity. Qed.

(** A run that starts on a spent step budget returns at once. *)
Example budget_spent_returns :
  fst (fst Scripted.scenario_budget_spent)
  = Ok ([Scripted.trained_agent 0; Scripted.trained_agent 1], []).
Proof. vm_compute. reflexivity. Qed.

(** Both save paths without their flags: two warnings, and the run goes on
    to its end. *)
Lemma save_path_without_flag_warns_witness :
  ((save_elite Scripted.params_with_paths = false /\
    elite_path Scripted.params_with_paths <> None) \/
   (checkpoint Scripted.params_with_paths = None /\
    checkpoint_path Scripted.params_with_paths <> None)) /\
  exists v s ev,
    Scripted.scenario_with_paths
    = (Ok v, s, Warn warn_save_elite :: Warn warn_checkpoint :: ev).
Proof.
  assert (Hyp : (save_elite Scripted.params_with_paths = false /\
                 elite_path Scripted.params_with_paths <> None) \/
                (checkpoint Scripted.params_with_paths = None /\
                 checkpoint_path Scripted.params_with_paths <> None))
    by (left; split; [reflexivity|discriminate]).
  split; [exact Hyp|].
  destruct (save_path_without_flag_warns Scripted.params_with_paths
              (Scripted.plain_env Scripted.int_ids) 20
              [Scripted.new_agent 0; Scripted.new_agent 1]
              (Scripted.world Scripted.int_ids 25 true) Hyp)
    as (_ & _ & _ & _ & _ & E).
  unfold Scripted.scenario_with_paths. rewrite E.
  assert (K : match fst (fst (train_after_checks Scripted.params_with_paths
                                (Scripted.plain_env Scripted.int_ids) 20
                                (initial_state
                                   (Scripted.world Scripted.int_ids 25 true)
                                   [Scripted.new_agent 0;
                                    Scripted.new_agent 1]))) with
              | Ok _ => True
              | _ => False
              end) by (vm_compute; exact I).
  destruct (train_after_checks _ _ _ _) as [[[v| |] s] ev];
    simpl in K; try contradiction.
  exists v, s, ev. reflexivity.
Defined.

(** On the wrapped environment the run ends with the unbound local, and
    nothing was written to the replay memory. *)
Lemma vectorised_save_raises_unbound_local_witness :
  wrapper_num_envs (Scripted.vector_env Scripted.string_ids 4) = Some 4 /\
  fst (fst Scripted.scenario_vectorised)
  = Raise (UnboundLocalError "is_vectorised") /\
  In EnvStep (snd Scripted.scenario_vectorised) /\
  Forall not_save (snd Scripted.scenario_vectorised).
Proof.
  split; [reflexivity|]. split; [vm_compute; reflexivity|].
  split; [vm_compute; tauto|].
  exact (proj2 (proj2 (proj2 (proj2
           (vectorised_save_raises_unbound_local
              (Scripted.params 200 25 None None)
              (Scripted.vector_env Scripted.string_ids 4) eq_refl))))
           20%nat [Scripted.new_agent 0; Scripted.new_agent 1]
           (Scripted.world Scripted.string_ids 25 true)).
Defined.

(** With string identities the aggregation raises on the loss dictionary of
    a window. *)
Lemma losses_indexed_by_zero_raise_key_error_witness :
  key_in (KInt 0) (agents (Scripted.plain_env Scripted.string_ids)) = false /\
  aggregate_losses (Scripted.plain_env Scripted.string_ids) 0
    (dict_fromkeys Scripted.string_ids [])
    (initial_state (Scripted.world Scripted.string_ids 0 false)
                   [Scripted.new_agent 0; Scripted.new_agent 1])
  = (Raise (KeyError (KInt 0)),
     initial_state (Scripted.world Scripted.string_ids 0 false)
                   [Scripted.new_agent 0; Scripted.new_agent 1], []).
Proof.
  split; [reflexivity|].
  apply (proj1 (proj2 (losses_indexed_by_zero_raise_key_error
                         (Scripted.params 200 25 None None)
                         (Scripted.plain_env Scripted.string_ids)
                         eq_refl))).
  reflexivity.
Defined.


(** With [checkpoint=50] the rounds fall on every second generation. *)
Example checkpoint_every_fifty_steps :
  let written :=
    Scripted.written_per_generation
      (snd (Scripted.scenario Scripted.int_ids 25 true (Some 50))) in
  written = [0; 1; 0; 1; 0; 1; 0; 1]%nat /\
  Scripted.once_per_interval 50 Scripted.elapsed_steps written.
Proof.
  assert (W : Scripted.written_per_generation
                (snd (Scripted.scenario Scripted.int_ids 25 true (Some 50)))
              = [0; 1; 0; 1; 0; 1; 0; 1]%nat) by (vm_compute; reflexivity).
  cbv zeta. rewrite W. split; [reflexivity|].
  intros g e Hg. do 8 (destruct g as [|g]; [injection Hg as <-; reflexivity|]).
  destruct g; discriminate Hg.
Qed.

(* ================================================================== *)
(** * Further properties of the training loop *)
(* ================================================================== *)

(* ------------------------------------------------------------------ *)
(** ** Every event of a run is one its arguments leave room for *)

Ltac flag_ok :=
  unfold permitted, writes_files, is_some;
  repeat match goal with
         | E : ?l = _ |- context [?l] => rewrite E
         end;
  cbv [orb andb negb];
  repeat match goal with
         | |- context [match ?x with _ => _ end] => destruct x
         end;
  reflexivity.

Ltac emits_flag_prim :=
  match goal with
  | |- emits_only _ (call _) => apply emits_call
  | |- emits_only _ (agent_call _ _) => apply emits_agent_call
  | |- emits_only _ (bind _ _) => apply emits_bind; [|intros ?]
  | |- emits_only _ (for_each _ _ _) => apply emits_for_each; intros ? ?
  | |- emits_only _ (emit _) => apply emits_emit; flag_ok
  | |- emits_only _ (match ?x with _ => _ end) => destruct x eqn:?
  | |- emits_only _ (ret _) => apply emits_silent; intros ?; reflexivity
  | |- emits_only _ (raise _) => apply emits_silent; intros ?; reflexivity
  | |- emits_only _ (lift _) => apply emits_silent; intros ?; reflexivity
  | |- emits_only _ get => apply emits_silent; intros ?; reflexivity
  | |- emits_only _ (put _) => apply emits_silent; intros ?; reflexivity
  | |- emits_only _ (call_ _) => apply emits_silent; intros ?; reflexivity
  | |- emits_only _ (ask _) => apply emits_silent; intros ?; reflexivity
  | |- emits_only _ get_pop => apply emits_silent; intros ?; reflexivity
  | |- emits_only _ (put_pop _) => apply emits_silent; intros ?; reflexivity
  | |- emits_only _ (get_agent _) => apply emits_silent; intros ?; reflexivity
  | |- emits_only _ (put_agent _ _) =>
      apply emits_silent; intros ?; reflexivity
  | |- emits_only _ out_of_fuel => apply emits_silent; intros ?; reflexivity
  end.

Ltac emits_flags := repeat first [emits_flag_prim | solve [eauto]].

Section Permitted.
Context {D : Domain} {C : Collaborators}.
Variable p : Params.
Variable env : Env.

Let ok (e : Event) : Prop := permitted p e = true.

Lemma permitted_check_save_flags : emits_only ok (check_save_flags p).
Proof. unfold check_save_flags, ok. emits_flags. Qed.

Lemma permitted_wandb_setup : emits_only ok (wandb_setup p).
Proof. unfold wandb_setup, wandb_init, ok. emits_flags. Qed.

Lemma permitted_make_models_dir : emits_only ok (make_models_dir p).
Proof. unfold make_models_dir, ok. emits_flags. Qed.

Lemma permitted_setup : emits_only ok (setup_after_checks p env).
Proof.
  pose proof permitted_wandb_setup. pose proof permitted_make_models_dir.
  unfold setup_after_checks, compute_save_path, make_sampler, init_locals,
    pre_training_mutation. unfold ok in *. emits_flags.
Qed.

Lemma permitted_rollout sampler agent_idx :
  emits_only ok (rollout p env sampler agent_idx).
Proof.
  unfold rollout, rollout_init, rollout_step, act_in_env, save_experience,
    learn_phase, learn_once, episode_ends, read_is_vectorised, ok.
  emits_flags.
Qed.

Lemma permitted_agent_iteration sampler agent_idx :
  emits_only ok (agent_iteration p env sampler agent_idx).
Proof.
  pose proof permitted_rollout.
  unfold agent_iteration, aggregate_losses. unfold ok in *. emits_flags.
Qed.

Lemma permitted_base_metrics fitnesses mean_scores :
  emits_only ok (base_metrics p fitnesses mean_scores).
Proof. unfold base_metrics, ok. emits_flags. Qed.

Lemma permitted_loss_metrics wandb_dict :
  emits_only ok (loss_metrics wandb_dict).
Proof. unfold loss_metrics, ok. emits_flags. Qed.

Lemma permitted_log_metrics wandb_dict :
  emits_only ok (log_metrics p wandb_dict).
Proof. unfold log_metrics, ok. emits_flags. Qed.

Lemma permitted_selection_phase elite :
  emits_only ok (selection_phase p elite).
Proof.
  unfold selection_phase, save_elite_checkpoint, select_and_mutate,
    for_all_models, save_agent, ok. emits_flags.
Qed.

Lemma permitted_checkpoint_phase save_path :
  emits_only ok (checkpoint_phase p save_path).
Proof.
  unfold checkpoint_phase, save_population, for_all_models, save_agent, ok.
  emits_flags.
Qed.

Lemma permitted_generation save_path sampler elite :
  emits_only ok (generation p env save_path sampler elite).
Proof.
  pose proof permitted_agent_iteration. pose proof permitted_base_metrics.
  pose proof permitted_loss_metrics. pose proof permitted_log_metrics.
  pose proof permitted_selection_phase.
  pose proof permitted_checkpoint_phase.
  unfold generation, evaluate_population, update_step_counters, early_stop,
    print_stats. unfold ok in *.
  emits_flags.
Qed.

Lemma permitted_training_loop fuel save_path sampler elite :
  emits_only ok (training_loop p env fuel save_path sampler elite).
Proof.
  revert elite. induction fuel as [|fuel IH]; intros elite; simpl.
  - unfold ok. emits_flags.
  - pose proof permitted_generation.
    unfold loop_guard, finish. unfold ok in *. emits_flags.
Qed.

(** Every event of every run is permitted by the arguments of the call. *)
Lemma events_permitted (fuel : nat) (pop0 : list Agent) (e : Ext) :
  Forall (fun ev => permitted p ev = true)
         (snd (train_multi_agent p env fuel pop0 e)).
Proof.
  unfold train_multi_agent.
  assert (Q : emits_only ok (train_body p env fuel)); [|apply Q].
  pose proof permitted_check_save_flags. pose proof permitted_setup.
  pose proof permitted_training_loop.
  unfold train_body, train_after_checks. unfold ok in *. emits_flags.
Qed.

End Permitted.

Section FlagCorollaries.
Context {D : Domain} {C : Collaborators}.
Variable p : Params.
Variable env : Env.

(** X1.  Without [wb] a run never touches the experiment tracker: no login,
    no init, no log, no finish. *)
Theorem no_tracking_without_wb (fuel : nat) (pop0 : list Agent) (e : Ext) :
  wb p = false ->
  Forall (fun ev => is_tracker_event ev = false)
         (snd (train_multi_agent p env fuel pop0 e)).
Proof.
  intros Hwb. eapply Forall_impl; [|apply events_permitted].
  intros ev. unfold permitted. rewrite Hwb.
  destruct ev; simpl; congruence.
Qed.

(** X2.  Without an accelerator a run never waits at a barrier, never
    creates the models directory and never reloads an agent from a file. *)
Theorem single_process_never_synchronises (fuel : nat) (pop0 : list Agent)
  (e : Ext) :
  accelerator p = None ->
  Forall (fun ev => is_distributed_event ev = false)
         (snd (train_multi_agent p env fuel pop0 e)).
Proof.
  intros Hacc. eapply Forall_impl; [|apply events_permitted].
  intros ev. unfold permitted, writes_files. rewrite Hacc.
  destruct ev; simpl; congruence.
Qed.

(** X3.  No agent is ever written to a file unless the arguments ask for
    it: a checkpoint interval on a writing process, or tournament and
    mutation together with [save_elite] or with a writing process of a
    distributed run.  In particular [save_elite=True] without tournament or
    mutation saves nothing. *)
Theorem nothing_saved_without_flags (fuel : nat) (pop0 : list Agent)
  (e : Ext) :
  checkpoint p = None \/ writes_files p = false ->
  tournament p = None \/ mutation p = None \/
  (save_elite p = false /\ (accelerator p = None \/ writes_files p = false)) ->
  Forall (fun ev => is_checkpoint_write ev = false)
         (snd (train_multi_agent p env fuel pop0 e)).
Proof.
  intros H1 H2. eapply Forall_impl; [|apply events_permitted].
  intros ev. unfold permitted.
  destruct ev; simpl; try congruence; intros Hp; exfalso;
    destruct H1 as [H1|H1]; rewrite H1 in Hp; simpl in Hp;
    rewrite ?Bool.andb_false_r in Hp; simpl in Hp; try discriminate;
    destruct H2 as [H2|[H2|[H2 [H3|H3]]]];
    rewrite ?H2, ?H3 in Hp; simpl in Hp;
    rewrite ?Bool.andb_false_r in Hp; simpl in Hp; try discriminate.
Qed.

End FlagCorollaries.

(** The scenario of the scripted world has no tracker, no accelerator and
    no reason to save. *)
Lemma no_tracking_without_wb_witness :
  wb (Scripted.params 200 25 None None) = false /\
  Forall (fun ev => is_tracker_event ev = false)
         (snd (Scripted.scenario Scripted.int_ids 25 true None)).
Proof.
  split; [reflexivity|].
  exact (@no_tracking_without_wb _ _ (Scripted.params 200 25 None None)
           (Scripted.plain_env Scripted.int_ids) 20
           [Scripted.new_agent 0; Scripted.new_agent 1]
           (Scripted.world Scripted.int_ids 25 true) eq_refl).
Defined.

Lemma single_process_never_synchronises_witness :
  accelerator (Scripted.params 200 25 None None) = None /\
  Forall (fun ev => is_distributed_event ev = false)
         (snd (Scripted.scenario Scripted.int_ids 25 true None)).
Proof.
  split; [reflexivity|].
  exact (@single_process_never_synchronises _ _
           (Scripted.params 200 25 None None)
           (Scripted.plain_env Scripted.int_ids) 20
           [Scripted.new_agent 0; Scripted.new_agent 1]
           (Scripted.world Scripted.int_ids 25 true) eq_refl).
Defined.

Lemma nothing_saved_without_flags_witness :
  (checkpoint Scripted.params_with_paths = None \/
   writes_files Scripted.params_with_paths = false) /\
  (tournament Scripted.params_with_paths = None \/
   mutation Scripted.params_with_paths = None \/
   (save_elite Scripted.params_with_paths = false /\
    (accelerator Scripted.params_with_paths = None \/
     writes_files Scripted.params_with_paths = false))) /\
  Forall (fun ev => is_checkpoint_write ev = false)
         (snd Scripted.scenario_with_paths).
Proof.
  split; [left; reflexivity|]. split; [left; reflexivity|].
  exact (@nothing_saved_without_flags _ _ Scripted.params_with_paths
           (Scripted.plain_env Scripted.int_ids) 20
           [Scripted.new_agent 0; Scripted.new_agent 1]
           (Scripted.world Scripted.int_ids 25 true)
           (or_introl eq_refl) (or_introl eq_refl)).
Defined.

(* ------------------------------------------------------------------ *)
(** ** Loops over the population *)

Section PopulationLoops.
Context {D : Domain} {C : Collaborators}.
Variable p : Params.


Lemma list_set_middle {A} (l1 l2 : list A) (a v : A) :
  list_set (l1 ++ a :: l2) (List.length l1) v = l1 ++ v :: l2.
Proof. induction l1 as [|h t IH]; simpl; [reflexivity|]. now rewrite IH. Qed.

Lemma py_index_middle {A} (l1 l2 : list A) (a : A) :
  py_index (l1 ++ a :: l2) (List.length l1) = Ok a.
Proof.
  unfold py_index. rewrite nth_error_app2 by lia.
  now rewrite Nat.sub_diag.
Qed.

(** The evaluation loop, from position [List.length done] on. *)
Lemma test_each_lengths (e : Ext) (l : list Agent) :
  List.length (snd (fst (test_each p e l))) = List.length l /\
  List.length (snd (test_each p e l)) = List.length l.
Proof.
  revert e. induction l as [|a l IH]; intros e; simpl; [auto|].
  destruct (test e a _ _ _) as [[e1 a1] f].
  specialize (IH e1). destruct (test_each p e1 l) as [[e2 t'] fs].
  simpl in *. destruct IH. auto.
Qed.

Lemma evaluate_loop (rest done : list Agent) (acc : list Float) (s : St) :
  pop s = done ++ rest ->
  for_each (seq (List.length done) (List.length rest)) acc
    (fun acc i =>
       f <- agent_call i (fun e a =>
              test e a (swap_channels p) (eval_steps p) (eval_loop p)) ;;
       ret (acc ++ [f])) s
  = (Ok (acc ++ snd (test_each p (ext s) rest)),
     set_pop (set_ext s (fst (fst (test_each p (ext s) rest))))
             (done ++ snd (fst (test_each p (ext s) rest))),
     []).
Proof.
  revert done acc s. induction rest as [|a rest IH]; intros done acc s Hp.
  - simpl. rewrite !app_nil_r. rewrite app_nil_r in Hp.
    destruct s; simpl in *; subst; reflexivity.
  - cbn [List.length seq for_each test_each].
    destruct (test (ext s) a (swap_channels p) (eval_steps p) (eval_loop p))
      as [[e1 a1] f1] eqn:Et.
    set (s1 := set_pop (set_ext s e1) (done ++ a1 :: rest)).
    assert (B : (f <- agent_call (List.length done)
                       (fun e a => test e a (swap_channels p) (eval_steps p)
                                        (eval_loop p)) ;;
                 ret (acc ++ [f])) s = (Ok (acc ++ [f1]), s1, [])).
    { unfold bind, agent_call, ret.
      rewrite Hp, py_index_middle, Et, list_set_middle. reflexivity. }
    erewrite bind_ok by exact B.
    specialize (IH (done ++ [a1]) (acc ++ [f1]) s1).
    rewrite length_app, Nat.add_1_r in IH. rewrite IH
      by (unfold s1; simpl; now rewrite <- app_assoc).
    change (ext s1) with e1.
    destruct (test_each p e1 rest) as [[e2 t'] fs]. simpl.
    rewrite <- !app_assoc. reflexivity.
Qed.

(** X4.  Evaluating the population never raises: it calls [test] once per
    agent, in order, each call in the outside world the call before has
    left; the agents become what [test] makes of them, the fitnesses it
    returns are the row returned and appended to [pop_fitnesses]; the
    population keeps its size, the loop's counters are untouched and nothing
    else is done. *)
Theorem evaluate_population_records_one_row (s : St) :
  let '(e', pop', fits) := test_each p (ext s) (pop s) in
  evaluate_population p s
  = (Ok fits,
     {| ext := e'; pop := pop'; total_steps := total_steps s;
        checkpoint_count := checkpoint_count s;
        pop_fitnesses := pop_fitnesses s ++ [fits];
        pop_actor_loss := pop_actor_loss s;
        pop_critic_loss := pop_critic_loss s |}, []) /\
  List.length fits = List.length (pop s) /\
  List.length pop' = List.length (pop s).
Proof.
  pose proof (@evaluate_loop (pop s) [] [] s eq_refl) as E.
  pose proof (test_each_lengths (ext s) (pop s)) as [Lp Lf].
  destruct (test_each p (ext s) (pop s)) as [[e' pop'] fits].
  simpl in E, Lp, Lf. split; [|auto].
  unfold evaluate_population. erewrite bind_ok by reflexivity.
  erewrite bind_ok by exact E. reflexivity.
Qed.

Lemma append_step_ok (a : Agent) :
  steps a <> [] -> append_step a = Ok (repeat_last_step a).
Proof.
  intros Hs. unfold append_step, py_last, repeat_last_step, last_step.
  destruct (rev (steps a)) eqn:Er; [|reflexivity].
  exfalso. apply Hs. apply (f_equal (@rev _)) in Er.
  now rewrite rev_involutive in Er.
Qed.

Lemma append_step_empty (a : Agent) :
  steps a = [] -> append_step a = Raise IndexError.
Proof. intros Hs. unfold append_step, py_last. now rewrite Hs. Qed.

Lemma update_loop (rest done : list Agent) (s : St) :
  pop s = done ++ rest ->
  Forall (fun a => steps a <> []) rest ->
  for_each (seq (List.length done) (List.length rest)) tt
    (fun _ i => a <- get_agent i ;;
                a' <- lift (append_step a) ;;
                put_agent i a') s
  = (Ok tt, set_pop s (done ++ map repeat_last_step rest), []).
Proof.
  revert done s. induction rest as [|a rest IH]; intros done s Hp Hs.
  - simpl. unfold ret. rewrite <- Hp. now destruct s.
  - inversion Hs as [|? ? Ha Hr]; subst. simpl.
    assert (B : (a0 <- get_agent (List.length done) ;;
                 a' <- lift (append_step a0) ;;
                 put_agent (List.length done) a') s
                = (Ok tt, set_pop s (done ++ repeat_last_step a :: rest), [])).
    { unfold bind, get_agent, lift, put_agent.
      rewrite Hp, py_index_middle, (append_step_ok _ Ha), list_set_middle.
      reflexivity. }
    erewrite bind_ok by exact B.
    specialize (IH (done ++ [repeat_last_step a])
                   (set_pop s (done ++ repeat_last_step a :: rest))).
    rewrite length_app, Nat.add_1_r in IH. rewrite IH; auto.
    + simpl. now rewrite <- app_assoc.
    + simpl. now rewrite <- app_assoc.
Qed.

Lemma update_loop_empty (rest done : list Agent) (s : St) :
  pop s = done ++ rest ->
  Exists (fun a => steps a = []) rest ->
  fst (fst (for_each (seq (List.length done) (List.length rest)) tt
              (fun _ i => a <- get_agent i ;;
                          a' <- lift (append_step a) ;;
                          put_agent i a') s))
  = Raise IndexError.
Proof.
  revert done s. induction rest as [|a rest IH]; intros done s Hp Hs.
  - inversion Hs.
  - simpl. destruct (steps a) as [|n l] eqn:Ea.
    + assert (B : (a0 <- get_agent (List.length done) ;;
                   a' <- lift (append_step a0) ;;
                   put_agent (List.length done) a') s
                  = (Raise IndexError, s, [])).
      { unfold bind, get_agent, lift.
        now rewrite Hp, py_index_middle, (append_step_empty _ Ea). }
      now erewrite bind_raise by exact B.
    + assert (Ha : steps a <> []) by (rewrite Ea; discriminate).
      assert (B : (a0 <- get_agent (List.length done) ;;
                   a' <- lift (append_step a0) ;;
                   put_agent (List.length done) a') s
                  = (Ok tt, set_pop s (done ++ repeat_last_step a :: rest),
                     [])).
      { unfold bind, get_agent, lift, put_agent.
        rewrite Hp, py_index_middle, (append_step_ok _ Ha), list_set_middle.
        reflexivity. }
      erewrite bind_ok by exact B.
      inversion Hs as [? ? H0|? ? H0]; subst; [congruence|].
      specialize (IH (done ++ [repeat_last_step a])
                     (set_pop s (done ++ repeat_last_step a :: rest))).
      rewrite length_app, Nat.add_1_r in IH.
      destruct (for_each _ _ _ _) as [[r s2] ev2]. simpl in *.
      apply IH; auto. now rewrite <- app_assoc.
Qed.

(** X5.  The step counter update at the end of a generation gives every
    agent's step history one more entry, a copy of its last one, and changes
    nothing else; it raises [IndexError] when some agent's history is
    empty. *)
Theorem update_step_counters_repeats_last (s : St) :
  (Forall (fun a => steps a <> []) (pop s) ->
   update_step_counters s
   = (Ok tt, set_pop s (map repeat_last_step (pop s)), [])) /\
  (Exists (fun a => steps a = []) (pop s) ->
   fst (fst (update_step_counters s)) = Raise IndexError).
Proof.
  split; intros Hs.
  - pose proof (@update_loop (pop s) [] s eq_refl Hs) as E. simpl in E.
    unfold update_step_counters. erewrite bind_ok by reflexivity.
    rewrite E. reflexivity.
  - pose proof (@update_loop_empty (pop s) [] s eq_refl Hs) as E.
    simpl in E.
    unfold update_step_counters. erewrite bind_ok by reflexivity.
    destruct (for_each _ _ _ s) as [[r s2] ev2]. simpl in *. exact E.
Qed.

End PopulationLoops.

(* ------------------------------------------------------------------ *)
(** ** Edge cases: empty histories, empty population *)

Section Steady.
Context {D : Domain} {C : Collaborators}.

Lemma steady_bind {A B} (m : M A) (f : A -> M B) :
  steady m -> (forall a, steady (f a)) -> steady (bind m f).
Proof.
  intros Hm Hf s. destruct (Hm s) as (a & s1 & ev1 & E1 & P1).
  destruct (Hf a s1) as (b & s2 & ev2 & E2 & P2).
  exists b, s2, (ev1 ++ ev2). split; [|congruence].
  erewrite bind_ok by exact E1. now rewrite E2.
Qed.

Lemma steady_call {A} (f : Ext -> Ext * A) : steady (call f).
Proof.
  intros s. unfold call. destruct (f (ext s)) as [e a].
  exists a, (set_ext s e), []. split; reflexivity.
Qed.

End Steady.

Ltac steady_prim :=
  match goal with
  | |- steady (bind _ _) => apply steady_bind; [|intros ?]
  | |- steady (call _) => apply steady_call
  | |- steady (match ?x with _ => _ end) => destruct x eqn:?
  | |- steady (emit _) => intros ?; eexists _, _, _; split; reflexivity
  | |- steady (ret _) => intros ?; eexists _, _, _; split; reflexivity
  | |- steady (ask _) => intros ?; eexists _, _, _; split; reflexivity
  | |- steady (call_ _) => intros ?; eexists _, _, _; split; reflexivity
  end.

Ltac steady_all := repeat first [steady_prim | solve [eauto]].

Section EdgeCases.
Context {D : Domain} {C : Collaborators}.
Variable p : Params.
Variable env : Env.

Lemma map_outcome_all_ok {A B} (f : A -> outcome B) (g : A -> B)
  (l : list A) :
  Forall (fun a => f a = Ok (g a)) l -> map_outcome f l = Ok (map g l).
Proof.
  induction 1 as [|a l Ha _ IH]; simpl; [reflexivity|].
  now rewrite Ha, IH.
Qed.

Lemma map_outcome_raises {A B} (f : A -> outcome B) (e : exn) (l : list A) :
  Forall (fun a => f a = Raise e \/ exists b, f a = Ok b) l ->
  Exists (fun a => f a = Raise e) l ->
  map_outcome f l = Raise e.
Proof.
  induction 1 as [|a l Ha Hl IH]; intros Hex; [inversion Hex|].
  simpl. destruct Ha as [Ha|[b Ha]]; rewrite Ha; [reflexivity|].
  inversion Hex as [? ? H0|? ? H0]; subst; [congruence|].
  now rewrite IH.
Qed.

Lemma forallb_of_map {A B} (f : B -> bool) (g : A -> B) (l : list A) :
  forallb f (map g l) = forallb (fun a => f (g a)) l.
Proof. induction l as [|a l IH]; simpl; [reflexivity|]. now rewrite IH. Qed.

Lemma py_last_cases {A} (l : list A) :
  (l = [] /\ py_last l = Raise IndexError) \/
  (l <> [] /\ exists x, py_last l = Ok x).
Proof.
  unfold py_last. destruct l as [|h t]; [left; auto|right].
  split; [discriminate|].
  destruct (rev (h :: t)) eqn:Er; eauto.
  apply (f_equal (@rev _)) in Er. rewrite rev_involutive in Er.
  discriminate.
Qed.

Lemma last_of_each {A} (f : Agent -> list A) (l : list Agent) :
  Exists (fun a => f a = []) l ->
  map_outcome (fun a => py_last (f a)) l = Raise IndexError.
Proof.
  intros Hex. apply map_outcome_raises.
  - apply Forall_forall. intros a _.
    destruct (py_last_cases (f a)) as [[_ H0]|[_ H0]]; auto.
  - eapply Exists_impl; [|exact Hex]. intros a Ha. simpl. rewrite Ha.
    reflexivity.
Qed.

(** X6.  The loop condition reads the last entry of every agent's step
    history: with all histories non-empty it holds exactly when every last
    entry is below [max_steps] (so it holds for an empty population); an
    empty history makes it raise [IndexError]. *)
Theorem loop_condition_reads_last_steps (pop0 : list Agent) :
  (Forall (fun a => steps a <> []) pop0 ->
   steps_below p pop0
   = Ok (forallb (fun a => last_step a <? max_steps p) pop0)) /\
  (Exists (fun a => steps a = []) pop0 ->
   steps_below p pop0 = Raise IndexError).
Proof.
  split; intros Hs; unfold steps_below.
  - rewrite (map_outcome_all_ok _ last_step).
    + now rewrite forallb_of_map.
    + eapply Forall_impl; [|exact Hs]. intros a Ha.
      now apply py_last_last_step.
  - now rewrite (last_of_each (@steps _)).
Qed.

Lemma scores_last_ok (a : Agent) :
  scores a <> [] -> exists x, py_last (scores a) = Ok x.
Proof.
  intros Hs. destruct (py_last_cases (scores a)) as [[H0 _]|[_ H0]];
    [contradiction|exact H0].
Qed.

(** X7.  The metrics of a generation are computed whether or not a tracker
    is used, and they index [agent.scores[-1]]: an agent that has not yet
    completed an episode makes them raise [IndexError]; an empty population,
    or an empty list of fitnesses, makes [np.max] raise [ValueError];
    otherwise the five base metrics are returned and nothing is changed. *)
Theorem metrics_need_a_completed_episode (fitnesses : list Float)
  (mean_scores : Float) (s : St) :
  (Exists (fun a => scores a = []) (pop s) ->
   base_metrics p fitnesses mean_scores s = (Raise IndexError, s, [])) /\
  (pop s = [] ->
   base_metrics p fitnesses mean_scores s = (Raise ValueError, s, [])) /\
  (Forall (fun a => scores a <> []) (pop s) -> fitnesses = [] ->
   base_metrics p fitnesses mean_scores s = (Raise ValueError, s, [])) /\
  (Forall (fun a => scores a <> []) (pop s) -> pop s <> [] ->
   fitnesses <> [] ->
   exists d,
     base_metrics p fitnesses mean_scores s = (Ok d, s, []) /\
     dict_keys d = [KStr "global_step"; KStr "train/mean_score";
                    KStr "train/best_score"; KStr "eval/mean_fitness";
                    KStr "eval/best_fitness"] /\
     dict_get d (KStr "eval/mean_fitness") = Some (np_mean fitnesses)).
Proof.
  assert (Hok : Forall (fun a => scores a <> []) (pop s) ->
                exists l, map_outcome (fun a => py_last (scores a)) (pop s)
                          = Ok l /\ List.length l = List.length (pop s)).
  { intros Hs. induction (pop s) as [|a l IH]; simpl; [eauto|].
    inversion Hs as [|? ? Ha Hl]; subst.
    destruct (scores_last_ok _ Ha) as [x ->].
    destruct (IH Hl) as (r & -> & Lr). exists (x :: r). simpl. auto. }
  unfold base_metrics, bind, get, lift, ret.
  split; [|split; [|split]].
  - intros Hex. now rewrite (last_of_each (@scores _) Hex).
  - intros Hp. rewrite Hp. reflexivity.
  - intros Hs Hf. destruct (Hok Hs) as (l & -> & _).
    destruct l; subst; reflexivity.
  - intros Hs Hp Hf. destruct (Hok Hs) as (l & -> & Ll).
    destruct l as [|x l]; [destruct (pop s); [congruence|discriminate]|].
    destruct fitnesses as [|f fs]; [congruence|]. simpl.
    eexists. split; [reflexivity|]. split; reflexivity.
Qed.

Lemma steady_wandb_setup : steady (wandb_setup p).
Proof. unfold wandb_setup, wandb_init. steady_all. Qed.

Lemma steady_make_models_dir : steady (make_models_dir p).
Proof. unfold make_models_dir. steady_all. Qed.

Lemma steady_compute_save_path : steady (compute_save_path p).
Proof. unfold compute_save_path. steady_all. Qed.

Lemma steady_init_locals : steady (init_locals env).
Proof.
  intros s. unfold init_locals, bind, get, put. simpl.
  eexists _, _, _. split; reflexivity.
Qed.

Lemma generation_on_empty_population save_path sampler elite s :
  accelerator p = None -> pop s = [] ->
  exists s' ev,
    generation p env save_path sampler elite s = (Raise ValueError, s', ev).
Proof.
  intros Hacc Hp. unfold generation. rewrite Hacc.
  destruct s as [e0 pop0 ts cc pf pal pcl]. simpl in Hp. subst pop0.
  eexists _, _. cbv. reflexivity.
Qed.

(** X8.  On an empty population the function does not return: a
    single-process run without pre-training mutation enters the loop (the
    condition holds for no agent at all) and raises [ValueError] at the
    first generation's metrics; a distributed run raises [IndexError]
    earlier, when the sampler reads [pop[0].batch_size]. *)
Theorem empty_population_raises (fuel : nat) (e : Ext) :
  (accelerator p = None -> mutation p = None ->
   exists s ev,
     train_multi_agent p env (S fuel) [] e = (Raise ValueError, s, ev)) /\
  (accelerator p <> None ->
   exists s ev,
     train_multi_agent p env fuel [] e = (Raise IndexError, s, ev)).
Proof.
  unfold train_multi_agent, train_body.
  split.
  - intros Hacc Hmut.
    erewrite bind_ok by apply check_save_flags_run.
    assert (S0 : steady (setup_after_checks p env)).
    { pose proof steady_wandb_setup. pose proof steady_make_models_dir.
      pose proof steady_compute_save_path. pose proof steady_init_locals.
      unfold setup_after_checks, make_sampler, pre_training_mutation.
      rewrite Hacc, Hmut. steady_all. }
    destruct (S0 (initial_state e [])) as ([sp sm] & s1 & ev1 & E1 & P1).
    simpl in P1. unfold train_after_checks.
    erewrite bind_ok by exact E1. cbv beta iota.
    assert (G : loop_guard p s1 = (Ok true, s1, [])).
    { unfold loop_guard, bind, get_pop, lift. now rewrite P1. }
    destruct (generation_on_empty_population sp sm None s1 Hacc P1)
      as (s2 & ev2 & E2).
    simpl training_loop. erewrite bind_ok by exact G. cbv beta iota.
    erewrite bind_raise by exact E2. simpl. eauto.
  - intros Hacc. destruct (accelerator p) as [acc|] eqn:Ea; [|congruence].
    erewrite bind_ok by apply check_save_flags_run.
    unfold train_after_checks, setup_after_checks.
    destruct (steady_wandb_setup (initial_state e []))
      as (u1 & s1 & ev1 & E1 & P1).
    destruct (steady_make_models_dir s1) as (u2 & s2 & ev2 & E2 & P2).
    destruct (steady_compute_save_path s2) as (sp & s3 & ev3 & E3 & P3).
    assert (E4 : make_sampler p s3 = (Raise IndexError, s3, [])).
    { unfold make_sampler. rewrite Ea. unfold bind, get_agent.
      rewrite P3, P2, P1. reflexivity. }
    assert (E : setup_after_checks p env (initial_state e [])
                = (Raise IndexError, s3, ev1 ++ ev2 ++ ev3 ++ [])).
    { unfold setup_after_checks.
      erewrite bind_ok by exact E1. erewrite bind_ok by exact E2.
      erewrite bind_ok by exact E3. erewrite bind_raise by exact E4.
      reflexivity. }
    fold (setup_after_checks p env).
    erewrite bind_raise by exact E. simpl. eauto.
Qed.

End EdgeCases.

(* ------------------------------------------------------------------ *)
(** ** Inside a rollout step: when the agent learns, when an episode ends *)

Section RolloutStep.
Context {D : Domain} {C : Collaborators}.
Variable p : Params.
Variable env : Env.

(** X9.  No learning takes place while the replay memory holds less than
    a batch, while its counter has not passed [learning_delay], or, for an
    agent whose [learn_step] exceeds the number of environments, on a step
    whose index is not a multiple of [learn_step // num_envs]: the losses,
    the agent and the outside world stay as they are. *)
Theorem no_learning_before_batch_and_delay (sampler : option Z)
  (agent_idx : nat) (idx_step : Z) (losses : Dict (list LossEntry))
  (s : St) (a : Agent) :
  py_index (pop s) agent_idx = Ok a ->
  0 < num_envs env ->
  memory_len (ext s) < batch_size a \/
  memory_counter (ext s) <= learning_delay p \/
  (num_envs env < learn_step a /\
   idx_step mod (learn_step a / num_envs env) <> 0) ->
  learn_phase p env sampler agent_idx idx_step losses s = (Ok losses, s, []).
Proof.
  intros Ha Hn Hcond.
  unfold learn_phase. unfold bind at 1, get_agent. rewrite Ha.
  destruct (num_envs env <? learn_step a) eqn:Els.
  - apply Z.ltb_lt in Els.
    assert (Hq : 1 <= learn_step a / num_envs env)
      by (apply Z.div_le_lower_bound; lia).
    unfold bind at 1, lift, py_floordiv.
    replace (num_envs env =? 0) with false by (symmetry; apply Z.eqb_neq; lia).
    unfold bind at 1, py_mod.
    replace (learn_step a / num_envs env =? 0) with false
      by (symmetry; apply Z.eqb_neq; lia).
    destruct (idx_step mod (learn_step a / num_envs env) =? 0) eqn:Em;
      [|reflexivity].
    apply Z.eqb_eq in Em.
    unfold bind at 1, ask.
    destruct (batch_size a <=? memory_len (ext s)) eqn:Eb; [|reflexivity].
    apply Z.leb_le in Eb.
    unfold bind at 1.
    destruct (learning_delay p <? memory_counter (ext s)) eqn:Ed;
      [|reflexivity].
    apply Z.ltb_lt in Ed. lia.
  - apply Z.ltb_ge in Els.
    unfold bind at 1, ask.
    destruct (batch_size a <=? memory_len (ext s)) eqn:Eb; [|reflexivity].
    apply Z.leb_le in Eb.
    unfold bind at 1.
    destruct (learning_delay p <? memory_counter (ext s)) eqn:Ed;
      [|reflexivity].
    apply Z.ltb_lt in Ed. lia.
Qed.

Lemma all_some_scalars {A} (l : list A) :
  all_some (map cell_scalar (map Scalar l)) = Some l.
Proof. induction l as [|x l IH]; simpl; [reflexivity|]. now rewrite IH. Qed.

Lemma np_array_scalars {A} (l : list A) :
  np_array (map Scalar l) = Ok (Arr1 l).
Proof. unfold np_array. now rewrite all_some_scalars. Qed.

(** The loop over the done and truncation flags of one step, from position
    [i0] on, when the score array has one entry: a flag raised at a position
    other than 0 ends it with [IndexError]. *)
Lemma flags_loop_index_error (agent_idx : nat)
  (items : list (list bool * list bool)) (i0 : nat) (r : Rollout)
  (idxs : list nat) (s : St) :
  wrapper_num_envs env = None ->
  List.length (r_scores r) = 1%nat ->
  (exists j d t, nth_error items j = Some (d, t) /\
                 np_any d || np_any t = true /\ (1 <= i0 + j)%nat) ->
  fst (fst (for_each (combine (seq i0 (List.length items)) items) (r, idxs)
      (fun acc item =>
         let '(r, reset_noise_indices) := acc in
         let '(idx, (d, t)) := item in
         if np_any d || np_any t then
           sc <- lift (py_index (r_scores r) idx) ;;
           agent <- get_agent agent_idx ;;
           put_agent agent_idx (set_scores agent (scores agent ++ [sc])) ;;
           let r1 := {| r_state := r_state r; r_info := r_info r;
                        r_scores := list_set (r_scores r) idx fzero;
                        r_losses := r_losses r;
                        r_completed := r_completed r ++ [sc];
                        r_steps := r_steps r |} in
           b <- read_is_vectorised env ;;
           if negb b then
             '(state, info) <- call env_reset ;;
             emit EnvReset ;;
             ret ({| r_state := state; r_info := info;
                     r_scores := r_scores r1; r_losses := r_losses r1;
                     r_completed := r_completed r1; r_steps := r_steps r1 |},
                  reset_noise_indices ++ [idx])
           else ret (r1, reset_noise_indices ++ [idx])
         else ret acc) s))
  = Raise IndexError.
Proof.
  intros Hw.
  match goal with
  | |- context [for_each _ _ ?b] => set (B := b)
  end.
  revert i0 r idxs s.
  induction items as [|[d t] items IH]; intros i0 r idxs s Hlen Hex.
  - destruct Hex as (j & d & t & Hj & _). destruct j; discriminate.
  - cbn [List.length seq combine for_each].
    destruct (r_scores r) as [|sc [|? ?]] eqn:Esc; try discriminate.
    destruct (np_any d || np_any t) eqn:Ef.
    + destruct i0 as [|i0].
      * (* position 0: the score is read, the loop goes on *)
        destruct Hex as (j & d' & t' & Hj & Hf & Hle).
        destruct j as [|j]; [lia|]. simpl in Hj.
        assert (Hb : fst (fst (B (r, idxs) (0%nat, (d, t)) s))
                       = Raise IndexError \/
                     exists r1 i1 s1 ev1,
                       B (r, idxs) (0%nat, (d, t)) s = (Ok (r1, i1), s1, ev1)
                       /\ List.length (r_scores r1) = 1%nat).
        { unfold B. rewrite Ef, Esc.
          unfold bind, lift, get_agent, py_index, put_agent,
            read_is_vectorised, is_vectorised, call, emit, ret.
          rewrite Hw. cbn [nth_error negb].
          destruct (nth_error (pop s) agent_idx) as [a|]; [|now left].
          cbn [ext set_pop].
          destruct (env_reset _) as [e1 [st info]].
          right. do 4 eexists. split; [reflexivity|]. reflexivity. }
        unfold bind.
        destruct Hb as [Hb | (r1 & i1 & s1 & ev1 & Hb & Hl1)].
        -- destruct (B (r, idxs) (0%nat, (d, t)) s) as [[[x| |] s1] ev1];
             simpl in Hb; try discriminate. exact Hb.
        -- rewrite Hb.
           pose proof (IH 1%nat r1 i1 s1 Hl1) as IH1.
           destruct (for_each _ _ _ _) as [[res s2] ev2]. simpl in *.
           apply IH1. exists j, d', t'. repeat split; auto; lia.
      * (* a position other than 0: the one-entry score array is indexed *)
        unfold bind at 1. unfold B at 1. rewrite Ef, Esc.
        unfold bind at 1. unfold lift, py_index.
        destruct i0; reflexivity.
    + unfold bind at 1. unfold B at 1. rewrite Ef. unfold ret at 1.
      destruct Hex as (j & d' & t' & Hj & Hf & Hle).
      destruct j as [|j].
      * simpl in Hj. injection Hj as <- <-. congruence.
      * simpl in Hj.
        assert (Hlen' : List.length (r_scores r) = 1%nat)
          by (now rewrite Esc).
        pose proof (IH (S i0) r idxs s Hlen') as IH1.
        destruct (for_each _ _ _ _) as [[res s2] ev2]. simpl in *.
        apply IH1. exists j, d', t'. repeat split; auto; lia.
Qed.

(** X10.  On a non-vectorised environment whose done and truncation values
    are scalars, the flags are iterated agent by agent while the score array
    has a single entry: as soon as a flag is raised for an agent other than
    the first, the step ends with [IndexError]. *)
Theorem scalar_flags_index_error (agent_idx : nat) (dn tr : Dict (Cell bool))
  (r : Rollout) (s : St) (ds ts : list bool) (k : nat) (dk tk : bool) :
  wrapper_num_envs env = None ->
  dict_values dn = map Scalar ds ->
  dict_values tr = map Scalar ts ->
  List.length (r_scores r) = 1%nat ->
  (1 <= k)%nat ->
  nth_error ds k = Some dk ->
  nth_error ts k = Some tk ->
  dk || tk = true ->
  fst (fst (episode_ends env agent_idx dn tr r s)) = Raise IndexError.
Proof.
  intros Hw Hd Ht Hlen Hk Hdk Htk Hf.
  unfold episode_ends. rewrite Hd, Ht, !np_array_scalars.
  unfold bind at 1, lift. cbv beta iota.
  unfold bind at 1. cbv beta iota.
  unfold enumerate, np_transpose, np_iter.
  set (items := combine (map (fun x => [x]) ds) (map (fun x => [x]) ts)).
  assert (Hex : exists j d t, nth_error items j = Some (d, t) /\
                  np_any d || np_any t = true /\ (1 <= 0 + j)%nat).
  { exists k, [dk], [tk]. split; [|split; [|lia]].
    - unfold items. clear -Hdk Htk. revert k ts Hdk Htk.
      induction ds as [|x ds IH]; intros [|k] [|y ts] Hdk Htk;
        try discriminate; simpl in *.
      + congruence.
      + now apply IH.
    - simpl. now rewrite !Bool.orb_false_r. }
  pose proof (flags_loop_index_error agent_idx items 0 r [] s Hw Hlen Hex)
    as E.
  unfold bind at 1.
  destruct (for_each _ _ _ _) as [[res s2] ev2]. simpl in *.
  now rewrite E.
Qed.

End RolloutStep.

(* ------------------------------------------------------------------ *)
(** ** Step accounting of a rollout window *)

Section Accounting.
Context {D : Domain} {C : Collaborators}.

Lemma count_events_app (f : Event -> bool) (a b : list Event) :
  count_events f (a ++ b) = (count_events f a + count_events f b)%nat.
Proof. unfold count_events. now rewrite filter_app, length_app. Qed.

Lemma accounts_bind {A B} d1 e1 k1 d2 e2 k2 (Q : A -> Prop) (R : B -> Prop)
  (m : M A) (f : A -> M B) :
  accounts d1 e1 k1 Q m ->
  (forall a, Q a -> accounts d2 e2 k2 R (f a)) ->
  accounts (d1 + d2) (e1 + e2) (k1 + k2) R (bind m f).
Proof.
  intros Hm Hf s b s' ev. unfold bind.
  destruct (m s) as [[[a|e|] s1] ev1] eqn:E1; try discriminate.
  destruct (f a s1) as [[r s2] ev2] eqn:E2. intros H.
  injection H as -> -> <-.
  destruct (Hm _ _ _ _ E1) as (T1 & N1 & M1 & Qa).
  destruct (Hf _ Qa _ _ _ _ E2) as (T2 & N2 & M2 & Rb).
  rewrite !count_events_app. repeat split; auto; lia.
Qed.

Lemma accounts_cast {A} d e k d' e' k' (Q : A -> Prop) (m : M A) :
  accounts d e k Q m -> d = d' -> e = e' -> k = k' ->
  accounts d' e' k' Q m.
Proof. now intros H <- <- <-. Qed.

Lemma accounts_quiet_bind {A B} (Q : A -> Prop) (R : B -> Prop)
  (m : M A) (f : A -> M B) :
  accounts 0 0 0 Q m ->
  (forall a, Q a -> accounts 0 0 0 R (f a)) ->
  accounts 0 0 0 R (bind m f).
Proof.
  intros Hm Hf.
  exact (@accounts_bind A B 0 0%nat 0%nat 0 0%nat 0%nat Q R m f Hm Hf).
Qed.

Lemma accounts_ret {A} (Q : A -> Prop) (a : A) :
  Q a -> accounts 0 0 0 Q (ret a).
Proof.
  intros H s b s' ev E. unfold ret in E. injection E as <- <- <-.
  repeat split; auto. lia.
Qed.

Lemma accounts_raise {A} d e k (Q : A -> Prop) (x : exn) :
  accounts d e k Q (raise x).
Proof. intros s b s' ev E. discriminate. Qed.

Lemma accounts_lift {A} (o : outcome A) :
  accounts 0 0 0 (fun a => o = Ok a) (lift o).
Proof.
  intros s b s' ev E. unfold lift in E. injection E as -> <- <-.
  repeat split; auto. lia.
Qed.

Lemma accounts_weaken {A} d e k (Q R : A -> Prop) (m : M A) :
  accounts d e k Q m -> (forall a, Q a -> R a) -> accounts d e k R m.
Proof.
  intros H HQ s a s' ev E. destruct (H _ _ _ _ E) as (? & ? & ? & ?).
  auto.
Qed.

Lemma accounts_quiet {A} (m : M A) :
  (forall s, total_steps (snd (fst (m s))) = total_steps s /\
             snd (m s) = []) ->
  accounts 0 0 0 (fun _ => True) m.
Proof.
  intros H s a s' ev E. destruct (H s) as [T N]. rewrite E in T, N.
  simpl in T, N. subst ev. repeat split; auto. lia.
Qed.

Lemma accounts_emit (e : Event) :
  accounts 0 (count_events is_env_step [e])
           (count_events is_memory_write [e]) (fun _ => True) (emit e).
Proof.
  intros s a s' ev E. unfold emit in E. injection E as _ <- <-.
  repeat split; auto. lia.
Qed.

Lemma accounts_quiet_for_each {A B} (Q : B -> Prop) (l : list A)
  (body : B -> A -> M B) :
  (forall acc x, Q acc -> accounts 0 0 0 Q (body acc x)) ->
  forall acc, Q acc -> accounts 0 0 0 Q (for_each l acc body).
Proof.
  intros Hb. induction l as [|x l IH]; intros acc Hacc; simpl.
  - now apply accounts_ret.
  - eapply accounts_quiet_bind; [apply Hb; exact Hacc|].
    intros a Ha. now apply IH.
Qed.

(** A loop whose every iteration accounts for the same amounts accounts
    for as many times these as it has iterations. *)
Lemma accounts_for_each {A B} d e k (I : nat -> B -> Prop) (l : list A)
  (body : B -> A -> M B) :
  (forall i acc x, I i acc -> accounts d e k (I (S i)) (body acc x)) ->
  forall i0 acc, I i0 acc ->
  accounts (d * Z.of_nat (List.length l)) (e * List.length l)
           (k * List.length l) (I (i0 + List.length l)%nat)
           (for_each l acc body).
Proof.
  intros Hb. induction l as [|x l IH]; intros i0 acc Hacc.
  - simpl for_each. simpl List.length.
    eapply accounts_cast; [apply accounts_ret| | |]; try lia.
    now rewrite Nat.add_0_r.
  - intros s b s' ev E. simpl for_each in E.
    pose proof (@accounts_bind _ _ _ _ _ _ _ _ _ _ _ _
                  (Hb i0 acc x Hacc) (fun a Ha => IH (S i0) a Ha)) as H.
    destruct (H _ _ _ _ E) as (T & N & M' & Q).
    simpl List.length. rewrite Nat.add_succ_r.
    repeat split; auto; lia.
Qed.

End Accounting.

Ltac quiet_prim :=
  apply accounts_quiet; intros ?;
  unfold call, call_, ask, get_agent, put_agent, agent_call, get_pop, lift,
    ret, raise, read_is_vectorised, is_vectorised;
  repeat match goal with
         | |- context [match ?x with _ => _ end] => destruct x
         end;
  split; reflexivity.

(** Splits a computation that touches neither the step total, the
    environment nor the replay memory along its binds. *)
Ltac quiet_step :=
  match goal with
  | |- accounts _ _ _ _ (bind _ _) =>
      eapply accounts_quiet_bind with (Q := fun _ => True); [|intros ? _]
  | |- accounts _ _ _ _ (for_each _ _ _) =>
      apply accounts_quiet_for_each; [intros ? ? _|exact I]
  | |- accounts _ _ _ _ (emit ?e) => exact (@accounts_emit _ e)
  | |- accounts _ _ _ _ (ret _) => apply accounts_ret; simpl; auto
  | |- accounts _ _ _ _ (raise _) => apply accounts_raise
  | |- accounts _ _ _ _ (match ?x with _ => _ end) => destruct x
  | |- accounts _ _ _ _ (let '(_, _) := ?x in _) => destruct x
  | |- accounts _ _ _ _ _ => quiet_prim
  end.

Section WindowAccounting.
Context {D : Domain} {C : Collaborators}.
Variable p : Params.
Variable env : Env.

Lemma learn_phase_quiet sampler agent_idx idx_step losses :
  accounts 0 0 0 (fun _ => True)
    (learn_phase p env sampler agent_idx idx_step losses).
Proof. unfold learn_phase, learn_once. repeat quiet_step. Qed.

Lemma episode_ends_quiet agent_idx dn tr (r : Rollout) :
  accounts 0 0 0 (fun r' => r_steps r' = r_steps r)
    (episode_ends env agent_idx dn tr r).
Proof.
  unfold episode_ends.
  quiet_step; [quiet_step|]. quiet_step; [quiet_step|].
  eapply accounts_quiet_bind
    with (Q := fun acc : Rollout * list nat => r_steps (fst acc) = r_steps r).
  - apply accounts_quiet_for_each; [|reflexivity].
    intros [r1 idxs] [idx [d t]] Hacc. simpl in Hacc.
    repeat quiet_step.
  - intros [r1 idxs] Hacc. simpl in Hacc. repeat quiet_step.
Qed.

Lemma act_in_env_accounts agent_idx (r : Rollout) :
  accounts (num_envs env) 1 0 (fun _ => True) (act_in_env env agent_idx r).
Proof.
  unfold act_in_env.
  eapply accounts_cast;
    [eapply accounts_bind; [quiet_prim|intros [? ?] _];
     eapply accounts_bind; [quiet_prim|intros ? _];
     eapply accounts_bind; [quiet_prim|intros ? _];
     eapply accounts_bind; [exact (@accounts_emit _ EnvStep)|intros ? _];
     eapply accounts_bind; [quiet_prim|intros ? _];
     eapply accounts_bind; [quiet_prim|intros ? _]| | |].
  - intros st x st' ev E. unfold bind, get, put, ret in E.
    injection E as <- <- <-. simpl. repeat split; reflexivity.
  - simpl. lia.
  - reflexivity.
  - reflexivity.
Qed.

Lemma save_experience_accounts (r : Rollout) cont_actions res :
  accounts 0 0 1 (fun _ => True) (save_experience p env r cont_actions res).
Proof.
  unfold save_experience.
  eapply accounts_cast;
    [eapply accounts_bind with (Q := fun _ => True);
       [repeat quiet_step|intros [? ?] _];
     eapply accounts_bind; [quiet_prim|intros ? _];
     eapply accounts_bind; [quiet_prim|intros ? _];
     eapply accounts_bind; [exact (@accounts_emit _ Save2Memory)|intros ? _];
     apply accounts_ret; exact I| | |]; reflexivity.
Qed.

Lemma rollout_step_accounts sampler agent_idx (r : Rollout) idx_step :
  accounts (num_envs env) 1 1
    (fun r' => r_steps r' = r_steps r + num_envs env)
    (rollout_step p env sampler agent_idx r idx_step).
Proof.
  unfold rollout_step.
  eapply accounts_cast;
    [eapply accounts_bind; [apply act_in_env_accounts|intros [[? ?] ?] _];
     eapply accounts_bind; [apply save_experience_accounts|intros ? _];
     eapply accounts_bind; [apply learn_phase_quiet|intros ? _];
     eapply accounts_bind with (Q := fun _ => True);
       [repeat quiet_step|intros ? _];
     apply episode_ends_quiet| | |]; simpl; lia.
Qed.

Lemma rollout_init_quiet :
  accounts 0 0 0 (fun r => r_steps r = 0) (rollout_init p env).
Proof. unfold rollout_init. repeat quiet_step. Qed.

(** X11.  A rollout window that completes has taken
    [evo_steps // num_envs] steps in the environment, written as many
    transitions to the replay memory, and counted [num_envs] steps for each
    of them, in the window's own counter and in the running total alike. *)
Theorem rollout_window_accounting (sampler : option Z) (agent_idx : nat)
  (s s' : St) (r : Rollout) (ev : list Event) :
  rollout p env sampler agent_idx s = (Ok r, s', ev) ->
  r_steps r = num_envs env * Z.max 0 (evo_steps p / num_envs env) /\
  total_steps s'
  = total_steps s + num_envs env * Z.max 0 (evo_steps p / num_envs env) /\
  count_events is_env_step ev = Z.to_nat (evo_steps p / num_envs env) /\
  count_events is_memory_write ev = Z.to_nat (evo_steps p / num_envs env).
Proof.
  intros E.
  assert (H : accounts
                (num_envs env * Z.max 0 (evo_steps p / num_envs env))
                (Z.to_nat (evo_steps p / num_envs env))
                (Z.to_nat (evo_steps p / num_envs env))
                (fun r => r_steps r
                          = num_envs env
                            * Z.max 0 (evo_steps p / num_envs env))
                (rollout p env sampler agent_idx)).
  { unfold rollout, py_floordiv.
    destruct (num_envs env =? 0) eqn:Ez.
    - intros st x st' ev0 E0. unfold bind in E0.
      destruct (rollout_init p env st) as [[[r0|e0|] s1] ev1];
        discriminate.
    - assert (L : List.length (py_range (evo_steps p / num_envs env))
                  = Z.to_nat (evo_steps p / num_envs env))
        by (unfold py_range; now rewrite length_map, length_seq).
      intros st x st' ev0 E0.
      apply bind_ok_inv in E0 as (r0 & s1 & ev1 & ev2 & E1 & E2 & ->).
      apply bind_ok_inv in E2 as (n & s2 & ev3 & ev4 & El & E2 & ->).
      unfold lift in El. injection El as <- <- <-.
      pose proof rollout_init_quiet as HI.
      destruct (HI _ _ _ _ E1) as (T1 & N1 & M1 & Hr0).
      assert (Hb : forall i acc y,
                 r_steps acc = Z.of_nat i * num_envs env ->
                 accounts (num_envs env) 1 1
                   (fun r1 => r_steps r1 = Z.of_nat (S i) * num_envs env)
                   (rollout_step p env sampler agent_idx acc y)).
      { intros i acc y Hacc.
        eapply accounts_weaken; [apply rollout_step_accounts|].
        intros a Ha. simpl in Ha. rewrite Ha, Hacc. lia. }
      pose proof (@accounts_for_each _ _ _ (num_envs env) 1%nat 1%nat
                    (fun i r1 => r_steps r1 = Z.of_nat i * num_envs env)
                    (py_range (evo_steps p / num_envs env))
                    (rollout_step p env sampler agent_idx) Hb 0%nat r0 Hr0)
        as HL.
      destruct (HL _ _ _ _ E2) as (T2 & N2 & M2 & Q2).
      rewrite !count_events_app, N1, M1, N2, M2, T2, T1, Q2, L.
      simpl. repeat split; lia. }
  destruct (H _ _ _ _ E) as (T & N & M' & Q). auto.
Qed.

End WindowAccounting.

(* ------------------------------------------------------------------ *)
(** ** Selection on a process that is not the main one *)

Section OffMain.
Context {D : Domain} {C : Collaborators}.
Variable p : Params.



End OffMain.

(* ------------------------------------------------------------------ *)
(** ** The save paths: cutting at [".pt"] *)

Section SavePaths.

Lemma prefix_pt_app (c : ascii) (a b : string) :
  String.prefix ".pt" (String c a) = false ->
  String.prefix ".pt" (String c (a +++ ".pt" +++ b)) = false.
Proof.
  cbn [String.prefix].
  destruct (ascii_dec "." c); [|reflexivity].
  destruct a as [|c2 a]; [reflexivity|]. cbn [String.prefix append].
  destruct (ascii_dec "p" c2); [|reflexivity].
  destruct a as [|c3 a]; [reflexivity|]. cbn [String.prefix append].
  destruct (ascii_dec "t" c3); [|reflexivity].
  intros H. destruct a; discriminate H.
Qed.

(** The text before the first [".pt"]: a path without the extension is
    kept whole, and a path made of an extension-free stem, the extension and
    anything after it is cut down to the stem. *)
Lemma split_pt_head_spec :
  (forall s, contains_pt s = false -> split_pt_head s = s) /\
  (forall a b, contains_pt a = false ->
               split_pt_head (a +++ ".pt" +++ b) = a).
Proof.
  split.
  - induction s as [|c s IH]; [reflexivity|].
    cbn [contains_pt split_pt_head]. intros H.
    apply Bool.orb_false_iff in H as [Hp Hc]. rewrite Hp.
    now rewrite IH.
  - induction a as [|c a IH]; intros b H.
    + destruct b; reflexivity.
    + cbn [contains_pt] in H.
      apply Bool.orb_false_iff in H as [Hp Hc].
      change (split_pt_head (String c a +++ ".pt" +++ b))
        with (if String.prefix ".pt" (String c (a +++ ".pt" +++ b))
              then EmptyString
              else String c (split_pt_head (a +++ ".pt" +++ b))).
      rewrite (prefix_pt_app c a b Hp). now rewrite IH.
Qed.

End SavePaths.

Section SavePathsOfARun.
Context {D : Domain} {C : Collaborators}.
Variable p : Params.

(** X13.  The save paths are cut at the first [".pt"] and the extension is
    put back when a file is written.  For a stem without [".pt"]: a
    [checkpoint_path] of [stem], of [stem.pt] or of [stem.pt] followed by
    anything gives the save path [stem]; with [save_elite], an [elite_path]
    of [stem] or of [stem.pt] writes the elite to [stem.pt], in one call and
    nothing else. *)
Theorem save_paths_cut_at_extension (stem rest : string) (el : Agent)
  (s : St) :
  contains_pt stem = false ->
  (checkpoint_path p = Some stem \/
   checkpoint_path p = Some (stem +++ ".pt" +++ rest) ->
   compute_save_path p s = (Ok stem, s, [])) /\
  (save_elite p = true ->
   elite_path p = Some stem \/ elite_path p = Some (stem +++ ".pt") ->
   save_elite_checkpoint p (Some el) s
   = (Ok tt, set_ext s (saveCheckpoint (ext s) el (stem +++ ".pt")),
      [SaveCheckpoint (stem +++ ".pt") el])).
Proof.
  intros Hstem. destruct split_pt_head_spec as [H1 H2]. split.
  - intros [Hc|Hc]; unfold compute_save_path; rewrite Hc.
    + now rewrite (H1 _ Hstem).
    + now rewrite (H2 _ rest Hstem).
  - intros Hs [He|He]; unfold save_elite_checkpoint; rewrite Hs, He.
    + now rewrite (H1 _ Hstem).
    + change (stem +++ ".pt") with (stem +++ ".pt" +++ "") at 1.
      now rewrite (H2 _ "" Hstem).
Qed.

End SavePathsOfARun.

(* ------------------------------------------------------------------ *)
(** ** The end of an episode on a single environment *)

Section EpisodeBoundary.
Context {D : Domain} {C : Collaborators}.
Variable env : Env.

Lemma nth_error_list_set_eq {A} (l : list A) (i : nat) (a v : A) :
  nth_error l i = Some a -> nth_error (list_set l i v) i = Some v.
Proof.
  revert i. induction l as [|h t IH]; intros [|i] H; simpl in *;
    try discriminate; auto.
Qed.

Lemma nth_error_list_set_neq {A} (l : list A) (i j : nat) (v : A) :
  i <> j -> nth_error (list_set l i v) j = nth_error l j.
Proof.
  revert i j. induction l as [|h t IH]; intros [|i] [|j] H; simpl;
    try reflexivity; try congruence.
  apply IH. congruence.
Qed.

Lemma all_some_vecs {A} (l : list A) :
  all_some (map cell_vec (map (fun b => Vec [b]) l))
  = Some (map (fun b => [b]) l).
Proof. induction l as [|x l IH]; simpl; [reflexivity|]. now rewrite IH. Qed.

Lemma transpose_singletons {A} (l : list A) :
  transpose_rows 1 (map (fun b => [b]) l) = [l].
Proof. induction l as [|x l IH]; simpl; [reflexivity|]. now rewrite IH. Qed.

(** One-element arrays, one per agent, stacked and transposed: a single
    row with one flag per agent. *)
Lemma np_array_vecs {A} (l : list A) :
  l <> [] ->
  np_array (map (fun b => Vec [b]) l) = Ok (Arr2 (map (fun b => [b]) l)) /\
  np_iter (np_transpose (Arr2 (map (fun b => [b]) l))) = [l].
Proof.
  intros Hl. destruct l as [|x l]; [congruence|]. split.
  - unfold np_array.
    change (all_some (map cell_scalar (map (fun b => Vec [b]) (x :: l))))
      with (@None (list A)).
    rewrite all_some_vecs. cbn [map].
    replace (forallb _ _) with true; [reflexivity|].
    symmetry. apply forallb_forall. intros r Hr.
    apply in_map_iff in Hr as (b & <- & _). reflexivity.
  - unfold np_iter, np_transpose. cbn [map hd List.length].
    exact (transpose_singletons (x :: l)).
Qed.

(** X14.  On a single environment whose done and truncation values are
    one-element arrays, the flags of a step form one row.  If no agent is
    done or truncated the step changes nothing but the action noise, reset
    on no index.  If some agent is, the running score is appended to the
    agent's scores and to the window's completed episodes, the running score
    restarts at zero, and the environment is reset once. *)
Theorem episode_boundary_single_env (agent_idx : nat)
  (dn tr : Dict (Cell bool)) (r : Rollout) (s : St) (ds ts : list bool)
  (a : Agent) (sc : Float) :
  wrapper_num_envs env = None ->
  ds <> [] -> ts <> [] ->
  dict_values dn = map (fun b => Vec [b]) ds ->
  dict_values tr = map (fun b => Vec [b]) ts ->
  r_scores r = [sc] ->
  nth_error (pop s) agent_idx = Some a ->
  (np_any ds || np_any ts = false ->
   episode_ends env agent_idx dn tr r s
   = (Ok r,
      set_pop s (list_set (pop s) agent_idx (reset_action_noise a [])),
      [])) /\
  (np_any ds || np_any ts = true ->
   exists s',
     episode_ends env agent_idx dn tr r s
     = (Ok {| r_state := fst (snd (env_reset (ext s)));
              r_info := snd (snd (env_reset (ext s)));
              r_scores := [fzero]; r_losses := r_losses r;
              r_completed := r_completed r ++ [sc];
              r_steps := r_steps r |}, s', [EnvReset]) /\
     nth_error (pop s') agent_idx
     = Some (reset_action_noise (set_scores a (scores a ++ [sc])) [0%nat]) /\
     (forall j, j <> agent_idx ->
                nth_error (pop s') j = nth_error (pop s) j) /\
     ext s' = fst (env_reset (ext s)) /\
     total_steps s' = total_steps s).
Proof.
  intros Hw Hds Hts Hd Ht Hsc Ha.
  destruct (np_array_vecs Hds) as [Ad Id].
  destruct (np_array_vecs Hts) as [At It].
  unfold episode_ends. rewrite Hd, Ht, Ad, At.
  erewrite bind_ok by reflexivity. cbv beta iota.
  erewrite bind_ok by reflexivity. cbv beta iota.
  rewrite Id, It. unfold enumerate. cbn [combine List.length seq for_each].
  split; intros Hf; rewrite Hf.
  - unfold bind, ret, get_agent, put_agent, py_index. rewrite Ha.
    reflexivity.
  - rewrite Hsc.
    assert (Hv : read_is_vectorised env = ret false)
      by (unfold read_is_vectorised, is_vectorised; now rewrite Hw).
    rewrite Hv.
    cbv [bind ret lift get_agent put_agent py_index call emit negb].
    cbn [nth_error]. rewrite Ha. cbn [ext set_pop].
    destruct (env_reset (ext s)) as [e1 [st info]] eqn:Er.
    cbn [pop set_ext set_pop].
    rewrite (nth_error_list_set_eq _ _ _ Ha).
    eexists. split; [reflexivity|]. cbn [pop set_pop ext set_ext fst snd].
    split; [|split; [|split]].
    + eapply nth_error_list_set_eq. eapply nth_error_list_set_eq. exact Ha.
    + intros j Hj. rewrite !nth_error_list_set_neq by congruence.
      reflexivity.
    + reflexivity.
    + reflexivity.
Qed.

End EpisodeBoundary.

(* ------------------------------------------------------------------ *)
(** ** The properties above on the scripted world *)

Lemma no_learning_before_batch_and_delay_witness :
  learn_phase (Scripted.params 200 25 None None)
    (Scripted.plain_env Scripted.int_ids) None 0 3 []
    Scripted.two_generations_in
  = (Ok [], Scripted.two_generations_in, []).
Proof.
  apply (@no_learning_before_batch_and_delay _ _
           (Scripted.params 200 25 None None)
           (Scripted.plain_env Scripted.int_ids) None 0%nat 3 []
           Scripted.two_generations_in
           (set_steps (Scripted.new_agent 0) [25; 50])).
  - reflexivity.
  - reflexivity.
  - left. reflexivity.
Defined.

Lemma scalar_flags_index_error_witness :
  fst (fst (episode_ends (Scripted.plain_env Scripted.int_ids) 0
              [(KInt 0, Scalar false); (KInt 1, Scalar false)]
              [(KInt 0, Scalar false); (KInt 1, Scalar true)]
              Scripted.first_step_rollout Scripted.two_generations_in))
  = Raise IndexError.
Proof.
  apply (@scalar_flags_index_error _ _ (Scripted.plain_env Scripted.int_ids)
           0%nat _ _ Scripted.first_step_rollout Scripted.two_generations_in
           [false; false] [false; true] 1%nat false true);
    reflexivity.
Defined.

Lemma rollout_window_accounting_witness :
  exists r s' ev,
    rollout (Scripted.params 200 25 None None)
      (Scripted.plain_env Scripted.int_ids) None 0
      (initial_state (Scripted.world Scripted.int_ids 25 true)
         [Scripted.new_agent 0; Scripted.new_agent 1])
    = (Ok r, s', ev) /\
    r_steps r = 25 /\ total_steps s' = 25 /\
    count_events is_env_step ev = 25%nat /\
    count_events is_memory_write ev = 25%nat.
Proof.
  destruct (rollout (Scripted.params 200 25 None None)
              (Scripted.plain_env Scripted.int_ids) None 0
              (@initial_state Scripted.domain
                 (Scripted.world Scripted.int_ids 25 true)
                 [Scripted.new_agent 0; Scripted.new_agent 1]))
    as [[[r|e|] s'] ev] eqn:E;
    [|vm_compute in E; discriminate E|vm_compute in E; discriminate E].
  exists r, s', ev. split; [reflexivity|].
  exact (@rollout_window_accounting _ _ _ _ _ _ _ _ _ _ E).
Defined.


Lemma save_paths_cut_at_extension_witness :
  compute_save_path Scripted.params_with_paths Scripted.two_generations_in
  = (Ok "run", Scripted.two_generations_in, []).
Proof.
  apply (proj1 (@save_paths_cut_at_extension _ _ Scripted.params_with_paths
                  "run" "" (Scripted.new_agent 0)
                  Scripted.two_generations_in eq_refl)).
  right. reflexivity.
Defined.

Lemma episode_boundary_single_env_witness :
  exists r',
    fst (fst (episode_ends (Scripted.plain_env Scripted.int_ids) 0
                [(KInt 0, Vec [false]); (KInt 1, Vec [false])]
                [(KInt 0, Vec [true]); (KInt 1, Vec [true])]
                Scripted.first_step_rollout Scripted.two_generations_in))
    = Ok r' /\
    r_completed r' = [Some 1%Q] /\ r_scores r' = [fzero].
Proof.
  destruct (proj2 (@episode_boundary_single_env _ _
                     (Scripted.plain_env Scripted.int_ids) 0%nat
                     [(KInt 0, Vec [false]); (KInt 1, Vec [false])]
                     [(KInt 0, Vec [true]); (KInt 1, Vec [true])]
                     Scripted.first_step_rollout Scripted.two_generations_in
                     [false; false] [true; true]
                     (set_steps (Scripted.new_agent 0) [25; 50]) (Some 1%Q)
                     eq_refl ltac:(discriminate) ltac:(discriminate)
                     eq_refl eq_refl eq_refl eq_refl) eq_refl)
    as (s' & E & _).
  eexists. rewrite E. split; [reflexivity|]. split; reflexivity.
Defined.

(* ------------------------------------------------------------------ *)
(** ** The loop body in two parts *)

Section MonadLaws.
Context {D : Domain}.

Lemma same_refl {A} (m : M A) : same m m.
Proof. intros s. reflexivity. Qed.

Lemma same_trans {A} (m1 m2 m3 : M A) :
  same m1 m2 -> same m2 m3 -> same m1 m3.
Proof. intros H1 H2 s. now rewrite H1. Qed.

Lemma same_bind {A B} (m : M A) (f g : A -> M B) :
  (forall a, same (f a) (g a)) -> same (bind m f) (bind m g).
Proof.
  intros H s. unfold bind.
  destruct (m s) as [[[a|e|] s1] ev1]; try reflexivity. now rewrite H.
Qed.

Lemma same_assoc {A B C} (m : M A) (f : A -> M B) (g : B -> M C) :
  same (bind (bind m f) g) (bind m (fun a => bind (f a) g)).
Proof.
  intros s. unfold bind.
  destruct (m s) as [[[a|e|] s1] ev1]; try reflexivity.
  destruct (f a s1) as [[[b|e|] s2] ev2]; try reflexivity.
  destruct (g b s2) as [[r s3] ev3]. now rewrite app_assoc.
Qed.

Lemma same_ret_l {A B} (a : A) (f : A -> M B) : same (bind (ret a) f) (f a).
Proof.
  intros s. unfold bind, ret. now destruct (f a s) as [[r s2] ev2].
Qed.

End MonadLaws.

(** Re-associates the binds of the left-hand side until it reads as the
    right-hand side does. *)
Ltac same_step :=
  match goal with
  | |- same (bind (bind _ _) _) _ =>
      eapply same_trans; [apply same_assoc|]; apply same_bind; intros ?
  | |- same (bind (ret _) _) _ =>
      eapply same_trans; [apply same_ret_l|]
  | |- same _ _ => apply same_refl
  end.

Section LoopBody.
Context {D : Domain} {C : Collaborators}.
Variable p : Params.
Variable env : Env.

(** The loop body is its first part, the early-stop test and, unless the
    test returns, its second part. *)
Lemma generation_split (save_path : string) (sampler : option Z)
  (elite : option Agent) :
  same
    (fm <- generation_head p env sampler ;;
     stop <- early_stop p ;;
     match stop with
     | Some v => ret (inl v)
     | None =>
         elite' <- generation_tail p save_path elite (fst fm) (snd fm) ;;
         ret (inr elite')
     end)
    (generation p env save_path sampler elite).
Proof.
  unfold generation_head, generation, generation_tail.
  do 10 same_step. cbn [fst snd].
  apply same_bind. intros [v|]; [apply same_refl|].
  repeat same_step.
Qed.

End LoopBody.

Section TerminationAndEarlyStop.
Context {D : Domain} {C : Collaborators}.
Variable p : Params.
Variable env : Env.

Lemma same_bind_l {A B} (m1 m2 : M A) (f : A -> M B) :
  same m1 m2 -> same (bind m1 f) (bind m2 f).
Proof. intros H s. unfold bind. now rewrite H. Qed.

Lemma steps_below_last_steps (pop0 : list Agent) :
  Forall (fun a => steps a <> []) pop0 ->
  steps_below p pop0
  = Ok (forallb (fun a => last_step a <? max_steps p) pop0).
Proof.
  intros Hs. unfold steps_below.
  rewrite (map_outcome_all_ok _ last_step).
  - now rewrite forallb_of_map.
  - eapply Forall_impl; [|exact Hs]. intros a Ha.
    now apply py_last_last_step.
Qed.

Lemma early_stop_returns (tgt : Float) (s : St) :
  target p = Some tgt ->
  early_stop_test tgt (pop s) = Ok true ->
  early_stop p s
  = (Ok (Some (pop s, pop_fitnesses s)), s,
     if wb p then [WandbFinish] else []).
Proof.
  intros T E. unfold early_stop. rewrite T.
  unfold bind, get_pop, lift, get, ret, emit. rewrite E.
  destruct (wb p); reflexivity.
Qed.

Lemma early_stop_goes_on (s : St) :
  target p = None \/
  (exists tgt, target p = Some tgt /\ early_stop_test tgt (pop s) = Ok false) ->
  early_stop p s = (Ok None, s, []).
Proof.
  intros [T|(tgt & T & E)]; unfold early_stop; rewrite T; [reflexivity|].
  unfold bind, get_pop, lift, ret. now rewrite E.
Qed.

(** One turn of the loop from a state in which the condition holds and the
    first part of the body returns. *)
Lemma loop_turn (fuel : nat) (save_path : string) (sampler : option Z)
  (elite : option Agent) (s s1 : St) (fm : list Float * Float)
  (ev1 : list Event) :
  Forall (fun a => steps a <> []) (pop s) ->
  Forall (fun a => last_step a < max_steps p) (pop s) ->
  generation_head p env sampler s = (Ok fm, s1, ev1) ->
  training_loop p env (S fuel) save_path sampler elite s
  = (let '(r, s2, ev2) :=
       (stop <- early_stop p ;;
        match stop with
        | Some v => ret v
        | None =>
            elite' <- generation_tail p save_path elite (fst fm) (snd fm) ;;
            training_loop p env fuel save_path sampler elite'
        end) s1 in
     (r, s2, ev1 ++ ev2)).
Proof.
  intros Hne Hlt Eh.
  assert (G : loop_guard p s = (Ok true, s, [])).
  { unfold loop_guard, bind, get_pop, lift.
    rewrite (steps_below_last_steps Hne).
    replace (forallb _ (pop s)) with true; [reflexivity|].
    symmetry. apply forallb_forall. intros a Ha. apply Z.ltb_lt.
    rewrite Forall_forall in Hlt. auto. }
  cbn [training_loop]. erewrite bind_ok by exact G. cbv beta iota.
  set (K2 := fun r : list Agent * list (list Float) + option Agent =>
               match r with
               | inl v => ret v
               | inr elite' =>
                   training_loop p env fuel save_path sampler elite'
               end).
  assert (S1 : same (bind (generation p env save_path sampler elite) K2)
                 (fm <- generation_head p env sampler ;;
                  stop <- early_stop p ;;
                  match stop with
                  | Some v => ret v
                  | None =>
                      elite' <- generation_tail p save_path elite
                                  (fst fm) (snd fm) ;;
                      training_loop p env fuel save_path sampler elite'
                  end)).
  { intros s0. rewrite <- (same_bind_l _ (generation_split p env save_path
                                             sampler elite)).
    revert s0. fold (same (A := list Agent * list (list Float))).
    eapply same_trans; [apply same_assoc|]. apply same_bind. intros fm0.
    eapply same_trans; [apply same_assoc|]. apply same_bind.
    intros [v|].
    - exact (same_ret_l (inl v) K2).
    - eapply same_trans; [apply same_assoc|]. apply same_bind. intros e'.
      exact (same_ret_l (inr e') K2). }
  rewrite S1. erewrite bind_ok by exact Eh.
  destruct (bind (early_stop p) _ s1) as [[r s2] ev2]. reflexivity.
Qed.

(** C3, as the code has it.  From a state in which every agent has a step
    history: (a) if the last step counter of some agent has reached
    [max_steps] the loop ends at once and the function returns the
    population and the fitnesses gathered so far; (b) otherwise the loop
    body runs, and when its first part (rollouts, evaluation, metrics,
    step-counter update) has returned in the state [s1]: with a target, the
    function returns the population of [s1] from inside the loop when in
    [s1] the mean of the last ten fitnesses, as [np.mean] computes it, is
    strictly greater than the target for every agent and the first agent's
    step history has at least 100 entries, and goes on with selection,
    report and checkpoint and the next turn of the loop when this is not
    so; without a target it always goes on. *)
Theorem loop_termination_and_early_stop (fuel : nat) (save_path : string)
  (sampler : option Z) (elite : option Agent) (s : St) :
  Forall (fun a => steps a <> []) (pop s) ->
  (Exists (fun a => max_steps p <= last_step a) (pop s) ->
   exists ev,
     training_loop p env (S fuel) save_path sampler elite s
     = (Ok (pop s, pop_fitnesses s), s, ev)) /\
  (Forall (fun a => last_step a < max_steps p) (pop s) ->
   forall fm s1 ev1,
     generation_head p env sampler s = (Ok fm, s1, ev1) ->
     let reached tgt :=
       (forall a, In a (pop s1) ->
                  exists m t, recent_mean_fitness a = Some m /\
                              tgt = Some t /\ (t < m)%Q) /\
       exists a0, hd_error (pop s1) = Some a0 /\
                  (100 <= List.length (steps a0))%nat in
     let goes_on :=
       training_loop p env (S fuel) save_path sampler elite s
       = (let '(r, s2, ev2) :=
            (elite' <- generation_tail p save_path elite (fst fm) (snd fm) ;;
             training_loop p env fuel save_path sampler elite') s1 in
          (r, s2, ev1 ++ ev2)) in
     (forall tgt, target p = Some tgt -> reached tgt ->
        training_loop p env (S fuel) save_path sampler elite s
        = (Ok (pop s1, pop_fitnesses s1), s1,
           ev1 ++ (if wb p then [WandbFinish] else []))) /\
     (forall tgt, target p = Some tgt -> ~ reached tgt -> pop s1 <> [] ->
                  goes_on) /\
     (target p = None -> goes_on)).
Proof.
  intros Hne. split.
  - intros Hex.
    rewrite loop_exits; [apply finish_ok|].
    rewrite (steps_below_last_steps Hne). f_equal.
    destruct (forallb _ (pop s)) eqn:F; [exfalso|reflexivity].
    rewrite forallb_forall in F. apply Exists_exists in Hex as (a & Ha & Hle).
    specialize (F a Ha). apply Z.ltb_lt in F. lia.
  - intros Hlt fm s1 ev1 Eh reached goes_on.
    pose proof (@loop_turn fuel save_path sampler elite _ _ _ _ Hne Hlt Eh)
      as T.
    assert (Hgo : early_stop p s1 = (Ok None, s1, []) -> goes_on).
    { intros E. unfold goes_on. rewrite T.
      erewrite bind_ok by exact E. cbv beta iota.
      destruct (bind _ _ s1) as [[r s2] ev2]. reflexivity. }
    split; [|split].
    + intros tgt Ht Hr. rewrite T.
      apply early_stop_test_spec in Hr.
      erewrite bind_ok by exact (early_stop_returns _ Ht Hr).
      unfold ret. now rewrite app_nil_r.
    + intros tgt Ht Hn Hpop. apply Hgo, early_stop_goes_on. right.
      exists tgt. split; [exact Ht|].
      destruct (early_stop_test tgt (pop s1)) as [[|]| |] eqn:E.
      * exfalso. apply Hn. now apply early_stop_test_spec.
      * reflexivity.
      * exfalso. unfold early_stop_test in E.
        destruct (forallb _ _); [|discriminate].
        destruct (pop s1); [congruence|discriminate].
      * exfalso. unfold early_stop_test in E.
        destruct (forallb _ _); [|discriminate].
        destruct (pop s1); [congruence|discriminate].
    + intros Ht. apply Hgo, early_stop_goes_on. now left.
Qed.

End TerminationAndEarlyStop.

(** The scenario started on agents with a history: the first generation
    brings the mean of the last ten fitnesses above the target, the first
    agent's step history reaches 100 entries, and the function returns from
    inside the loop with the step counters at 25. *)
Lemma loop_termination_and_early_stop_witness :
  Forall (fun a => steps a <> []) (pop Scripted.veterans_at_loop) /\
  exists s1 ev,
    training_loop (Scripted.params 200 25 (Some (Some (1 # 20)%Q)) None)
      (Scripted.plain_env Scripted.int_ids) 1 "run" None None
      Scripted.veterans_at_loop
    = (Ok (pop s1, pop_fitnesses s1), s1, ev) /\
    map last_step (pop s1) = [25; 25].
Proof.
  assert (Hne : Forall (fun a => steps a <> [])
                       (pop Scripted.veterans_at_loop))
    by (repeat constructor; discriminate).
  split; [exact Hne|].
  assert (Hlt : Forall (fun a => last_step a < 200)
                       (pop Scripted.veterans_at_loop))
    by (repeat constructor).
  destruct (generation_head
              (Scripted.params 200 25 (Some (Some (1 # 20)%Q)) None)
              (Scripted.plain_env Scripted.int_ids) None
              Scripted.veterans_at_loop)
    as [[[fm|e|] s1] ev1] eqn:Eh;
    [|vm_compute in Eh; discriminate Eh|vm_compute in Eh; discriminate Eh].
  assert (Hs1 : early_stop_test (Some (1 # 20)%Q) (pop s1) = Ok true
                /\ map last_step (pop s1) = [25; 25]).
  { pose proof Eh as Eh'. vm_compute in Eh'. injection Eh' as _ <- _.
    split; vm_compute; reflexivity. }
  destruct Hs1 as [Ht Hl].
  exists s1, (ev1 ++ []). split; [|exact Hl].
  exact (proj1 (proj2 (@loop_termination_and_early_stop _ _
                         (Scripted.params 200 25 (Some (Some (1 # 20)%Q))
                                          None)
                         (Scripted.plain_env Scripted.int_ids)
                         0%nat "run" None None Scripted.veterans_at_loop Hne)
                      Hlt fm s1 ev1 Eh)
               (Some (1 # 20)%Q) eq_refl
               (proj1 (early_stop_test_spec _ _) Ht)).
Defined.

(** C3, as the spec words it, fails in both directions.  Started on agents
    with a history, the function returns from inside the loop at the end of
    a generation before which the target had never been exceeded: the target
    has not been sustained across two generations, let alone more.  Started
    on fresh agents with a target that every evaluation exceeds, the target
    is sustained across all eight generations of the run and the function
    never returns early: it stops when the step counters reach
    [max_steps]. *)
Lemma early_stop_sustained_counterexample :
  (let '(r, s, _) := Scripted.scenario_veterans in
   r = Ok (pop s, pop_fitnesses s) /\
   map last_step (pop s) = [25; 25] /\
   map (sustained (Some (1 # 20)%Q) 1) (pop s) = [true; true] /\
   map (sustained (Some (1 # 20)%Q) 2) (pop s) = [false; false]) /\
  (let '(r, s, _) := Scripted.scenario_with_target in
   r = Ok (pop s, pop_fitnesses s) /\
   map last_step (pop s) = [200; 200] /\
   List.length (pop_fitnesses s) = 8%nat /\
   map (sustained (Some (1 # 2)%Q) 8) (pop s) = [true; true]).
Proof. split; vm_compute; repeat split; reflexivity. Qed.

(* ------------------------------------------------------------------ *)
(** ** The checkpoint at the end of a generation *)

Section CheckpointOfAGeneration.
Context {D : Domain} {C : Collaborators}.
Variable p : Params.
Variable env : Env.











End CheckpointOfAGeneration.

